(** * sunrise_plus: the log-driven supervisor of [main.go], embedded in Rocq

    The development follows the layout of the Go program.  The current
    program is [main.go]; the two earlier programs kept in the repository
    (the systemd-preferred eight-step restart, and the original stop/start
    program) are embedded in the modules [SystemdPreferred] and [Original]
    as far as the properties below need them.

    Conventions.
    - A Go [string] is a [string] of bytes; [len] is its byte length in [Z].
    - A [time.Time] is the instant it denotes, in nanoseconds counted from
      Go's zero [Time]; [After] and [IsZero] only look at the instant.
    - A Go [error] is its message; [nil] is [None].
    - The operating system is an oracle ([Env]) consulted at a logical tick,
      the number of operating-system calls made so far; every call is
      recorded, with its answer, in the [trace].  What the [log] package
      prints is kept apart in [logged].
    - The files are state: while a function of the program runs, only the
      program changes them; what else happens to them happens between two
      runs, and the properties quantify over it.
    - The two goroutines are embedded one loop body at a time; nothing is
      said about their interleaving. *)

From Stdlib Require Import ZArith List String Ascii Bool Lia DecimalString Sorted
  Permutation.
Import ListNotations.
Local Open Scope string_scope.
Local Open Scope list_scope.
Local Open Scope Z_scope.

(** String concatenation, written [+] in Go. *)
Infix "+++" := String.append (right associativity, at level 60).

Set Implicit Arguments.

(** ** Values *)

Definition error := string.

Inductive result (A : Type) : Type :=
| Ok (a : A)
| Err (e : error).
Arguments Ok {A} a.
Arguments Err {A} e.

Definition len (s : string) : Z := Z.of_nat (String.length s).

(** *** package time *)

Definition Time := Z.
Definition Duration := Z.

Definition Millisecond : Duration := 1000000.
Definition Second : Duration := 1000 * Millisecond.
Definition Minute : Duration := 60 * Second.
Definition minDuration : Duration := - 2 ^ 63.
Definition maxDuration : Duration := 2 ^ 63 - 1.

Definition zeroTime : Time := 0.
Definition IsZero (t : Time) : bool := t =? 0.
Definition After (t u : Time) : bool := u <? t.

(** [t.Sub(u)]: the difference, saturated to the range of [Duration]. *)
Definition Sub (t u : Time) : Duration :=
  if t - u <? minDuration then minDuration
  else if maxDuration <? t - u then maxDuration
  else t - u.

Definition layoutSunshine : string := "2006-01-02 15:04:05.000".
Definition RFC3339Nano : string := "2006-01-02T15:04:05.999999999Z07:00".

(** *** package strings *)

Fixpoint HasPrefix (s prefix : string) : bool :=
  match prefix, s with
  | EmptyString, _ => true
  | String _ _, EmptyString => false
  | String p prefix', String a s' => Ascii.eqb a p && HasPrefix s' prefix'
  end.

Fixpoint Contains (s substr : string) : bool :=
  HasPrefix s substr ||
  match s with
  | EmptyString => false
  | String _ s' => Contains s' substr
  end.

(** [strings.Index]: byte offset of the first occurrence, [-1] if none. *)
Fixpoint Index (s substr : string) : Z :=
  if HasPrefix s substr then 0
  else match s with
       | EmptyString => -1
       | String _ s' => let i := Index s' substr in
                        if i =? -1 then -1 else i + 1
       end.

(** [s[lo:hi]] for [0 <= lo <= hi <= len s]. *)
Definition slice (s : string) (lo hi : Z) : string :=
  String.substring (Z.to_nat lo) (Z.to_nat (hi - lo)) s.

(** [strings.Split(s, sep)] for a separator of one byte. *)
Fixpoint Split (s : string) (sep : ascii) : list string :=
  match s with
  | EmptyString => [EmptyString]
  | String a s' =>
      if Ascii.eqb a sep then EmptyString :: Split s' sep
      else match Split s' sep with
           | piece :: pieces => String a piece :: pieces
           | [] => [String a EmptyString]
           end
  end.

Fixpoint Join (elems : list string) (sep : string) : string :=
  match elems with
  | [] => ""
  | [e] => e
  | e :: rest => e +++ sep +++ Join rest sep
  end.

(** [%v] of a slice of strings. *)
Definition fmtStrings (l : list string) : string := "[" +++ Join l " " +++ "]".

(** *** package strconv *)

Definition Itoa (i : Z) : string := NilZero.string_of_int (Z.to_int i).

Definition isDigit (a : ascii) : bool :=
  let n := nat_of_ascii a in (48 <=? n)%nat && (n <=? 57)%nat.

Fixpoint digitsValue (s : string) (acc : Z) : option Z :=
  match s with
  | EmptyString => Some acc
  | String a s' =>
      if isDigit a
      then digitsValue s' (10 * acc + (Z.of_nat (nat_of_ascii a) - 48))
      else None
  end.

(** [strconv.Atoi] on a 64-bit platform: an optional sign, then one or more
    decimal digits, the value within [int]; [None] stands for the error,
    which the program never inspects. *)
Definition Atoi (s : string) : option Z :=
  let '(neg, body) :=
    match s with
    | String "-" s' => (true, s')
    | String "+" s' => (false, s')
    | _ => (false, s)
    end in
  match body with
  | EmptyString => None
  | _ => match digitsValue body 0 with
         | None => None
         | Some v => let n := if neg then - v else v in
                     if (- 2 ^ 63 <=? n) && (n <=? 2 ^ 63 - 1)
                     then Some n else None
         end
  end.

(** [%v] of a slice of ints. *)
Definition fmtInts (l : list Z) : string := fmtStrings (map Itoa l).

(** *** Library functions taken as given

    [time.ParseInLocation layout value time.Local], [Time.Format],
    [strings.Fields] and [strings.TrimSpace] belong to the Go library; the
    program is embedded over any implementation of them. *)
Class GoLib : Type := {
  ParseInLocation : string -> string -> result Time;
  Format : Time -> string -> string;
  Fields : string -> list string;
  TrimSpace : string -> string
}.

(** *** package bufio

    [bufio.Scanner] with the [ScanLines] split function and a buffer capped
    at [maxTokenSize] bytes.  A line is handed out when its terminating
    newline, or the end of input, is found while the line is held in the
    buffer; a buffer filled to its cap with no newline in it ends the scan
    with [ErrTooLong], also when the input ends right there, since the end
    of input is only seen by a further read. *)

Definition ErrTooLong : error := "bufio.Scanner: token too long".

Definition LF : ascii := "010"%char.
Definition CR : ascii := "013"%char.

(** The pieces of the input between newlines; the last piece is what
    follows the last newline. *)
Definition rawLines (data : string) : list string := Split data LF.

Fixpoint dropCR (data : string) : string :=
  match data with
  | EmptyString => EmptyString
  | String a EmptyString => if Ascii.eqb a CR then EmptyString else data
  | String a rest => String a (dropCR rest)
  end.

Fixpoint scanTokens (maxTokenSize : Z) (pieces : list string)
  : list string * option error :=
  match pieces with
  | [] => ([], None)
  | [final] =>
      if maxTokenSize <=? len final then ([], Some ErrTooLong)
      else match final with
           | EmptyString => ([], None)
           | _ => ([dropCR final], None)
           end
  | piece :: rest =>
      if maxTokenSize <=? len piece then ([], Some ErrTooLong)
      else let '(tokens, err) := scanTokens maxTokenSize rest in
           (dropCR piece :: tokens, err)
  end.

(** An open file as the scanner sees it: the bytes its reads deliver and
    the error that ends them ([None] for a plain end of file). *)
Record File : Type := {
  delivered : string;
  readErr : option error
}.

(** The lines [scanner.Scan] yields in turn, and [scanner.Err()] once it
    has returned false. *)
Definition Scanner (maxTokenSize : Z) (f : File) : list string * option error :=
  let '(tokens, err) := scanTokens maxTokenSize (rawLines (delivered f)) in
  (tokens, match err with
           | Some e => Some e
           | None => readErr f
           end).

Definition MaxScanTokenSize : Z := 64 * 1024.

(** ** The operating system *)

Record DirEntry : Type := {
  Name : string;
  IsDir : bool
}.

(** One call to the operating system, with its answer. *)
Inductive Event : Type :=
| EvStat (path : string) (r : result Z)
| EvOpen (path : string) (r : option error)
| EvTruncate (path : string) (size : Z) (r : option error)
| EvRun (argv : list string) (r : option error)
| EvOutput (argv : list string) (stdout : string)
| EvStart (argv : list string) (r : option error)
| EvReadDir (path : string) (r : result (list DirEntry))
| EvReadFile (path : string) (r : result string)
| EvNow (t : Time)
| EvSleep (d : Duration).

(** What the surroundings answer at each tick. *)
Record Env : Type := {
  run_result : nat -> list string -> option error;
  run_stdout : nat -> list string -> string;
  cmd_string : list string -> string;
  start_result : nat -> list string -> option error;
  read_dir : nat -> string -> result (list DirEntry);
  read_file : nat -> string -> result string;
  wall_clock : nat -> Time;
  stat_fault : nat -> string -> option error;
  open_fault : nat -> string -> option error;
  read_fault : nat -> string -> option (nat * error);
  truncate_fault : nat -> string -> option error
}.

Record World : Type := {
  files : string -> option string;
  env : Env;
  trace : list Event;
  logged : list string
}.

(** The package-level variables of [main.go]. *)
Record Globals : Type := {
  lastLogSize : Z;
  lastMonitorMissingTime : Time;
  lastEncoderFailureTime : Time;
  lastMainLoopTime : Time;
  lastWakeTime : Time;
  lastLogPosition : Z;
  inWakeCycle : bool
}.

(** Their values when the process starts. *)
Definition initialGlobals : Globals :=
  {| lastLogSize := 0;
     lastMonitorMissingTime := zeroTime;
     lastEncoderFailureTime := zeroTime;
     lastMainLoopTime := zeroTime;
     lastWakeTime := zeroTime;
     lastLogPosition := 0;
     inWakeCycle := false |}.

Definition set_lastLogSize (v : Z) (g : Globals) : Globals :=
  {| lastLogSize := v;
     lastMonitorMissingTime := lastMonitorMissingTime g;
     lastEncoderFailureTime := lastEncoderFailureTime g;
     lastMainLoopTime := lastMainLoopTime g;
     lastWakeTime := lastWakeTime g;
     lastLogPosition := lastLogPosition g;
     inWakeCycle := inWakeCycle g |}.

Definition set_lastMonitorMissingTime (v : Time) (g : Globals) : Globals :=
  {| lastLogSize := lastLogSize g;
     lastMonitorMissingTime := v;
     lastEncoderFailureTime := lastEncoderFailureTime g;
     lastMainLoopTime := lastMainLoopTime g;
     lastWakeTime := lastWakeTime g;
     lastLogPosition := lastLogPosition g;
     inWakeCycle := inWakeCycle g |}.

Definition set_lastEncoderFailureTime (v : Time) (g : Globals) : Globals :=
  {| lastLogSize := lastLogSize g;
     lastMonitorMissingTime := lastMonitorMissingTime g;
     lastEncoderFailureTime := v;
     lastMainLoopTime := lastMainLoopTime g;
     lastWakeTime := lastWakeTime g;
     lastLogPosition := lastLogPosition g;
     inWakeCycle := inWakeCycle g |}.

Definition set_lastMainLoopTime (v : Time) (g : Globals) : Globals :=
  {| lastLogSize := lastLogSize g;
     lastMonitorMissingTime := lastMonitorMissingTime g;
     lastEncoderFailureTime := lastEncoderFailureTime g;
     lastMainLoopTime := v;
     lastWakeTime := lastWakeTime g;
     lastLogPosition := lastLogPosition g;
     inWakeCycle := inWakeCycle g |}.

Definition set_lastWakeTime (v : Time) (g : Globals) : Globals :=
  {| lastLogSize := lastLogSize g;
     lastMonitorMissingTime := lastMonitorMissingTime g;
     lastEncoderFailureTime := lastEncoderFailureTime g;
     lastMainLoopTime := lastMainLoopTime g;
     lastWakeTime := v;
     lastLogPosition := lastLogPosition g;
     inWakeCycle := inWakeCycle g |}.

Definition set_lastLogPosition (v : Z) (g : Globals) : Globals :=
  {| lastLogSize := lastLogSize g;
     lastMonitorMissingTime := lastMonitorMissingTime g;
     lastEncoderFailureTime := lastEncoderFailureTime g;
     lastMainLoopTime := lastMainLoopTime g;
     lastWakeTime := lastWakeTime g;
     lastLogPosition := v;
     inWakeCycle := inWakeCycle g |}.

Definition set_inWakeCycle (v : bool) (g : Globals) : Globals :=
  {| lastLogSize := lastLogSize g;
     lastMonitorMissingTime := lastMonitorMissingTime g;
     lastEncoderFailureTime := lastEncoderFailureTime g;
     lastMainLoopTime := lastMainLoopTime g;
     lastWakeTime := lastWakeTime g;
     lastLogPosition := lastLogPosition g;
     inWakeCycle := v |}.

Record State : Type := {
  vars : Globals;
  world : World
}.

(** ** Computations: a state monad over [State] *)

Definition M (A : Type) : Type := State -> A * State.

Definition ret {A : Type} (a : A) : M A := fun s => (a, s).

Definition bind {A B : Type} (m : M A) (k : A -> M B) : M B :=
  fun s => let '(a, s') := m s in k a s'.

Notation "x <- m ;; k" := (bind m (fun x => k))
  (at level 61, m at next level, right associativity).
Notation "' pat <- m ;; k" := (bind m (fun x => match x with pat => k end))
  (at level 61, pat pattern, m at next level, right associativity).
Notation "m ;; k" := (bind m (fun _ => k))
  (at level 61, right associativity).

Definition getv {A : Type} (f : Globals -> A) : M A :=
  fun s => (f (vars s), s).

Definition setv (upd : Globals -> Globals) : M unit :=
  fun s => (tt, {| vars := upd (vars s); world := world s |}).

Definition tick (w : World) : nat := List.length (trace w).

(** An operating-system call: its answer is recorded, and the files may
    change. *)
Definition syscall {A : Type} (answer : Env -> (string -> option string) -> nat -> A)
  (ev : A -> Event)
  (effect : A -> (string -> option string) -> string -> option string)
  : M A :=
  fun s =>
    let w := world s in
    let a := answer (env w) (files w) (tick w) in
    (a, {| vars := vars s;
           world := {| files := effect a (files w); env := env w;
                       trace := trace w ++ [ev a]; logged := logged w |} |}).

Definition unchanged {A : Type} (_ : A) (fs : string -> option string)
  : string -> option string := fs.

(** [log.Println] and [log.Printf], given the text they print. *)
Definition Println (msg : string) : M unit :=
  fun s =>
    let w := world s in
    (tt, {| vars := vars s;
            world := {| files := files w; env := env w;
                        trace := trace w; logged := logged w ++ [msg] |} |}).

Definition ENOENT (op path : string) : error :=
  op +++ " " +++ path +++ ": no such file or directory".

(** [os.Stat(path)], reduced to the size it reports. *)
Definition statAnswer (path : string) (e : Env) (fs : string -> option string)
  (t : nat) : result Z :=
  match stat_fault e t path with
  | Some err => Err err
  | None => match fs path with
            | None => Err (ENOENT "stat" path)
            | Some data => Ok (len data)
            end
  end.

Definition Stat (path : string) : M (result Z) :=
  syscall (statAnswer path) (EvStat path) unchanged.

(** [os.Open(path)]. *)
Definition openAnswer (path : string) (e : Env) (fs : string -> option string)
  (t : nat) : result File :=
  match open_fault e t path with
  | Some err => Err err
  | None =>
      match fs path with
      | None => Err (ENOENT "open" path)
      | Some data =>
          Ok match read_fault e t path with
             | Some (n, err) =>
                 {| delivered := String.substring 0 n data;
                    readErr := Some err |}
             | None => {| delivered := data; readErr := None |}
             end
      end
  end.

Definition openError (r : result File) : option error :=
  match r with
  | Ok _ => None
  | Err e => Some e
  end.

Definition Open (path : string) : M (result File) :=
  syscall (openAnswer path) (fun r => EvOpen path (openError r)) unchanged.

(** [os.Truncate(path, 0)]. *)
Definition truncateAnswer (path : string) (e : Env)
  (fs : string -> option string) (t : nat) : option error :=
  match truncate_fault e t path with
  | Some err => Some err
  | None => match fs path with
            | None => Some (ENOENT "truncate" path)
            | Some _ => None
            end
  end.

Definition emptied (path : string) (r : option error)
  (fs : string -> option string) : string -> option string :=
  match r with
  | None => fun p => if String.eqb p path then Some "" else fs p
  | Some _ => fs
  end.

Definition Truncate (path : string) : M (option error) :=
  syscall (truncateAnswer path) (EvTruncate path 0) (emptied path).

(** [exec.Command(argv[0], argv[1:]...).Run()]. *)
Definition Run (argv : list string) : M (option error) :=
  syscall (fun e _ t => run_result e t argv) (EvRun argv) unchanged.

(** The same with [Stdout] captured and the error dropped. *)
Definition Output (argv : list string) : M string :=
  syscall (fun e _ t => run_stdout e t argv) (EvOutput argv) unchanged.

(** [exec.Command(argv[0], argv[1:]...).Start()]. *)
Definition Start (argv : list string) : M (option error) :=
  syscall (fun e _ t => start_result e t argv) (EvStart argv) unchanged.

Definition ReadDir (path : string) : M (result (list DirEntry)) :=
  syscall (fun e _ t => read_dir e t path) (EvReadDir path) unchanged.

Definition ReadFile (path : string) : M (result string) :=
  syscall (fun e _ t => read_file e t path) (EvReadFile path) unchanged.

Definition Now : M Time :=
  syscall (fun e _ t => wall_clock e t) EvNow unchanged.

Definition Sleep (d : Duration) : M unit :=
  _ <- syscall (fun _ _ _ => d) EvSleep unchanged ;; ret tt.

(** [time.Since(t)]. *)
Definition Since (t : Time) : M Duration :=
  now <- Now ;; ret (Sub now t).

(** [String()] of an [exec.Cmd]: depends on the lookup of the executable. *)
Definition CmdString (argv : list string) : M string :=
  fun s => (cmd_string (env (world s)) argv, s).

(** [int64] wrap-around, for [time.Duration(n) * time.Second]. *)
Definition int64 (z : Z) : Z := (z + 2 ^ 63) mod 2 ^ 64 - 2 ^ 63.

(** ** main.go *)

(** [config] controls how sunrise functions. *)
Record config : Type := {
  SunriseCheckSeconds : Z;
  SunshineLogPath : string;
  MonitorIsOffLogLine : string;
  EncoderFailedLogLine : string;
  EncoderFailedLogLine2 : string;
  WakeMonitorSleepSeconds : Z;
  StopSunshineCommand : string;
  StartSunshineCommand : string;
  WakeMonitorCommand : string;
  EnableSunshineRestart : bool;
  RestartOnEncoderFailure : bool
}.

(** How a loop body hands control back: to the next iteration, or out of
    the process through [log.Fatal]. *)
Inductive Flow : Type :=
| NextIteration
| Exit.

Section Program.

Context {lib : GoLib}.
Variable c : config.

Definition parseSunshineTimestamp (line : string) : result Time :=
  let endIdx := Index line "]" in
  if negb (HasPrefix line "[") || (endIdx =? -1)
  then Err "sunshine log line missing timestamp brackets"
  else ParseInLocation layoutSunshine (slice line 1 endIdx).

Definition resetMonitorTracking : M unit :=
  setv (set_lastMonitorMissingTime zeroTime) ;;
  setv (set_lastEncoderFailureTime zeroTime).

(** [isBufferOverflow] checks if scanner error is due to token too long. *)
Definition isBufferOverflow (err : option error) : bool :=
  match err with
  | None => false
  | Some e => Contains e "token too long"
  end.

(** [waitForServiceActive] waits for a systemd service to become active;
    [pollServiceActive] is its [for] loop with the iterations left. *)
Fixpoint pollServiceActive (serviceName : string) (left : nat)
  : M (option error) :=
  match left with
  | O => ret (Some ("timeout waiting for " +++ serviceName))
  | S left' =>
      err <- Run ["systemctl"; "--user"; "is-active"; serviceName] ;;
      match err with
      | None =>
          Println ("Service " +++ serviceName +++ " is active") ;;
          ret None
      | Some _ =>
          Sleep (1 * Second) ;;
          pollServiceActive serviceName left'
      end
  end.

Definition waitForServiceActive (serviceName : string) (timeoutSeconds : Z)
  : M (option error) :=
  Println ("Waiting up to " +++ Itoa timeoutSeconds +++ " seconds for "
           +++ serviceName +++ "...") ;;
  pollServiceActive serviceName (Z.to_nat timeoutSeconds).

(** [restartSunshineSystemctlOnly] restarts Sunshine using systemctl only
    (no fallback). *)
Definition restartSunshineSystemctlOnly : M (option error) :=
  Println "=== Restarting Sunshine via systemctl ===" ;;
  err <- Run ["systemctl"; "--user"; "restart"; "sunshine"] ;;
  match err with
  | Some e =>
      Println ("systemctl restart failed: " +++ e) ;;
      Println "Waiting for next cycle..." ;;
      ret (Some e)
  | None =>
      Println "systemctl restart completed" ;;
      err <- waitForServiceActive "sunshine" 30 ;;
      match err with
      | Some e =>
          Println ("Sunshine service did not become active: " +++ e) ;;
          ret (Some e)
      | None =>
          setv (set_lastLogPosition 0) ;;
          setv (set_lastMainLoopTime zeroTime) ;;
          ret None
      end
  end.

(** [handleCorruptedLog] clears the log and restarts sunshine. *)
Definition handleCorruptedLog : M (option error) :=
  Println "Truncating corrupted sunshine log" ;;
  err <- Truncate (SunshineLogPath c) ;;
  match err with
  | Some e =>
      Println ("Failed to truncate log: " +++ e) ;;
      ret (Some e)
  | None =>
      Println "Log truncated successfully, restarting sunshine" ;;
      restartSunshineSystemctlOnly
  end.

(** The [for scanner.Scan()] loop of the two scans: [matches] is the test
    on the line that differs between them. *)
Fixpoint latestMatching (matches : string -> bool) (lines : list string)
  (latestOccurrence : Time) : M Time :=
  match lines with
  | [] => ret latestOccurrence
  | line :: rest =>
      if negb (matches line) then latestMatching matches rest latestOccurrence
      else
        match parseSunshineTimestamp line with
        | Err e =>
            Println ("Unable to parse timestamp: " +++ e) ;;
            latestMatching matches rest latestOccurrence
        | Ok entryTime =>
            latestMatching matches rest
              (if After entryTime latestOccurrence
               then entryTime else latestOccurrence)
        end
  end.

Definition monitorMatches (line : string) : bool :=
  Contains line (MonitorIsOffLogLine c).

Definition encoderMatches (line : string) : bool :=
  negb (negb (Contains line (EncoderFailedLogLine c)) &&
        negb (Contains line (EncoderFailedLogLine2 c))).

(** [isMonitorSleeping] checks for monitor sleep errors. *)
Definition isMonitorSleeping : M (bool * option error) :=
  Println "Checking if monitor is sleeping" ;;
  logInfo <- Stat (SunshineLogPath c) ;;
  match logInfo with
  | Err e => ret (false, Some e)
  | Ok size =>
      last <- getv lastLogSize ;;
      (if size <? last
       then Println "Sunshine log appears to have rotated; resetting tracking state" ;;
            resetMonitorTracking
       else ret tt) ;;
      setv (set_lastLogSize size) ;;
      logFile <- Open (SunshineLogPath c) ;;
      match logFile with
      | Err e => ret (false, Some e)
      | Ok f =>
          let '(lines, scanErr) := Scanner (1024 * 1024) f in
          latestOccurrence <- latestMatching monitorMatches lines zeroTime ;;
          match scanErr with
          | Some e =>
              if isBufferOverflow (Some e)
              then Println "Detected corrupted log with lines too long - clearing log and restarting sunshine" ;;
                   err <- handleCorruptedLog ;;
                   ret (false, err)
              else ret (false, Some e)
          | None =>
              if IsZero latestOccurrence
              then Println "Monitor is not sleeping" ;; ret (false, None)
              else
                handled <- getv lastMonitorMissingTime ;;
                if IsZero handled || After latestOccurrence handled
                then setv (set_lastMonitorMissingTime latestOccurrence) ;;
                     Println ("Monitor sleep detected at "
                              +++ Format latestOccurrence RFC3339Nano) ;;
                     ret (true, None)
                else Println ("Monitor sleep already handled at "
                              +++ Format handled RFC3339Nano) ;;
                     ret (false, None)
          end
      end
  end.

(** [isEncoderFailed] checks for encoder initialization failures. *)
Definition isEncoderFailed : M (bool * option error) :=
  Println "Checking for encoder failures" ;;
  logInfo <- Stat (SunshineLogPath c) ;;
  match logInfo with
  | Err e => ret (false, Some e)
  | Ok size =>
      setv (set_lastLogSize size) ;;
      logFile <- Open (SunshineLogPath c) ;;
      match logFile with
      | Err e => ret (false, Some e)
      | Ok f =>
          let '(lines, scanErr) := Scanner (1024 * 1024) f in
          latestOccurrence <- latestMatching encoderMatches lines zeroTime ;;
          match scanErr with
          | Some e =>
              if isBufferOverflow (Some e)
              then Println "Detected corrupted log with lines too long - clearing log and restarting sunshine" ;;
                   err <- handleCorruptedLog ;;
                   ret (false, err)
              else ret (false, Some e)
          | None =>
              if IsZero latestOccurrence
              then Println "No encoder failures detected" ;; ret (false, None)
              else
                handled <- getv lastEncoderFailureTime ;;
                if IsZero handled || After latestOccurrence handled
                then setv (set_lastEncoderFailureTime latestOccurrence) ;;
                     Println ("Encoder failure detected at "
                              +++ Format latestOccurrence RFC3339Nano) ;;
                     ret (true, None)
                else Println ("Encoder failure already handled at "
                              +++ Format handled RFC3339Nano) ;;
                     ret (false, None)
          end
      end
  end.

(** [shouldWakeMonitor] checks if we should wake the monitor. *)
Definition shouldWakeMonitor (cooldownPeriod : Duration) : M bool :=
  ready <- getv lastMainLoopTime ;;
  sinceReady <- Since ready ;;
  if sinceReady <? cooldownPeriod
  then Println "Sunshine recently ready - skipping wake" ;; ret false
  else
    woken <- getv lastWakeTime ;;
    sinceWake <- Since woken ;;
    if sinceWake <? cooldownPeriod
    then Println "In cooldown period - skipping wake" ;; ret false
    else ret true.

(** [checkForLogActivity] checks if Sunshine has new log activity. *)
Definition checkForLogActivity : M bool :=
  info <- Stat (SunshineLogPath c) ;;
  match info with
  | Err _ => ret false
  | Ok size =>
      position <- getv lastLogPosition ;;
      if position <? size
      then setv (set_lastLogPosition size) ;; ret true
      else ret false
  end.

(** The scan loop of [checkForMainLoop]: it returns at the first line
    holding the marker. *)
Fixpoint findMainLoop (lines : list string) : M bool :=
  match lines with
  | [] => ret false
  | line :: rest =>
      if Contains line "Starting main loop"
      then match parseSunshineTimestamp line with
           | Ok entryTime => setv (set_lastMainLoopTime entryTime) ;; ret true
           | Err _ => now <- Now ;; setv (set_lastMainLoopTime now) ;; ret true
           end
      else findMainLoop rest
  end.

(** [checkForMainLoop] checks if "Starting main loop" appears in recent
    logs. *)
Definition checkForMainLoop : M bool :=
  file <- Open (SunshineLogPath c) ;;
  match file with
  | Err e => Println ("Error opening log file: " +++ e) ;; ret false
  | Ok f => findMainLoop (fst (Scanner (1024 * 1024) f))
  end.

(** [detectSunshineRunning] checks if Sunshine service is running. *)
Definition detectSunshineRunning : M bool :=
  err <- Run ["systemctl"; "--user"; "is-active"; "sunshine"] ;;
  match err with
  | None => ret true
  | Some _ => ret false
  end.

(** [wakeMonitor] wakes the monitor using configured command. *)
Definition wakeMonitor : M (option error) :=
  let parts := Fields (WakeMonitorCommand c) in
  match parts with
  | [] => ret (Some "no wake command configured")
  | _ =>
      Println ("Running wake command: " +++ WakeMonitorCommand c) ;;
      err <- Run parts ;;
      match err with
      | Some e => Println ("Wake command failed: " +++ e) ;; ret (Some e)
      | None => Println "Wake command completed" ;; ret None
      end
  end.

Fixpoint tryWakeMethods (methods : list (list string)) : M (option error) :=
  match methods with
  | [] => ret (Some "all alternative wake methods failed")
  | args :: rest =>
      err <- Run args ;;
      match err with
      | None =>
          Println ("Alternative wake succeeded: " +++ fmtStrings args) ;;
          ret None
      | Some _ => tryWakeMethods rest
      end
  end.

(** [alternativeWakeMethod] tries alternative ways to wake the monitor. *)
Definition alternativeWakeMethod : M (option error) :=
  Println "Trying alternative wake methods..." ;;
  tryWakeMethods
    [ ["ydotool"; "mousemove"; "--absolute"; "100"; "100"];
      ["ydotool"; "key"; "65"] ].

Definition killProcess (pid signal : Z) : M (option error) :=
  Run ["kill"; "-" +++ Itoa signal; Itoa pid].

Fixpoint collectPIDs (entries : list DirEntry) (pids : list Z) : M (list Z) :=
  match entries with
  | [] => ret pids
  | entry :: rest =>
      if negb (IsDir entry) then collectPIDs rest pids
      else
        match Atoi (Name entry) with
        | None => collectPIDs rest pids
        | Some pid =>
            data <- ReadFile ("/proc/" +++ Itoa pid +++ "/comm") ;;
            match data with
            | Err _ => collectPIDs rest pids
            | Ok data =>
                if String.eqb (TrimSpace data) "sunshine"
                then collectPIDs rest (pids ++ [pid])
                else collectPIDs rest pids
            end
        end
  end.

Definition getSunshinePIDs : M (list Z) :=
  entries <- ReadDir "/proc" ;;
  match entries with
  | Err e => Println ("Could not read /proc: " +++ e) ;; ret []
  | Ok entries => collectPIDs entries []
  end.

Fixpoint sendSIGTERM (pids : list Z) : M unit :=
  match pids with
  | [] => ret tt
  | pid :: rest =>
      Println ("Sending SIGTERM to PID " +++ Itoa pid +++ "...") ;;
      err <- killProcess pid 15 ;;
      match err with
      | Some e => Println ("SIGTERM to PID " +++ Itoa pid +++ " failed: " +++ e)
      | None => ret tt
      end ;;
      sendSIGTERM rest
  end.

Fixpoint sendSIGKILL (pids : list Z) : M unit :=
  match pids with
  | [] => ret tt
  | pid :: rest =>
      err <- killProcess pid 9 ;;
      match err with
      | Some e => Println ("SIGKILL to PID " +++ Itoa pid +++ " failed: " +++ e)
      | None => ret tt
      end ;;
      sendSIGKILL rest
  end.

Definition killAllSunshineProcesses : M (option error) :=
  Println "Killing all sunshine processes..." ;;
  pids <- getSunshinePIDs ;;
  match pids with
  | [] => Println "No sunshine processes found" ;; ret None
  | _ =>
      Println ("Found " +++ Itoa (Z.of_nat (List.length pids))
               +++ " sunshine process(es) to kill: " +++ fmtInts pids) ;;
      sendSIGTERM pids ;;
      Sleep (2 * Second) ;;
      remainingPids <- getSunshinePIDs ;;
      match remainingPids with
      | [] => ret tt
      | _ =>
          Println ("Force killing "
                   +++ Itoa (Z.of_nat (List.length remainingPids))
                   +++ " remaining process(es): " +++ fmtInts remainingPids) ;;
          sendSIGKILL remainingPids
      end ;;
      ret None
  end.

Definition forceKillAllSunshine : M unit :=
  Println "Force killing all sunshine processes with SIGKILL..." ;;
  _ <- Run ["killall"; "-9"; "sunshine"] ;;
  ret tt.

Definition countSunshineProcesses : M Z :=
  pids <- getSunshinePIDs ;;
  ret (Z.of_nat (List.length pids)).

Definition systemdAvailable : M bool :=
  out <- Output ["systemctl"; "--user"; "is-system-running"] ;;
  let status := TrimSpace out in
  ret (String.eqb status "running" || String.eqb status "degraded").

(** [stopSunshineProperly] and [startSunshineProperly] of [main.go]; no
    function of [main.go] calls them. *)
Definition stopSunshineProperly : M (option error) :=
  available <- systemdAvailable ;;
  stopped <-
    (if available
     then Println "Stopping sunshine via systemd..." ;;
          err <- Run ["systemctl"; "--user"; "stop"; "sunshine"] ;;
          match err with
          | Some e => Println ("systemctl stop failed: " +++ e) ;; ret false
          | None => Println "systemctl stop completed" ;; ret true
          end
     else ret false) ;;
  if stopped then ret None
  else
    Println "Stopping sunshine via configured command..." ;;
    match Fields (StopSunshineCommand c) with
    | [] => ret (Some "no stop command configured")
    | parts => Run parts
    end.

(** The goroutine that waits on the started child only prints when the
    child exits; it is left out. *)
Definition startSunshineProperly : M (option error) :=
  available <- systemdAvailable ;;
  started <-
    (if available
     then Println "Starting sunshine via systemd..." ;;
          err <- Run ["systemctl"; "--user"; "start"; "sunshine"] ;;
          match err with
          | Some e => Println ("systemctl start failed: " +++ e) ;; ret false
          | None => Println "systemctl start completed" ;; ret true
          end
     else ret false) ;;
  if started then ret None
  else
    Println "Starting sunshine via configured command..." ;;
    match Fields (StartSunshineCommand c) with
    | [] => ret (Some "no start command configured")
    | parts => Start parts
    end.

(** The body of the [for] loop of [main], run at each tick of the ticker. *)
Definition periodicCheck : M Flow :=
  if RestartOnEncoderFailure c
  then
    '(encoderFailed, err) <- isEncoderFailed ;;
    match err with
    | Some e =>
        Println ("Error checking encoder failures: " +++ e) ;;
        ret NextIteration
    | None =>
        if encoderFailed
        then
          Println "Encoder failure detected - restarting sunshine" ;;
          err <- restartSunshineSystemctlOnly ;;
          match err with
          | Some e => Println ("Could not restart sunshine: " +++ e)
          | None => ret tt
          end ;;
          ret NextIteration
        else ret NextIteration
    end
  else ret NextIteration.

(** The branch of [runWakeOnConnect] taken when the monitor is to be woken. *)
Definition wakeCycle (waitSeconds : Z) : M unit :=
  Println "Waking monitor for connection..." ;;
  setv (set_inWakeCycle true) ;;
  err <- wakeMonitor ;;
  match err with
  | Some e =>
      Println ("Primary wake failed: " +++ e) ;;
      err <- alternativeWakeMethod ;;
      match err with
      | Some e => Println ("Alternative wake also failed: " +++ e)
      | None => ret tt
      end
  | None => ret tt
  end ;;
  now <- Now ;;
  setv (set_lastWakeTime now) ;;
  Println ("Waiting " +++ Itoa waitSeconds
           +++ " seconds for monitor and Sunshine...") ;;
  Sleep (int64 (waitSeconds * Second)) ;;
  ready <- checkForMainLoop ;;
  (if ready
   then Println "Sunshine is ready - connection successful!"
   else Println "Sunshine not ready - restarting..." ;;
        _ <- restartSunshineSystemctlOnly ;;
        ret tt) ;;
  setv (set_inWakeCycle false).

(** The body of the [for] loop of [runWakeOnConnect], the wake-on-connect
    state machine.  The mutex around [inWakeCycle] has no effect on one
    loop taken alone. *)
Definition wakeOnConnectStep : M Flow :=
  let cooldownPeriod := 2 * Minute in
  let waitSeconds := 15 in
  running <- detectSunshineRunning ;;
  if negb running
  then
    Println "Sunshine not running - restarting..." ;;
    _ <- restartSunshineSystemctlOnly ;;
    Sleep (10 * Second) ;;
    ret NextIteration
  else
    wake <- shouldWakeMonitor cooldownPeriod ;;
    (if wake then wakeCycle waitSeconds else ret tt) ;;
    inCycle <- getv inWakeCycle ;;
    crashed <- (if inCycle
                then running <- detectSunshineRunning ;; ret (negb running)
                else ret false) ;;
    (if crashed
     then Println "Sunshine crashed during wake cycle - restarting..." ;;
          _ <- restartSunshineSystemctlOnly ;;
          ret tt
     else ret tt) ;;
    hasNewActivity <- checkForLogActivity ;;
    (if hasNewActivity
     then Sleep (500 * Millisecond)
     else Sleep (int64 (SunriseCheckSeconds c * Second))) ;;
    ret NextIteration.

End Program.

(** ** The systemd-preferred program (first file of the earlier sources)

    Its [killAllSunshineProcesses], [getSunshinePIDs], [killProcess],
    [countSunshineProcesses], [forceKillAllSunshine] and [systemdAvailable]
    are, byte for byte, those of [main.go] above. *)
Module SystemdPreferred.
Section Program.

Context {lib : GoLib}.
Variable c : config.

Definition stopSunshineProperly : M (option error) :=
  available <- systemdAvailable ;;
  stopped <-
    (if available
     then Println "Stopping sunshine via systemd..." ;;
          err <- Run ["systemctl"; "--user"; "stop"; "sunshine"] ;;
          match err with
          | Some e =>
              Println ("systemctl stop failed, falling back to killall: " +++ e) ;;
              ret false
          | None => Println "systemctl stop completed" ;; ret true
          end
     else ret false) ;;
  if stopped then ret None
  else
    Println "Stopping sunshine via configured command..." ;;
    match Fields (StopSunshineCommand c) with
    | [] => ret (Some "no stop command configured")
    | parts => Run parts
    end.

(** The goroutine that waits on the started child only prints when the
    child exits; it is left out. *)
Definition startSunshineProperly : M (option error) :=
  available <- systemdAvailable ;;
  started <-
    (if available
     then Println "Starting sunshine via systemd..." ;;
          err <- Run ["systemctl"; "--user"; "start"; "sunshine"] ;;
          match err with
          | Some e =>
              Println ("systemctl start failed, falling back to direct command: "
                       +++ e) ;;
              ret false
          | None => Println "systemctl start completed" ;; ret true
          end
     else ret false) ;;
  if started then ret None
  else
    Println "Starting sunshine via configured command..." ;;
    match Fields (StartSunshineCommand c) with
    | [] => ret (Some "no start command configured")
    | parts => Start parts
    end.

(** Everything [restartSunshineManual] does before it starts sunshine
    again: steps 1 to 6 of the restart sequence. *)
Definition stopAndClear : M unit :=
  Println "Using manual process restart..." ;;
  err <- stopSunshineProperly ;;
  match err with
  | Some e => Println ("Warning: stopSunshine encountered error: " +++ e)
  | None => ret tt
  end ;;
  Println "Waiting 3 seconds for graceful shutdown..." ;;
  Sleep (3 * Second) ;;
  err <- killAllSunshineProcesses ;;
  match err with
  | Some e => Println ("Warning: killAllSunshineProcesses encountered error: " +++ e)
  | None => ret tt
  end ;;
  let waitSeconds := 5 in
  Println ("Waiting " +++ Itoa waitSeconds
           +++ " seconds for processes to terminate...") ;;
  Sleep (int64 (waitSeconds * Second)) ;;
  count <- countSunshineProcesses ;;
  (if 0 <? count
   then Println ("Warning: " +++ Itoa count
                 +++ " sunshine process(es) still remain") ;;
        forceKillAllSunshine ;;
        Sleep (2 * Second)
   else ret tt) ;;
  Println "Clearing sunshine logs..." ;;
  err <- Truncate (SunshineLogPath c) ;;
  match err with
  | Some e => Println ("Warning: could not truncate log: " +++ e)
  | None => ret tt
  end.

Definition restartSunshineManual : M (option error) :=
  stopAndClear ;;
  Println "Starting sunshine..." ;;
  err <- startSunshineProperly ;;
  match err with
  | Some e => ret (Some ("failed to start sunshine: " +++ e))
  | None =>
      Println "Waiting 5 seconds for sunshine to initialize..." ;;
      Sleep (5 * Second) ;;
      count <- countSunshineProcesses ;;
      if count =? 0
      then ret (Some "sunshine failed to start")
      else Println "Sunshine restart complete" ;; ret None
  end.

Definition waitForServiceActive (serviceName : string) (timeoutSeconds : Z)
  : M (option error) :=
  Println ("Waiting up to " +++ Itoa timeoutSeconds +++ " seconds for "
           +++ serviceName +++ " to be active...") ;;
  pollServiceActive serviceName (Z.to_nat timeoutSeconds).

Definition restartSunshine : M (option error) :=
  Println "=== Starting Sunshine restart sequence ===" ;;
  available <- systemdAvailable ;;
  if available
  then
    Println "Using systemctl restart sunshine..." ;;
    err <- Run ["systemctl"; "--user"; "restart"; "sunshine"] ;;
    match err with
    | Some e =>
        Println ("systemctl restart failed, falling back to manual restart: "
                 +++ e) ;;
        restartSunshineManual
    | None =>
        Println "systemctl restart completed" ;;
        err <- waitForServiceActive "sunshine" 30 ;;
        match err with
        | Some e => ret (Some ("sunshine service did not become active: " +++ e))
        | None =>
            Println "Clearing sunshine logs..." ;;
            err <- Truncate (SunshineLogPath c) ;;
            match err with
            | Some e => Println ("Warning: could not truncate log: " +++ e)
            | None => ret tt
            end ;;
            ret None
        end
    end
  else restartSunshineManual.

End Program.
End SystemdPreferred.

(** ** The original program (second file of the earlier sources)

    Its [parseSunshineTimestamp] and [resetMonitorTracking] are those of
    [main.go]; its scanners keep the default buffer cap and its scans hand
    every scanner error back to the caller. *)
Module Original.
Section Program.

Context {lib : GoLib}.
Variable c : config.

Definition isMonitorSleeping : M (bool * option error) :=
  Println "Checking if monitor is sleeping" ;;
  logInfo <- Stat (SunshineLogPath c) ;;
  match logInfo with
  | Err e => ret (false, Some e)
  | Ok size =>
      last <- getv lastLogSize ;;
      (if size <? last
       then Println "Sunshine log appears to have rotated; resetting tracking state" ;;
            resetMonitorTracking
       else ret tt) ;;
      setv (set_lastLogSize size) ;;
      logFile <- Open (SunshineLogPath c) ;;
      match logFile with
      | Err e => ret (false, Some e)
      | Ok f =>
          let '(lines, scanErr) := Scanner MaxScanTokenSize f in
          latestOccurrence <- latestMatching (monitorMatches c) lines zeroTime ;;
          match scanErr with
          | Some e => ret (false, Some e)
          | None =>
              if IsZero latestOccurrence
              then Println "Monitor is not sleeping" ;; ret (false, None)
              else
                handled <- getv lastMonitorMissingTime ;;
                if IsZero handled || After latestOccurrence handled
                then setv (set_lastMonitorMissingTime latestOccurrence) ;;
                     Println ("Monitor sleep detected at "
                              +++ Format latestOccurrence RFC3339Nano) ;;
                     ret (true, None)
                else Println ("Monitor sleep already handled at "
                              +++ Format handled RFC3339Nano) ;;
                     ret (false, None)
          end
      end
  end.

Definition isEncoderFailed : M (bool * option error) :=
  Println "Checking for encoder failures" ;;
  logInfo <- Stat (SunshineLogPath c) ;;
  match logInfo with
  | Err e => ret (false, Some e)
  | Ok size =>
      setv (set_lastLogSize size) ;;
      logFile <- Open (SunshineLogPath c) ;;
      match logFile with
      | Err e => ret (false, Some e)
      | Ok f =>
          let '(lines, scanErr) := Scanner MaxScanTokenSize f in
          latestOccurrence <-
            latestMatching (fun line => Contains line (EncoderFailedLogLine c))
                           lines zeroTime ;;
          match scanErr with
          | Some e => ret (false, Some e)
          | None =>
              if IsZero latestOccurrence
              then Println "No encoder failures detected" ;; ret (false, None)
              else
                handled <- getv lastEncoderFailureTime ;;
                if IsZero handled || After latestOccurrence handled
                then setv (set_lastEncoderFailureTime latestOccurrence) ;;
                     Println ("Encoder failure detected at "
                              +++ Format latestOccurrence RFC3339Nano) ;;
                     ret (true, None)
                else Println ("Encoder failure already handled at "
                              +++ Format handled RFC3339Nano) ;;
                     ret (false, None)
          end
      end
  end.

Definition wakeMonitor : M (option error) :=
  let wakeMonitorCommandAndArgs := Split (WakeMonitorCommand c) " " in
  shown <- CmdString wakeMonitorCommandAndArgs ;;
  Println ("Running wakeMonitor command: " +++ shown) ;;
  err <- Run wakeMonitorCommandAndArgs ;;
  match err with
  | Some e => ret (Some e)
  | None => Println "wakeMonitor command completed without errors" ;; ret None
  end.

Definition waitForMonitor : M unit :=
  Println ("Waiting " +++ Itoa (WakeMonitorSleepSeconds c)
           +++ " seconds for monitor to come up") ;;
  Sleep (int64 (WakeMonitorSleepSeconds c * Second)).

Definition stopSunshine : M unit :=
  let stopSunshineCommandAndArgs := Split (StopSunshineCommand c) " " in
  shown <- CmdString stopSunshineCommandAndArgs ;;
  Println ("Running stopSunshine command: " +++ shown) ;;
  err <- Run stopSunshineCommandAndArgs ;;
  match err with
  | Some e => Println ("stopSunshine encountered an error - ignoring: " +++ e)
  | None => ret tt
  end ;;
  Println "stopSunshine command completed without errors".

Definition startSunshine : M (option error) :=
  let startSunshineCommandAndArgs := Split (StartSunshineCommand c) " " in
  shown <- CmdString startSunshineCommandAndArgs ;;
  Println ("Running startSunshine command: " +++ shown) ;;
  err <- Start startSunshineCommandAndArgs ;;
  match err with
  | Some e => ret (Some e)
  | None => Println "startSunshine command completed without errors" ;; ret None
  end.

Definition restartSunshine : M (option error) :=
  stopSunshine ;;
  startSunshine.

(** The body of the [for] loop of [main]; [log.Fatal] prints and leaves
    the process. *)
Definition periodicCheck : M Flow :=
  '(monitorSleep, err) <- isMonitorSleeping ;;
  match err with
  | Some e => Println ("Unable to read log file:" +++ e) ;; ret Exit
  | None =>
      if monitorSleep
      then
        Println "Monitor sleep detected - waking monitor only" ;;
        err <- wakeMonitor ;;
        match err with
        | Some e => Println ("Could not wake monitor: " +++ e)
        | None => ret tt
        end ;;
        waitForMonitor ;;
        ret NextIteration
      else if RestartOnEncoderFailure c
      then
        '(encoderFailed, err) <- isEncoderFailed ;;
        match err with
        | Some e => Println ("Unable to read log file:" +++ e) ;; ret Exit
        | None =>
            if encoderFailed
            then
              Println "Encoder failure detected - restarting sunshine" ;;
              err <- restartSunshine ;;
              match err with
              | Some e => Println ("Could not restart sunshine: " +++ e)
              | None => ret tt
              end ;;
              waitForMonitor ;;
              ret NextIteration
            else ret NextIteration
        end
      else ret NextIteration
  end.

End Program.
End Original.

(** ** A reading of the library functions, to run the program on examples

    [time.Local] is taken to be UTC, white space to be the ASCII white
    space, years to have four digits, and the text of parse errors is
    abridged. *)
Module Reading.

Definition digit (a : ascii) : Z := Z.of_nat (nat_of_ascii a) - 48.

(** [getnum]: one or two digits, two when [fixed]. *)
Definition getnum (s : string) (fixed : bool) : option (Z * string) :=
  match s with
  | String a (String b rest) =>
      if isDigit a
      then if isDigit b then Some (10 * digit a + digit b, rest)
           else if fixed then None else Some (digit a, String b rest)
      else None
  | String a EmptyString =>
      if isDigit a && negb fixed then Some (digit a, EmptyString) else None
  | EmptyString => None
  end.

Definition skipByte (a : ascii) (s : string) : option string :=
  match s with
  | String b rest => if Ascii.eqb a b then Some rest else None
  | EmptyString => None
  end.

Fixpoint cutspace (s : string) : string :=
  match s with
  | String " " rest => cutspace rest
  | _ => s
  end.

(** A space of the layout stands for any run of spaces of the value. *)
Definition skipSpaces (s : string) : option string :=
  match s with
  | String " " _ => Some (cutspace s)
  | EmptyString => Some s
  | _ => None
  end.

Definition isLeap (year : Z) : bool :=
  (year mod 4 =? 0) && (negb (year mod 100 =? 0) || (year mod 400 =? 0)).

Definition daysIn (month year : Z) : Z :=
  if month =? 2 then (if isLeap year then 29 else 28)
  else if (month =? 4) || (month =? 6) || (month =? 9) || (month =? 11)
       then 30 else 31.

(** Days from 0001-01-01 to the given date of the proleptic Gregorian
    calendar. *)
Definition daysSinceZero (year month day : Z) : Z :=
  let y := if month <=? 2 then year - 1 else year in
  let era := y / 400 in
  let yoe := y - era * 400 in
  let mp := if 2 <? month then month - 3 else month + 9 in
  let doy := (153 * mp + 2) / 5 + day - 1 in
  let doe := yoe * 365 + yoe / 4 - yoe / 100 + doy in
  era * 146097 + doe - 306.

Definition Date (year month day hour min sec nsec : Z) : Time :=
  ((daysSinceZero year month day * 24 + hour) * 60 + min) * 60 * Second
  + sec * Second + nsec.

(** The three bytes after the decimal mark, read by [atoi]: three digits,
    or a sign and two digits. *)
Definition fraction (s : string) : option Z :=
  match s with
  | String "+" ds => digitsValue ds 0
  | String "-" ds => match digitsValue ds 0 with
                     | Some 0 => Some 0
                     | _ => None
                     end
  | _ => digitsValue s 0
  end.

Definition bind_opt {A B : Type} (o : option A) (k : A -> option B) : option B :=
  match o with
  | Some a => k a
  | None => None
  end.

(** [time.ParseInLocation] for the layout [2006-01-02 15:04:05.000]. *)
Definition parseStamp (value : string) : option Time :=
  match digitsValue (String.substring 0 4 value) 0 with
  | None => None
  | Some year =>
      if negb (String.length value <? 4)%nat then
        bind_opt (skipByte "-" (String.substring 4 (String.length value - 4) value))
        (fun v => bind_opt (getnum v true)
        (fun '(month, v) => bind_opt (skipByte "-" v)
        (fun v => bind_opt (getnum v true)
        (fun '(day, v) => bind_opt (skipSpaces v)
        (fun v => bind_opt (getnum v false)
        (fun '(hour, v) => bind_opt (skipByte ":" v)
        (fun v => bind_opt (getnum v true)
        (fun '(min, v) => bind_opt (skipByte ":" v)
        (fun v => bind_opt (getnum v true)
        (fun '(sec, v) =>
           match v with
           | String mark frac =>
               if (Ascii.eqb mark "." || Ascii.eqb mark ",")
                  && (String.length frac =? 3)%nat
               then bind_opt (fraction frac)
                    (fun ms =>
                       if (1 <=? month) && (month <=? 12) && (hour <? 24)
                          && (min <? 60) && (sec <? 60)
                          && (1 <=? day) && (day <=? daysIn month year)
                       then Some (Date year month day hour min sec
                                       (ms * Millisecond))
                       else None)
               else None
           | EmptyString => None
           end))))))))))
      else None
  end.

Definition pad (width : nat) (n : Z) : string :=
  let digits := Itoa n in
  String.concat "" (repeat "0" (width - String.length digits)) +++ digits.

Fixpoint trimZeros (fuel : nat) (n : Z) : Z :=
  match fuel with
  | O => n
  | S fuel' => if n mod 10 =? 0 then trimZeros fuel' (n / 10) else n
  end.

Fixpoint trimRightZeros (s : string) : string :=
  match s with
  | EmptyString => EmptyString
  | String a rest =>
      match trimRightZeros rest with
      | EmptyString => if Ascii.eqb a "0" then EmptyString else String a EmptyString
      | rest' => String a rest'
      end
  end.

(** [t.Format(time.RFC3339Nano)] in UTC, for years 0000 to 9999. *)
Definition formatRFC3339Nano (t : Time) : string :=
  let days := t / (86400 * Second) in
  let inDay := t mod (86400 * Second) in
  let z := days + 306 in
  let era := z / 146097 in
  let doe := z - era * 146097 in
  let yoe := (doe - doe / 1460 + doe / 36524 - doe / 146096) / 365 in
  let doy := doe - (365 * yoe + yoe / 4 - yoe / 100) in
  let mp := (5 * doy + 2) / 153 in
  let day := doy - (153 * mp + 2) / 5 + 1 in
  let month := if mp <? 10 then mp + 3 else mp - 9 in
  let year := yoe + era * 400 + (if month <=? 2 then 1 else 0) in
  let nsec := inDay mod Second in
  let secs := inDay / Second in
  pad 4 year +++ "-" +++ pad 2 month +++ "-" +++ pad 2 day +++ "T"
  +++ pad 2 (secs / 3600) +++ ":" +++ pad 2 (secs / 60 mod 60) +++ ":"
  +++ pad 2 (secs mod 60)
  +++ (if nsec =? 0 then "" else "." +++ trimRightZeros (pad 9 nsec))
  +++ "Z".

Definition isSpace (a : ascii) : bool :=
  let n := nat_of_ascii a in
  ((9 <=? n)%nat && (n <=? 13)%nat) || (n =? 32)%nat.

(** [strings.Fields]: the maximal runs of bytes that are not white space. *)
Fixpoint fields (s : string) (word : string) : list string :=
  match s with
  | EmptyString => match word with EmptyString => [] | _ => [word] end
  | String a rest =>
      if isSpace a
      then match word with
           | EmptyString => fields rest EmptyString
           | _ => word :: fields rest EmptyString
           end
      else fields rest (word +++ String a EmptyString)
  end.

Fixpoint trimLeft (s : string) : string :=
  match s with
  | String a rest => if isSpace a then trimLeft rest else s
  | EmptyString => EmptyString
  end.

Fixpoint trimRight (s : string) : string :=
  match s with
  | EmptyString => EmptyString
  | String a rest =>
      match trimRight rest with
      | EmptyString => if isSpace a then EmptyString else String a EmptyString
      | rest' => String a rest'
      end
  end.

#[export] Instance lib : GoLib := {
  ParseInLocation := fun layout value =>
    match parseStamp value with
    | Some t => Ok t
    | None => Err ("parsing time " +++ value +++ ": cannot parse as " +++ layout)
    end;
  Format := fun t layout => formatRFC3339Nano t;
  Fields := fun s => fields s EmptyString;
  TrimSpace := fun s => trimRight (trimLeft s)
}.

(** The surroundings in which every command succeeds, every file
    operation goes through, [/proc] is empty and the clock stands at [now]. *)
Definition quietEnv (now : Time) : Env :=
  {| run_result := fun _ _ => None;
     run_stdout := fun _ _ => "";
     cmd_string := fun argv => Join argv " ";
     start_result := fun _ _ => None;
     read_dir := fun _ _ => Ok [];
     read_file := fun _ path => Err (ENOENT "open" path);
     wall_clock := fun _ => now;
     stat_fault := fun _ _ => None;
     open_fault := fun _ _ => None;
     read_fault := fun _ _ => None;
     truncate_fault := fun _ _ => None |}.

Definition logPath : string := "/home/user/.config/sunshine/sunshine.log".

Definition cfg : config :=
  {| SunriseCheckSeconds := 10;
     SunshineLogPath := logPath;
     MonitorIsOffLogLine := "Error: Couldn't find monitor";
     EncoderFailedLogLine := "Fatal: Unable to find display or encoder during startup.";
     EncoderFailedLogLine2 := "Error: Video failed to find working encoder";
     WakeMonitorSleepSeconds := 5;
     StopSunshineCommand := "killall sunshine";
     StartSunshineCommand := "sunshine";
     WakeMonitorCommand := "ydotool mousemove 1 1";
     EnableSunshineRestart := true;
     RestartOnEncoderFailure := true |}.

(** A world whose only file is the log, holding [content]. *)
Definition worldWith (e : Env) (content : option string) : World :=
  {| files := fun p => if String.eqb p logPath then content else None;
     env := e; trace := []; logged := [] |}.

Definition start (g : Globals) (e : Env) (content : option string) : State :=
  {| vars := g; world := worldWith e content |}.

Definition line (l : string) : string := l +++ String LF EmptyString.

Fixpoint repeatByte (n : nat) (a : ascii) : string :=
  match n with
  | O => EmptyString
  | S n' => String a (repeatByte n' a)
  end.

(** One line of 2,000,000 bytes with no terminator. *)
Definition garbled : string := repeatByte (Z.to_nat 2000000) "x".

Definition tenOClock : Time := 63871322400000000000.

Definition monitorLog : string :=
  line "[2025-01-01 10:00:00.000] Error: Couldn't find monitor".

(** A log begun anew that holds one encoder failure, stamped an hour
    before the occurrence already handled. *)
Definition rotatedLog : string :=
  line "[2025-01-01 09:00:00.000] Fatal: Unable to find display or encoder during startup.".

(** A line that has nothing to do with the encoder. *)
Definition chatterLog : string :=
  line "[2025-01-01 10:00:00.000] Info: Client connected".

(** The variables after occurrences of both categories at ten o'clock
    were handled in a log of 100000 bytes. *)
Definition handledAtTen : Globals :=
  {| lastLogSize := 100000;
     lastMonitorMissingTime := tenOClock;
     lastEncoderFailureTime := tenOClock;
     lastMainLoopTime := zeroTime;
     lastWakeTime := zeroTime;
     lastLogPosition := 0;
     inWakeCycle := false |}.

Definition onlyFirstPattern : config :=
  {| SunriseCheckSeconds := 10;
     SunshineLogPath := logPath;
     MonitorIsOffLogLine := "Error: Couldn't find monitor";
     EncoderFailedLogLine := "Fatal: Unable to find display or encoder during startup.";
     EncoderFailedLogLine2 := "";
     WakeMonitorSleepSeconds := 5;
     StopSunshineCommand := "killall sunshine";
     StartSunshineCommand := "sunshine";
     WakeMonitorCommand := "ydotool mousemove 1 1";
     EnableSunshineRestart := true;
     RestartOnEncoderFailure := true |}.

(** Surroundings with two sunshine processes, 4242 and 4243, that no
    signal removes; signalling 4243 fails; the service reports active
    from the third poll on. *)
Definition stubbornEnv : Env :=
  {| run_result := fun t argv =>
       match argv with
       | ["kill"; _; "4243"] => Some "exit status 1"
       | ["systemctl"; "--user"; "is-active"; _] =>
           if (t <? 4)%nat then Some "exit status 3" else None
       | _ => None
       end;
     run_stdout := fun _ _ => "offline";
     cmd_string := fun argv => Join argv " ";
     start_result := fun _ _ => None;
     read_dir := fun _ _ =>
       Ok [ {| Name := "1"; IsDir := true |};
            {| Name := "4242"; IsDir := true |};
            {| Name := "4243"; IsDir := true |};
            {| Name := "cpuinfo"; IsDir := false |};
            {| Name := "self"; IsDir := true |} ];
     read_file := fun _ path =>
       if String.eqb path "/proc/1/comm" then Ok (line "systemd")
       else Ok (line "sunshine");
     wall_clock := fun _ => tenOClock;
     stat_fault := fun _ _ => None;
     open_fault := fun _ _ => None;
     read_fault := fun _ _ => None;
     truncate_fault := fun _ _ => None |}.

Definition nineOClock : Time := 63871318800000000000.

(** Sunshine got ready at nine and again at ten. *)
Definition readyLog : string :=
  line "[2025-01-01 09:00:00.000] Info: Starting main loop"
  +++ line "[2025-01-01 10:00:00.000] Info: Starting main loop".

(** A monitor error that lost its timestamp. *)
Definition unstampedLog : string := line "Error: Couldn't find monitor".

End Reading.

(** ** Vocabulary of the properties *)

(** The state with [msgs] printed and nothing else changed. *)
Definition addLogs (msgs : list string) (s : State) : State :=
  {| vars := vars s;
     world := {| files := files (world s); env := env (world s);
                 trace := trace (world s);
                 logged := logged (world s) ++ msgs |} |}.

(** [s'] is reached from [s] by calls and prints that leave the files,
    the dedup variables and the surroundings alone. *)
Definition keepsDedup (s s' : State) : Prop :=
  lastLogSize (vars s') = lastLogSize (vars s) /\
  lastMonitorMissingTime (vars s') = lastMonitorMissingTime (vars s) /\
  lastEncoderFailureTime (vars s') = lastEncoderFailureTime (vars s) /\
  files (world s') = files (world s) /\
  env (world s') = env (world s) /\
  exists calls, trace (world s') = trace (world s) ++ calls.

Inductive Category : Type :=
| MonitorSleep
| EncoderFailure.

Definition lastHandled (cat : Category) (g : Globals) : Time :=
  match cat with
  | MonitorSleep => lastMonitorMissingTime g
  | EncoderFailure => lastEncoderFailureTime g
  end.

(** [s'] is reached from [s] by calls and prints, in the same
    surroundings. *)
Definition onward (s s' : State) : Prop :=
  env (world s') = env (world s) /\
  (exists calls, trace (world s') = trace (world s) ++ calls) /\
  (exists msgs, logged (world s') = logged (world s) ++ msgs).

(** Whatever state [m] is run in, it goes onward from it. *)
Definition runsOnward {A : Type} (m : M A) : Prop :=
  forall s, onward s (snd (m s)).

(** [ev] reads the process table. *)
Definition enumerates (ev : Event) : bool :=
  match ev with
  | EvReadDir _ _ | EvReadFile _ _ => true
  | _ => false
  end.

Definition restartArgv : list string :=
  ["systemctl"; "--user"; "restart"; "sunshine"].

Definition isActiveArgv (serviceName : string) : list string :=
  ["systemctl"; "--user"; "is-active"; serviceName].

Definition set_lastHandled (cat : Category) (t : Time) (g : Globals) : Globals :=
  match cat with
  | MonitorSleep => set_lastMonitorMissingTime t g
  | EncoderFailure => set_lastEncoderFailureTime t g
  end.

(** The variables once a scan has compared the size it is given with the
    one recorded: both timestamps dropped when the log has shrunk. *)
Definition rotated (size : Z) (g : Globals) : Globals :=
  if size <? lastLogSize g
  then set_lastEncoderFailureTime zeroTime (set_lastMonitorMissingTime zeroTime g)
  else g.

(** The variables with which a scan given [size] evaluates its matches. *)
Definition evaluated (cat : Category) (size : Z) (g : Globals) : Globals :=
  set_lastLogSize size
    match cat with
    | MonitorSleep => rotated size g
    | EncoderFailure => g
    end.

(** The test at the end of a scan: [latest] is an occurrence not handled
    yet. *)
Definition fresh (cat : Category) (latest : Time) (g : Globals) : bool :=
  negb (IsZero latest)
  && (IsZero (lastHandled cat g) || After latest (lastHandled cat g)).

Definition handle (cat : Category) (latest : Time) (g : Globals) : Globals :=
  if fresh cat latest g then set_lastHandled cat latest g else g.

(** [s'] is reached from [s] by the calls [calls], with the variables [g],
    the files and the surroundings as they were. *)
Definition reached (s s' : State) (g : Globals) (calls : list Event) : Prop :=
  vars s' = g /\
  files (world s') = files (world s) /\
  env (world s') = env (world s) /\
  trace (world s') = trace (world s) ++ calls.

Section Vocabulary.

Context {lib : GoLib}.
Variable c : config.

(** The value of [latestOccurrence] when the scan loop ends. *)
Fixpoint latestOf (matches : string -> bool) (lines : list string)
  (latestOccurrence : Time) : Time :=
  match lines with
  | [] => latestOccurrence
  | line :: rest =>
      if matches line
      then match parseSunshineTimestamp line with
           | Ok entryTime =>
               latestOf matches rest
                 (if After entryTime latestOccurrence
                  then entryTime else latestOccurrence)
           | Err _ => latestOf matches rest latestOccurrence
           end
      else latestOf matches rest latestOccurrence
  end.

(** What the scan loop prints. *)
Fixpoint complaints (matches : string -> bool) (lines : list string)
  : list string :=
  match lines with
  | [] => []
  | line :: rest =>
      if matches line
      then match parseSunshineTimestamp line with
           | Ok _ => complaints matches rest
           | Err e => ("Unable to parse timestamp: " +++ e)
                      :: complaints matches rest
           end
      else complaints matches rest
  end.

Definition matcher (cat : Category) : string -> bool :=
  match cat with
  | MonitorSleep => monitorMatches c
  | EncoderFailure => encoderMatches c
  end.

Definition classify (cat : Category) : M (bool * option error) :=
  match cat with
  | MonitorSleep => isMonitorSleeping c
  | EncoderFailure => isEncoderFailed c
  end.

(** What a scan started in [s] is given: the size [os.Stat] reports and
    the file [os.Open] hands over. *)
Definition scanInput (s : State) : result (Z * File) :=
  let w := world s in
  match statAnswer (SunshineLogPath c) (env w) (files w) (tick w) with
  | Err e => Err e
  | Ok size =>
      match openAnswer (SunshineLogPath c) (env w) (files w) (S (tick w)) with
      | Err e => Err e
      | Ok f => Ok (size, f)
      end
  end.

(** The lines a scan reads from a log holding [data], when it reads it
    to its end. *)
Definition linesOf (data : string) : list string :=
  fst (Scanner (1024 * 1024) {| delivered := data; readErr := None |}).

(** The scan started in [s] takes the log to have rotated. *)
Definition rotationSeen (cat : Category) (s : State) : bool :=
  let w := world s in
  match cat, statAnswer (SunshineLogPath c) (env w) (files w) (tick w) with
  | MonitorSleep, Ok size => size <? lastLogSize (vars s)
  | _, _ => false
  end.

(** A sequence of scans: each runs in the world it finds, with the
    variables the scan before it left.  The result lists the variables
    after each scan. *)
Fixpoint scans (steps : list (Category * World)) (g : Globals) : list Globals :=
  match steps with
  | [] => []
  | (cat, w) :: rest =>
      let g' := vars (snd (classify cat {| vars := g; world := w |})) in
      g' :: scans rest g'
  end.

(** The scan started in [s] is handed a log smaller than the size
    recorded. *)
Definition logShrunk (s : State) : bool :=
  let w := world s in
  match statAnswer (SunshineLogPath c) (env w) (files w) (tick w) with
  | Ok size => size <? lastLogSize (vars s)
  | Err _ => false
  end.

(** No scan of the sequence is handed a log smaller than the size
    recorded by the scan before it. *)
Fixpoint noShrinkSeen (steps : list (Category * World)) (g : Globals) : bool :=
  match steps with
  | [] => true
  | (cat, w) :: rest =>
      let s := {| vars := g; world := w |} in
      negb (logShrunk s) && noShrinkSeen rest (vars (snd (classify cat s)))
  end.

(** The answer of the [i]-th poll of [waitForServiceActive] started in
    [s], the polls before it having failed: each failed poll is one
    command and one sleep. *)
Definition pollAnswer (serviceName : string) (s : State) (i : nat)
  : option error :=
  run_result (env (world s)) (tick (world s) + 2 * i)
    ["systemctl"; "--user"; "is-active"; serviceName].

(** The calls of [k] failed polls. *)
Fixpoint failedPolls (serviceName : string) (s : State) (from k : nat)
  : list Event :=
  match k with
  | O => []
  | S k' =>
      EvRun ["systemctl"; "--user"; "is-active"; serviceName]
            (pollAnswer serviceName s from)
      :: EvSleep (1 * Second)
      :: failedPolls serviceName s (S from) k'
  end.

Definition signalArgv (signal pid : Z) : list string :=
  ["kill"; "-" +++ Itoa signal; Itoa pid].

(** [ev] is signal [signal] sent to [pid]. *)
Definition isSignal (signal : Z) (ev : Event) (pid : Z) : Prop :=
  exists r, ev = EvRun (signalArgv signal pid) r.

End Vocabulary.

(** ** Vocabulary of the further properties *)

(** Whatever state [m] is run in, the calls it makes all satisfy [P] and
    the lines it prints all satisfy [Q]. *)
Definition emits {A : Type} (P : Event -> Prop) (Q : string -> Prop) (m : M A)
  : Prop :=
  forall s, exists calls msgs,
    trace (world (snd (m s))) = trace (world s) ++ calls /\
    logged (world (snd (m s))) = logged (world s) ++ msgs /\
    Forall P calls /\ Forall Q msgs.

(** [m] leaves what [f] reads of the variables as it finds it. *)
Definition keeps {A B : Type} (f : Globals -> B) (m : M A) : Prop :=
  forall s, f (vars (snd (m s))) = f (vars s).

Definition anyCall : Event -> Prop := fun _ => True.
Definition anyLine : string -> Prop := fun _ => True.

(** [ev] runs a command or sleeps. *)
Definition runOrSleep (ev : Event) : Prop :=
  match ev with
  | EvRun _ _ | EvSleep _ => True
  | _ => False
  end.

(** What the wake loop prints when it takes sunshine to have crashed
    during a wake cycle. *)
Definition crashMessage : string :=
  "Sunshine crashed during wake cycle - restarting...".

Definition quiet (msg : string) : Prop := msg <> crashMessage.

(** The state [s'] has the flag down and has printed, since [s0], no
    crash message. *)
Definition flagDownAndQuiet (s0 s' : State) : Prop :=
  inWakeCycle (vars s') = false /\
  exists msgs,
    logged (world s') = logged (world s0) ++ msgs /\ ~ In crashMessage msgs.

(** Whatever state [m] is run in, the last thing it does is sleep, for
    the half second taken after log activity or for [checkSeconds]. *)
Definition pauses {A : Type} (checkSeconds : Z) (m : M A) : Prop :=
  forall s, exists calls d,
    trace (world (snd (m s))) = trace (world s) ++ calls ++ [EvSleep d] /\
    (d = 500 * Millisecond \/ d = int64 (checkSeconds * Second)).

(** [ev] looks at a file without changing it. *)
Definition statOrOpen (ev : Event) : Prop :=
  match ev with
  | EvStat _ _ | EvOpen _ _ => True
  | _ => False
  end.

(** The variables of the wake loop. *)
Definition wakeState (g : Globals) : Time * Time * Z * bool :=
  (lastMainLoopTime g, lastWakeTime g, lastLogPosition g, inWakeCycle g).

(** The file [getSunshinePIDs] reads the name of process [pid] from. *)
Definition commPath (pid : Z) : string := "/proc/" +++ Itoa pid +++ "/comm".

(** [ev] reads a file. *)
Definition readsFile (ev : Event) : Prop :=
  match ev with
  | EvReadFile _ _ => True
  | _ => False
  end.

(** The probe of [systemdAvailable] and what it makes of the answer. *)
Definition systemdProbe : list string :=
  ["systemctl"; "--user"; "is-system-running"].

Definition systemdUp {lib : GoLib} (stdout : string) : bool :=
  let status := TrimSpace stdout in
  String.eqb status "running" || String.eqb status "degraded".

Section MoreVocabulary.
Context {lib : GoLib}.

(** [m] goes through systemd when it can: when the user session is up and
    [systemctl --user verb sunshine] succeeds, that is all it does;
    otherwise it falls back on the [configured] command, launched as
    [record] records it with the answer [answer] gives, or returns
    [missing] when the configured text has no field. *)
Definition prefersSystemd (verb configured : string) (missing : error)
  (answer : Env -> nat -> list string -> option error)
  (record : list string -> option error -> Event)
  (m : M (option error)) (s : State) : Prop :=
  let w := world s in
  let out := run_stdout (env w) (tick w) systemdProbe in
  let probe := EvOutput systemdProbe out in
  let viaSystemd := ["systemctl"; "--user"; verb; "sunshine"] in
  let r := fst (m s) in
  let s' := snd (m s) in
  let fallback (t : nat) (before : list Event) :=
    match Fields configured with
    | [] => r = Some missing /\ trace (world s') = trace w ++ before
    | parts =>
        r = answer (env w) t parts /\
        trace (world s') = trace w ++ before ++ [record parts r]
    end in
  vars s' = vars s /\
  files (world s') = files w /\
  if systemdUp out
  then match run_result (env w) (S (tick w)) viaSystemd with
       | None => r = None /\ trace (world s') = trace w ++ [probe; EvRun viaSystemd None]
       | Some e => fallback (S (S (tick w))) [probe; EvRun viaSystemd (Some e)]
       end
  else fallback (S (tick w)) [probe].

End MoreVocabulary.

(** [ev] launches nothing and clears nothing. *)
Definition stopsOrKills (ev : Event) : Prop :=
  match ev with
  | EvStart _ _ | EvTruncate _ _ _ => False
  | _ => True
  end.

(** [ev] belongs to the start of sunshine and the count of its processes. *)
Definition startsOrCounts (ev : Event) : Prop :=
  match ev with
  | EvOutput argv _ => argv = systemdProbe
  | EvRun argv _ => argv = ["systemctl"; "--user"; "start"; "sunshine"]
  | EvStart _ _ | EvSleep _ | EvReadDir _ _ | EvReadFile _ _ => True
  | _ => False
  end.

(** Whatever state [m] is run in, the last call it makes truncates
    [path], and the calls before it satisfy [P]. *)
Definition clearsLast {A : Type} (path : string) (P : Event -> Prop) (m : M A)
  : Prop :=
  forall s, exists before t,
    trace (world (snd (m s))) = trace (world s) ++ before ++ [EvTruncate path 0 t] /\
    Forall P before.

Definition alternativesNote : string := "Trying alternative wake methods...".

Definition withoutAlternatives (msg : string) : Prop := msg <> alternativesNote.

(** Whatever state [m] is run in, [msg] is among the lines it prints. *)
Definition prints {A : Type} (msg : string) (m : M A) : Prop :=
  forall s, exists msgs,
    logged (world (snd (m s))) = logged (world s) ++ msgs /\ In msg msgs.

(** [m] leaves every file as it finds it. *)
Definition leavesFiles {A : Type} (m : M A) : Prop :=
  forall s, files (world (snd (m s))) = files (world s).

(** [ev] is a call of an encoder check: it looks at the log at [path] or
    empties it, restarts sunshine through systemd, asks systemd whether
    sunshine is active, or sleeps. *)
Definition checksOrRestarts (path : string) (ev : Event) : Prop :=
  match ev with
  | EvStat p _ | EvOpen p _ => p = path
  | EvTruncate p size _ => p = path /\ size = 0
  | EvRun argv _ => argv = restartArgv \/ argv = isActiveArgv "sunshine"
  | EvSleep _ => True
  | _ => False
  end.

(** [ev] is a call of a wake-on-connect round: it looks at the log at
    [path], reads the clock, sleeps, or runs one of the [wake] commands, the
    restart of sunshine through systemd or the question whether sunshine is
    active. *)
Definition wakesOrRestarts (path : string) (wake : list (list string))
  (ev : Event) : Prop :=
  match ev with
  | EvStat p _ | EvOpen p _ => p = path
  | EvRun argv _ =>
      argv = restartArgv \/ argv = isActiveArgv "sunshine" \/ In argv wake
  | EvSleep _ | EvNow _ => True
  | _ => False
  end.

(** The commands a wake cycle of [main.go] may run to wake the monitor. *)
Definition wakeCommands {lib : GoLib} (c : config) : list (list string) :=
  [Fields (WakeMonitorCommand c);
   ["ydotool"; "mousemove"; "--absolute"; "100"; "100"];
   ["ydotool"; "key"; "65"]].

(** ** States to run the program in *)
Module Scenario.
Import Reading.

(** The log holds one monitor error; nothing was handled yet. *)
Definition asleep : State :=
  start initialGlobals (quietEnv tenOClock) (Some monitorLog).

(** The log was begun anew after both categories were handled. *)
Definition afterRotation : State :=
  start handledAtTen (quietEnv tenOClock) (Some rotatedLog).

(** The log is one line of 2,000,000 bytes. *)
Definition corrupted : State :=
  start initialGlobals (quietEnv tenOClock) (Some garbled).

(** There is no log. *)
Definition missing : State :=
  start initialGlobals (quietEnv tenOClock) None.

Definition stubborn : State :=
  start initialGlobals stubbornEnv (Some monitorLog).

Definition chatter : State :=
  start initialGlobals (quietEnv tenOClock) (Some chatterLog).

(** The monitor error was handled; the log has since grown by a line
    that matches no pattern. *)
Definition asleepThenChatter : State :=
  {| vars := vars (snd (isMonitorSleeping cfg asleep));
     world := worldWith (quietEnv tenOClock) (Some (monitorLog +++ chatterLog)) |}.

(** The log holds one monitor error and a line that matches no pattern;
    nothing was handled yet. *)
Definition asleepAmidChatter : State :=
  start initialGlobals (quietEnv tenOClock) (Some (monitorLog +++ chatterLog)).

(** The monitor error was handled; the log has since lost the line that
    matches no pattern. *)
Definition asleepAfterShrink : State :=
  {| vars := vars (snd (isMonitorSleeping cfg asleepAmidChatter));
     world := worldWith (quietEnv tenOClock) (Some monitorLog) |}.

(** Sunshine got ready twice. *)
Definition ready : State :=
  start initialGlobals (quietEnv tenOClock) (Some readyLog).

(** The log holds one monitor error without a timestamp. *)
Definition unstamped : State :=
  start initialGlobals (quietEnv tenOClock) (Some unstampedLog).

End Scenario.

(** ** Facts about the embedding *)

#[local] Arguments statAnswer : simpl never.
#[local] Arguments openAnswer : simpl never.
#[local] Arguments truncateAnswer : simpl never.
#[local] Arguments Scanner : simpl never.
#[local] Arguments Z.mul : simpl never.
#[local] Arguments String.append : simpl never.

Ltac unfold_os :=
  unfold Stat, Open, Truncate, Run, Output, Start, ReadDir, ReadFile,
         Now, Sleep, Since, syscall, unchanged, tick, Println, getv, setv,
         bind, ret in *.

Ltac state_simpl :=
  cbn [fst snd vars world env files trace logged addLogs
       lastLogSize lastMonitorMissingTime lastEncoderFailureTime lastMainLoopTime
       lastWakeTime lastLogPosition inWakeCycle
       set_lastLogSize set_lastMonitorMissingTime set_lastEncoderFailureTime
       set_lastMainLoopTime set_lastWakeTime set_lastLogPosition set_inWakeCycle] in *.

Ltac reached_now :=
  eexists; split; [reflexivity|];
  unfold reached; state_simpl; rewrite <- ?app_assoc; auto.

Lemma addLogs_nil (s : State) : addLogs [] s = s.
Proof.
  destruct s as [g [fs e tr lg]]. unfold addLogs. simpl.
  now rewrite app_nil_r.
Qed.

Lemma addLogs_addLogs (a b : list string) (s : State) :
  addLogs b (addLogs a s) = addLogs (a ++ b) s.
Proof.
  unfold addLogs. simpl. now rewrite app_assoc.
Qed.

Lemma Println_eq (msg : string) (s : State) :
  Println msg s = (tt, addLogs [msg] s).
Proof. reflexivity. Qed.

Section Facts.

Context {lib : GoLib}.
Variable c : config.

Lemma latestMatching_eq (matches : string -> bool) (lines : list string) :
  forall (t : Time) (s : State),
    latestMatching matches lines t s
    = (latestOf matches lines t, addLogs (complaints matches lines) s).
Proof.
  induction lines as [|line rest IH]; intros t s; simpl.
  - unfold ret. now rewrite addLogs_nil.
  - destruct (matches line); simpl.
    + destruct (parseSunshineTimestamp line) as [entryTime|e].
      * apply IH.
      * unfold bind. rewrite Println_eq, IH, addLogs_addLogs. reflexivity.
    + apply IH.
Qed.

Lemma latestOf_ge (matches : string -> bool) (lines : list string) :
  forall t : Time, t <= latestOf matches lines t.
Proof.
  induction lines as [|line rest IH]; intros t; simpl.
  - lia.
  - destruct (matches line); [destruct (parseSunshineTimestamp line) as [entryTime|e]|]; try apply IH.
    unfold After. destruct (t <? entryTime) eqn:E.
    + apply Z.ltb_lt in E. specialize (IH entryTime). lia.
    + apply IH.
Qed.

Lemma latestOf_mono (matches : string -> bool) (lines : list string) :
  forall t u : Time, t <= u -> latestOf matches lines t <= latestOf matches lines u.
Proof.
  induction lines as [|line rest IH]; intros t u Htu; simpl.
  - lia.
  - destruct (matches line);
      [destruct (parseSunshineTimestamp line) as [entryTime|e]|]; try now apply IH.
    apply IH. unfold After.
    destruct (t <? entryTime) eqn:E1; destruct (u <? entryTime) eqn:E2;
      try apply Z.ltb_lt in E1; try apply Z.ltb_lt in E2;
      try apply Z.ltb_ge in E1; try apply Z.ltb_ge in E2; lia.
Qed.

Lemma latestOf_bounds (matches : string -> bool) (lines : list string) :
  forall (t : Time) (line : string) (entryTime : Time),
    In line lines -> matches line = true ->
    parseSunshineTimestamp line = Ok entryTime ->
    entryTime <= latestOf matches lines t.
Proof.
  induction lines as [|l rest IH]; intros t line entryTime Hin Hm Hp; simpl.
  - destruct Hin.
  - destruct Hin as [->|Hin].
    + rewrite Hm, Hp. unfold After.
      destruct (t <? entryTime) eqn:E.
      * apply latestOf_ge.
      * apply Z.ltb_ge in E.
        pose proof (latestOf_ge matches rest t). lia.
    + destruct (matches l); [destruct (parseSunshineTimestamp l)|];
        eapply IH; eauto.
Qed.

Lemma reached_refl (s : State) : reached s s (vars s) [].
Proof. unfold reached. now rewrite app_nil_r. Qed.

Lemma reached_trans (s s1 s2 : State) (g1 g2 : Globals) (c1 c2 : list Event) :
  reached s s1 g1 c1 -> reached s1 s2 g2 c2 -> reached s s2 g2 (c1 ++ c2).
Proof.
  unfold reached. intros (_ & F1 & E1 & T1) (V2 & F2 & E2 & T2).
  repeat split; try congruence.
  rewrite T2, T1. now rewrite app_assoc.
Qed.

Lemma failedPolls_shift (serviceName : string) (s s1 : State) (k : nat) :
  env (world s1) = env (world s) ->
  tick (world s1) = (tick (world s) + 2)%nat ->
  forall from, failedPolls serviceName s1 from k = failedPolls serviceName s (S from) k.
Proof.
  intros He Ht. induction k as [|k IH]; intros from; simpl; [reflexivity|].
  rewrite IH. unfold pollAnswer. rewrite He, Ht.
  replace (tick (world s) + 2 + 2 * from)%nat
    with (tick (world s) + 2 * S from)%nat by lia.
  reflexivity.
Qed.

(** The loop of [waitForServiceActive]: it stops at the first poll that
    reports active, or after [n] failed polls. *)
Lemma pollServiceActive_spec (serviceName : string) (n : nat) :
  forall s : State,
    (exists k s',
        (k < n)%nat /\
        (forall j, (j < k)%nat -> pollAnswer serviceName s j <> None) /\
        pollAnswer serviceName s k = None /\
        pollServiceActive serviceName n s = (None, s') /\
        reached s s' (vars s)
          (failedPolls serviceName s 0 k
           ++ [EvRun ["systemctl"; "--user"; "is-active"; serviceName] None]) /\
        logged (world s')
        = logged (world s) ++ ["Service " +++ serviceName +++ " is active"])
    \/
    (exists s',
        (forall j, (j < n)%nat -> pollAnswer serviceName s j <> None) /\
        pollServiceActive serviceName n s
        = (Some ("timeout waiting for " +++ serviceName), s') /\
        reached s s' (vars s) (failedPolls serviceName s 0 n) /\
        logged (world s') = logged (world s)).
Proof.
  induction n as [|n IH]; intros s.
  - right. exists s. split; [intros j Hj; lia|].
    split; [reflexivity|]. split; [apply reached_refl|reflexivity].
  - cbn [pollServiceActive]. unfold_os. state_simpl.
    destruct (run_result (env (world s)) (Datatypes.length (trace (world s)))
                ["systemctl"; "--user"; "is-active"; serviceName]) as [e|] eqn:Hrun.
    + state_simpl.
      match goal with |- context [pollServiceActive serviceName n ?s1] =>
        set (s1' := s1) end.
      assert (He : env (world s1') = env (world s)) by reflexivity.
      assert (Ht : tick (world s1') = (tick (world s) + 2)%nat).
      { unfold tick. subst s1'. state_simpl. rewrite !last_length. lia. }
      assert (Hans : forall j, pollAnswer serviceName s1' j = pollAnswer serviceName s (S j)).
      { intros j. unfold pollAnswer. rewrite He, Ht.
        replace (tick (world s) + 2 + 2 * j)%nat
          with (tick (world s) + 2 * S j)%nat by lia.
        reflexivity. }
      assert (H0 : pollAnswer serviceName s 0%nat = Some e).
      { unfold pollAnswer, tick. rewrite Nat.add_0_r. exact Hrun. }
      assert (Hr : reached s s1' (vars s)
                      [EvRun ["systemctl"; "--user"; "is-active"; serviceName] (Some e);
                       EvSleep (1 * Second)]).
      { unfold reached. subst s1'. state_simpl. rewrite <- app_assoc. auto. }
      destruct (IH s1') as [(k & s' & Hk & Hbefore & Hat & Heq & Hreach & Hlog)
                           |(s' & Hall & Heq & Hreach & Hlog)].
      * left. exists (S k), s'. split; [lia|].
        split. { intros [|j] Hj; [rewrite H0; discriminate|]. rewrite <- Hans. apply Hbefore. lia. }
        split. { rewrite <- Hans. exact Hat. }
        split; [exact Heq|]. split; [|exact Hlog].
        cbn [failedPolls]. rewrite H0.
        rewrite (failedPolls_shift serviceName s s1' k He Ht) in Hreach.
        exact (reached_trans Hr Hreach).
      * right. exists s'.
        split. { intros [|j] Hj; [rewrite H0; discriminate|]. rewrite <- Hans. apply Hall. lia. }
        split; [exact Heq|]. split; [|exact Hlog].
        cbn [failedPolls]. rewrite H0.
        rewrite (failedPolls_shift serviceName s s1' n He Ht) in Hreach.
        exact (reached_trans Hr Hreach).
    + left. exists 0%nat. eexists. split; [lia|].
      split; [intros j Hj; lia|].
      split. { unfold pollAnswer, tick. rewrite Nat.add_0_r. exact Hrun. }
      split; [reflexivity|].
      split; [unfold reached; state_simpl; auto|reflexivity].
Qed.

Lemma classify_cases (cat : Category) (s : State) :
  let w := world s in
  let path := SunshineLogPath c in
  match statAnswer path (env w) (files w) (tick w) with
  | Err e =>
      exists s', classify c cat s = ((false, Some e), s') /\
                 reached s s' (vars s) [EvStat path (Err e)]
  | Ok size =>
      let g0 := set_lastLogSize size
                  match cat with
                  | MonitorSleep => rotated size (vars s)
                  | EncoderFailure => vars s
                  end in
      match openAnswer path (env w) (files w) (S (tick w)) with
      | Err e =>
          exists s', classify c cat s = ((false, Some e), s') /\
                     reached s s' g0 [EvStat path (Ok size); EvOpen path (Some e)]
      | Ok f =>
          let calls := [EvStat path (Ok size); EvOpen path None] in
          match snd (Scanner (1024 * 1024) f) with
          | None =>
              let latest := latestOf (matcher c cat) (fst (Scanner (1024 * 1024) f)) zeroTime in
              exists s', classify c cat s = ((fresh cat latest g0, None), s') /\
                         reached s s' (handle cat latest g0) calls
          | Some e =>
              if isBufferOverflow (Some e)
              then exists s_h,
                  classify c cat s
                  = (let '(err, s') := handleCorruptedLog c s_h in ((false, err), s')) /\
                  reached s s_h g0 calls
              else exists s', classify c cat s = ((false, Some e), s') /\
                              reached s s' g0 calls
          end
      end
  end.
Proof.
  intros w path. subst w path.
  destruct cat; unfold classify, matcher, isMonitorSleeping, isEncoderFailed, resetMonitorTracking, tick.
  - unfold_os; state_simpl.
    destruct (statAnswer _ _ _ _) as [size|e]; state_simpl; [|reached_now].
    unfold rotated.
    destruct (size <? lastLogSize (vars s)); state_simpl; rewrite last_length;
      (destruct (openAnswer _ _ _ _) as [f|e]; state_simpl; [|reached_now]);
      (destruct (Scanner (1024 * 1024) f) as [lines [e|]] eqn:Hscan; cbn [fst snd];
       rewrite latestMatching_eq; state_simpl;
       [ destruct (isBufferOverflow (Some e)); state_simpl; reached_now
       | unfold handle, fresh; cbn [lastHandled set_lastHandled]; state_simpl;
         destruct (IsZero (latestOf _ _ _)); cbn [negb andb]; state_simpl;
         [ reached_now
         | match goal with |- context [IsZero ?h || After ?l ?h] =>
             destruct (IsZero h || After l h) end; state_simpl; reached_now ] ]).
  - unfold_os; state_simpl.
    destruct (statAnswer _ _ _ _) as [size|e]; state_simpl; [|reached_now].
    rewrite last_length.
    destruct (openAnswer _ _ _ _) as [f|e]; state_simpl; [|reached_now].
    destruct (Scanner (1024 * 1024) f) as [lines [e|]] eqn:Hscan; cbn [fst snd];
      rewrite latestMatching_eq; state_simpl.
    + destruct (isBufferOverflow (Some e)); state_simpl; reached_now.
    + unfold handle, fresh; cbn [lastHandled set_lastHandled]; state_simpl.
      destruct (IsZero (latestOf _ _ _)); cbn [negb andb]; state_simpl.
      * reached_now.
      * match goal with |- context [IsZero ?h || After ?l ?h] =>
          destruct (IsZero h || After l h) end; state_simpl; reached_now.
Qed.

Lemma restartSunshineSystemctlOnly_spec (s : State) :
  let w := world s in
  let r0 := run_result (env w) (tick w) restartArgv in
  exists rest,
    keepsDedup s (snd (restartSunshineSystemctlOnly s)) /\
    trace (world (snd (restartSunshineSystemctlOnly s)))
    = trace w ++ EvRun restartArgv r0 :: rest /\
    (fst (restartSunshineSystemctlOnly s) = None <->
     r0 = None /\
     exists k, (k < 30)%nat /\
               run_result (env w) (tick w + 1 + 2 * k) (isActiveArgv "sunshine") = None).
Proof.
  intros w r0. subst w r0.
  unfold restartSunshineSystemctlOnly, waitForServiceActive, restartArgv.
  unfold_os. state_simpl.
  destruct (run_result (env (world s)) (Datatypes.length (trace (world s))) _) as [e|] eqn:Hrun;
    state_simpl.
  - exists []. split; [|split].
    + unfold keepsDedup; state_simpl. repeat split; eauto.
    + reflexivity.
    + split; [discriminate|intros [H _]; discriminate].
  - match goal with |- context [pollServiceActive "sunshine" ?n ?s1] =>
      change n with 30%nat; set (s1' := s1) end.
    assert (Hans : forall j, pollAnswer "sunshine" s1' j
                             = run_result (env (world s)) (Datatypes.length (trace (world s)) + 1 + 2 * j)
                                 (isActiveArgv "sunshine")).
    { intros j. unfold pollAnswer, tick. subst s1'. state_simpl. now rewrite last_length, <- Nat.add_1_r. }
    destruct (pollServiceActive_spec "sunshine" 30 s1')
      as [(k & s' & Hk & Hbefore & Hat & Heq & Hreach & Hlog)|(s' & Hall & Heq & Hreach & Hlog)];
      rewrite Heq; state_simpl; destruct Hreach as (Hv & Hf & He & Ht); subst s1'; state_simpl.
    + eexists. split; [|split].
      * unfold keepsDedup; state_simpl. rewrite Hv, Hf, He, Ht. repeat split; eauto.
        rewrite <- app_assoc. eauto.
      * rewrite Ht, <- app_assoc. reflexivity.
      * split; [intros _; split; [reflexivity|]|reflexivity].
        exists k. split; [exact Hk|]. now rewrite <- Hans.
    + eexists. split; [|split].
      * unfold keepsDedup; state_simpl. rewrite Hv, Hf, He, Ht. repeat split; eauto.
        rewrite <- app_assoc. eauto.
      * rewrite Ht, <- app_assoc. reflexivity.
      * split; [discriminate|]. intros [_ (k & Hk & Hnone)].
        exfalso. apply (Hall k Hk). now rewrite Hans.
Qed.

End Facts.

Section ScanFacts.
Context {lib : GoLib}.
Variable c : config.

Lemma scanTokens_too_long (maxTokenSize : Z) (pieces : list string) (piece : string) :
  In piece pieces -> maxTokenSize <= len piece ->
  snd (scanTokens maxTokenSize pieces) = Some ErrTooLong.
Proof.
  intros Hin Hlen. induction pieces as [|p rest IH]; [destruct Hin|].
  cbn [scanTokens].
  destruct (maxTokenSize <=? len p) eqn:Hp.
  - now destruct rest.
  - apply Z.leb_gt in Hp.
    destruct Hin as [->|Hin]; [lia|].
    specialize (IH Hin).
    destruct rest as [|q rest']; [destruct Hin|].
    destruct (scanTokens maxTokenSize (q :: rest')) as [tokens err].
    exact IH.
Qed.

Lemma Scanner_too_long (maxTokenSize : Z) (f : File) (line : string) :
  In line (rawLines (delivered f)) -> maxTokenSize <= len line ->
  snd (Scanner maxTokenSize f) = Some ErrTooLong.
Proof.
  intros Hin Hlen. unfold Scanner.
  pose proof (scanTokens_too_long _ _ Hin Hlen) as H.
  destruct (scanTokens maxTokenSize (rawLines (delivered f))) as [tokens err].
  cbn [snd] in *. now rewrite H.
Qed.

Lemma Scanner_clean (maxTokenSize : Z) (f : File) :
  snd (Scanner maxTokenSize f) = None -> readErr f = None.
Proof.
  unfold Scanner.
  destruct (scanTokens maxTokenSize (rawLines (delivered f))) as [tokens [e|]];
    cbn [snd]; [discriminate|auto].
Qed.

Lemma Scanner_nothing (maxTokenSize : Z) (f : File) :
  delivered f = "" -> fst (Scanner maxTokenSize f) = [].
Proof.
  intros H. unfold Scanner. rewrite H. cbn.
  now destruct (maxTokenSize <=? 0).
Qed.

(** What a scan is given comes from the file as it is when the scan
    starts. *)
Lemma scanInput_file (s : State) (size : Z) (f : File) :
  scanInput c s = Ok (size, f) ->
  statAnswer (SunshineLogPath c) (env (world s)) (files (world s)) (tick (world s)) = Ok size /\
  openAnswer (SunshineLogPath c) (env (world s)) (files (world s)) (S (tick (world s))) = Ok f /\
  exists data,
    files (world s) (SunshineLogPath c) = Some data /\
    size = len data /\
    (readErr f = None -> delivered f = data) /\
    (data = "" -> delivered f = "").
Proof.
  unfold scanInput.
  destruct (statAnswer _ _ _ _) as [size0|e] eqn:Hstat; [|discriminate].
  destruct (openAnswer _ _ _ _) as [f0|e] eqn:Hopen; [|discriminate].
  intros H. injection H as -> ->. split; [reflexivity|]. split; [reflexivity|].
  unfold statAnswer in Hstat. unfold openAnswer in Hopen.
  destruct (stat_fault _ _ _); [discriminate|].
  destruct (open_fault _ _ _); [discriminate|].
  destruct (files (world s) (SunshineLogPath c)) as [data|]; [|discriminate].
  exists data. injection Hstat as <-. injection Hopen as <-.
  split; [reflexivity|]. split; [reflexivity|].
  destruct (read_fault _ _ _) as [[n e]|]; cbn [readErr delivered].
  - split; [discriminate|]. intros ->. now destruct n.
  - auto.
Qed.

Lemma scanInput_error (s : State) (e : error) :
  scanInput c s = Err e ->
  forall cat, fst (classify c cat s) = (false, Some e).
Proof.
  intros H cat. pose proof (classify_cases c cat s) as Hc. cbv zeta in Hc.
  unfold scanInput in H.
  destruct (statAnswer _ _ _ _) as [size|e0].
  - destruct (openAnswer _ _ _ _) as [f|e1]; [discriminate|].
    injection H as ->. destruct Hc as (s' & -> & _). reflexivity.
  - injection H as ->. destruct Hc as (s' & -> & _). reflexivity.
Qed.

Lemma handleCorruptedLog_spec (s : State) :
  let w := world s in
  let path := SunshineLogPath c in
  match truncateAnswer path (env w) (files w) (tick w) with
  | Some e =>
      exists s', handleCorruptedLog c s = (Some e, s') /\
                 reached s s' (vars s) [EvTruncate path 0 (Some e)]
  | None =>
      exists s_t,
        handleCorruptedLog c s = restartSunshineSystemctlOnly s_t /\
        vars s_t = vars s /\
        env (world s_t) = env w /\
        files (world s_t) = emptied path None (files w) /\
        trace (world s_t) = trace w ++ [EvTruncate path 0 None]
  end.
Proof.
  intros w path. subst w path. unfold handleCorruptedLog. unfold_os. state_simpl.
  destruct (truncateAnswer _ _ _ _) as [e|]; state_simpl.
  - reached_now.
  - eexists. split; [reflexivity|]. state_simpl. auto.
Qed.

End ScanFacts.

Section CorruptionSection.
Context {lib : GoLib}.
Variable c : config.

(** C4.  Corruption handling.  When a scan is handed the log and some
    line of it is longer than 1 MiB, the scanner ends with [ErrTooLong],
    which [isBufferOverflow] recognises; the scan reports not triggered and
    truncates the log to zero bytes right after reading it.  If the
    truncation fails, its error is what the scan returns and nothing else
    is done; otherwise the log is empty, the next call is
    [systemctl --user restart sunshine], and the scan returns what the
    restart returns. *)
Theorem long_line_is_corruption (cat : Category) (s : State) (size : Z) (f : File) :
  scanInput c s = Ok (size, f) ->
  (exists line, In line (rawLines (delivered f)) /\ 1024 * 1024 < len line) ->
  let w := world s in
  let path := SunshineLogPath c in
  let r := fst (classify c cat s) in
  let s' := snd (classify c cat s) in
  let restarted := run_result (env w) (tick w + 3) restartArgv in
  snd (Scanner (1024 * 1024) f) = Some ErrTooLong /\
  isBufferOverflow (Some ErrTooLong) = true /\
  fst r = false /\
  match truncateAnswer path (env w) (files w) (tick w + 2) with
  | Some e =>
      snd r = Some e /\
      files (world s') = files w /\
      trace (world s')
      = trace w ++ [EvStat path (Ok size); EvOpen path None;
                    EvTruncate path 0 (Some e)]
  | None =>
      files (world s') path = Some "" /\
      (exists rest,
          trace (world s')
          = trace w ++ [EvStat path (Ok size); EvOpen path None;
                        EvTruncate path 0 None; EvRun restartArgv restarted]
                    ++ rest) /\
      (snd r = None <->
       restarted = None /\
       exists k, (k < 30)%nat /\
                 run_result (env w) (tick w + 4 + 2 * k) (isActiveArgv "sunshine") = None)
  end.
Proof.
  intros Hin (line & Hline & Hlong) w path r s' restarted.
  subst w path restarted. unfold tick in *.
  assert (Hscan : snd (Scanner (1024 * 1024) f) = Some ErrTooLong)
    by (apply Scanner_too_long with line; [exact Hline|lia]).
  split; [exact Hscan|]. split; [reflexivity|].
  destruct (scanInput_file c s Hin) as (Hstat & Hopen & _).
  pose proof (classify_cases c cat s) as Hc. cbv zeta in Hc.
  rewrite Hstat, Hopen, Hscan in Hc.
  change (isBufferOverflow (Some ErrTooLong)) with true in Hc.
  destruct Hc as (s_h & Heq & Hv & Hf & He & Ht).
  pose proof (handleCorruptedLog_spec c s_h) as Hh. cbv zeta in Hh.
  unfold tick in Hh.
  assert (Htick : Datatypes.length (trace (world s_h))
                  = (Datatypes.length (trace (world s)) + 2)%nat).
  { rewrite Ht, length_app. reflexivity. }
  rewrite He, Hf, Htick in Hh.
  subst r s'. rewrite Heq.
  destruct (truncateAnswer _ _ _ _) as [e|].
  - destruct Hh as (s1 & -> & Hv1 & Hf1 & He1 & Ht1). cbn [fst snd].
    split; [reflexivity|]. split; [reflexivity|]. split; [now rewrite Hf1, Hf|].
    rewrite Ht1, Ht, <- app_assoc. reflexivity.
  - destruct Hh as (s_t & -> & Hvt & Het & Hft & Htt).
    destruct (restartSunshineSystemctlOnly_spec s_t) as (rest & Hk & Htr & Hiff).
    unfold tick in Htr, Hiff.
    destruct (restartSunshineSystemctlOnly s_t) as [err s1]. cbn [fst snd] in *.
    assert (Htick' : Datatypes.length (trace (world s_t))
                     = (Datatypes.length (trace (world s)) + 3)%nat).
    { rewrite Htt, length_app, Ht, length_app. cbn [Datatypes.length]. lia. }
    rewrite Het, Htick' in Htr, Hiff.
    split; [reflexivity|].
    destruct Hk as (_ & _ & _ & Hfk & _).
    split. { rewrite Hfk, Hft. unfold emptied. now rewrite String.eqb_refl. }
    split.
    + exists rest. rewrite Htr, Htt, Ht, <- !app_assoc. reflexivity.
    + rewrite Hiff. split; intros [H0 (k & Hk30 & Hact)]; (split; [exact H0|]);
        exists k; (split; [exact Hk30|]).
      * now replace (Datatypes.length (trace (world s)) + 4 + 2 * k)%nat
          with (Datatypes.length (trace (world s)) + 3 + 1 + 2 * k)%nat by lia.
      * now replace (Datatypes.length (trace (world s)) + 3 + 1 + 2 * k)%nat
          with (Datatypes.length (trace (world s)) + 4 + 2 * k)%nat by lia.
Qed.

End CorruptionSection.

Section DedupFacts.
Context {lib : GoLib}.
Variable c : config.

Lemma lastHandled_set_lastLogSize (cat : Category) (z : Z) (g : Globals) :
  lastHandled cat (set_lastLogSize z g) = lastHandled cat g.
Proof. now destruct cat. Qed.

Lemma lastLogSize_set_lastHandled (cat : Category) (t : Time) (g : Globals) :
  lastLogSize (set_lastHandled cat t g) = lastLogSize g.
Proof. now destruct cat. Qed.

Lemma lastHandled_set_lastHandled (cat cat' : Category) (t : Time) (g : Globals) :
  lastHandled cat' (set_lastHandled cat t g)
  = if match cat, cat' with
       | MonitorSleep, MonitorSleep | EncoderFailure, EncoderFailure => true
       | _, _ => false
       end
    then t else lastHandled cat' g.
Proof. now destruct cat, cat'. Qed.

Lemma lastLogSize_handle (cat : Category) (latest : Time) (g : Globals) :
  lastLogSize (handle cat latest g) = lastLogSize g.
Proof.
  unfold handle. destruct (fresh cat latest g); [apply lastLogSize_set_lastHandled|reflexivity].
Qed.

(** Once an occurrence is handled it is not fresh any more. *)
Lemma fresh_after_handle (cat : Category) (latest : Time) (z : Z) (g : Globals) :
  fresh cat latest (set_lastLogSize z (handle cat latest g)) = false.
Proof.
  unfold handle. destruct (fresh cat latest g) eqn:Hfresh.
  - unfold fresh in *. rewrite lastHandled_set_lastLogSize.
    rewrite lastHandled_set_lastHandled.
    replace (match cat with MonitorSleep | _ => true end) with true by now destruct cat.
    assert (Hc : (if match cat, cat with
                     | MonitorSleep, MonitorSleep | EncoderFailure, EncoderFailure => true
                     | _, _ => false
                     end then latest else lastHandled cat g) = latest) by now destruct cat.
    rewrite Hc. unfold After. rewrite Z.ltb_irrefl.
    now destruct (IsZero latest).
  - unfold fresh in *. now rewrite lastHandled_set_lastLogSize.
Qed.

Lemma rotated_same (g : Globals) : rotated (lastLogSize g) g = g.
Proof. unfold rotated. now rewrite Z.ltb_irrefl. Qed.

Lemma rotated_resets (size : Z) (g : Globals) :
  size < lastLogSize g ->
  lastMonitorMissingTime (rotated size g) = zeroTime /\
  lastEncoderFailureTime (rotated size g) = zeroTime /\
  lastLogSize (rotated size g) = lastLogSize g.
Proof.
  intros H. unfold rotated. apply Z.ltb_lt in H. now rewrite H.
Qed.


Lemma classify_not_fresh (cat : Category) (s : State) (data : string) :
  files (world s) (SunshineLogPath c) = Some data ->
  (forall f, delivered f = data -> readErr f = None ->
             fresh cat (latestOf (matcher c cat) (fst (Scanner (1024 * 1024) f)) zeroTime)
                   (evaluated cat (len data) (vars s)) = false) ->
  fst (fst (classify c cat s)) = false.
Proof.
  intros Hfile Hnot.
  pose proof (classify_cases c cat s) as Hc. cbv zeta in Hc.
  destruct (statAnswer _ _ _ _) as [size|e] eqn:Hstat;
    [|destruct Hc as (s' & -> & _); reflexivity].
  destruct (openAnswer _ _ _ _) as [f|e] eqn:Hopen;
    [|destruct Hc as (s' & -> & _); reflexivity].
  destruct (snd (Scanner (1024 * 1024) f)) as [e|] eqn:Hscan.
  - destruct (isBufferOverflow (Some e)).
    + destruct Hc as (s_h & -> & _). now destruct (handleCorruptedLog c s_h).
    + destruct Hc as (s' & -> & _). reflexivity.
  - destruct Hc as (s' & -> & _). cbn [fst].
    assert (Hin : scanInput c s = Ok (size, f)).
    { unfold scanInput. now rewrite Hstat, Hopen. }
    destruct (scanInput_file c s Hin) as (_ & _ & data' & Hfile' & Hsize & Hdel & _).
    rewrite Hfile in Hfile'. injection Hfile' as <-. subst size.
    apply Hnot; [apply Hdel|]; now apply Scanner_clean with (1024 * 1024).
Qed.

Lemma classify_on_empty (cat : Category) (s : State) :
  files (world s) (SunshineLogPath c) = Some "" ->
  fst (fst (classify c cat s)) = false.
Proof.
  intros Hfile. apply classify_not_fresh with ""; [exact Hfile|].
  intros f Hdel _. rewrite Scanner_nothing by exact Hdel. reflexivity.
Qed.

Lemma handleCorruptedLog_keeps (s : State) (cat : Category) :
  lastHandled cat (vars (snd (handleCorruptedLog c s))) = lastHandled cat (vars s).
Proof.
  pose proof (handleCorruptedLog_spec c s) as Hh. cbv zeta in Hh.
  destruct (truncateAnswer _ _ _ _) as [e|].
  - destruct Hh as (s' & -> & Hv & _). cbn [snd]. now rewrite Hv.
  - destruct Hh as (s_t & -> & Hv & _).
    destruct (restartSunshineSystemctlOnly_spec s_t) as (rest & Hk & _).
    destruct Hk as (_ & Hm & He & _).
    rewrite <- Hv. destruct cat; cbn [lastHandled]; assumption.
Qed.

(** Without a rotation, a scan never lowers a stored timestamp. *)
Lemma classify_monotone (cat cat' : Category) (s : State) :
  rotationSeen c cat s = false ->
  lastHandled cat' (vars s) <= lastHandled cat' (vars (snd (classify c cat s))).
Proof.
  intros Hrot. unfold rotationSeen in Hrot.
  pose proof (classify_cases c cat s) as Hc. cbv zeta in Hc.
  destruct (statAnswer _ _ _ _) as [size|e] eqn:Hstat.
  2:{ destruct Hc as (s' & Heq & Hv & _). rewrite Heq. cbn [snd]. rewrite Hv. lia. }
  fold (evaluated cat size (vars s)) in Hc.
  assert (Hg0 : lastHandled cat' (evaluated cat size (vars s)) = lastHandled cat' (vars s)).
  { unfold evaluated. rewrite lastHandled_set_lastLogSize.
    destruct cat; [|reflexivity]. unfold rotated. now rewrite Hrot. }
  destruct (openAnswer _ _ _ _) as [f|e] eqn:Hopen.
  2:{ destruct Hc as (s' & Heq & Hv & _). rewrite Heq. cbn [snd]. rewrite Hv. lia. }
  destruct (snd (Scanner (1024 * 1024) f)) as [e|] eqn:Hscan.
  - destruct (isBufferOverflow (Some e)).
    + destruct Hc as (s_h & -> & Hv & _).
      pose proof (handleCorruptedLog_keeps s_h cat') as Hk.
      destruct (handleCorruptedLog c s_h) as [err s']. cbn [snd] in *.
      rewrite Hk, Hv. lia.
    + destruct Hc as (s' & Heq & Hv & _). rewrite Heq. cbn [snd]. rewrite Hv. lia.
  - destruct Hc as (s' & Heq & Hv & _). rewrite Heq. cbn [snd]. rewrite Hv.
    rewrite <- Hg0. unfold handle.
    set (latest := latestOf (matcher c cat) (fst (Scanner (1024 * 1024) f)) zeroTime).
    destruct (fresh cat latest (evaluated cat size (vars s))) eqn:Hfresh; [|lia].
    rewrite lastHandled_set_lastHandled.
    destruct cat, cat'; try lia;
      unfold fresh in Hfresh; apply andb_prop in Hfresh; destruct Hfresh as [_ Hlater];
      apply orb_prop in Hlater; unfold IsZero, After in Hlater;
      pose proof (latestOf_ge (matcher c MonitorSleep) (fst (Scanner (1024 * 1024) f)) zeroTime);
      pose proof (latestOf_ge (matcher c EncoderFailure) (fst (Scanner (1024 * 1024) f)) zeroTime);
      unfold zeroTime in *; subst latest;
      destruct Hlater as [Hz|Hl]; [apply Z.eqb_eq in Hz|apply Z.ltb_lt in Hl| apply Z.eqb_eq in Hz|apply Z.ltb_lt in Hl]; lia.
Qed.

End DedupFacts.

Section DedupProperty.
Context {lib : GoLib}.
Variable c : config.

(** The latest occurrence is the starting value or the timestamp of a
    matching line. *)
Lemma latestOf_attained (matches : string -> bool) (lines : list string) :
  forall t : Time,
    latestOf matches lines t = t \/
    exists line,
      In line lines /\ matches line = true /\
      parseSunshineTimestamp line = Ok (latestOf matches lines t).
Proof.
  induction lines as [|l rest IH]; intros t; cbn [latestOf]; [now left|].
  destruct (matches l) eqn:Hm.
  - destruct (parseSunshineTimestamp l) as [entryTime|e] eqn:Hp.
    + destruct (IH (if After entryTime t then entryTime else t))
        as [Heq|(line & Hin & Hml & Hpl)].
      * rewrite Heq. destruct (After entryTime t); [|now left].
        right. exists l. split; [now left|]. split; assumption.
      * right. exists line. split; [now right|]. split; assumption.
    + destruct (IH t) as [Heq|(line & Hin & Hml & Hpl)]; [now left|].
      right. exists line. split; [now right|]. split; assumption.
  - destruct (IH t) as [Heq|(line & Hin & Hml & Hpl)]; [now left|].
    right. exists line. split; [now right|]. split; assumption.
Qed.

(** Lines that add no matching line add no later occurrence. *)
Lemma latestOf_subset (matches : string -> bool) (lines1 lines2 : list string) :
  (forall line, In line lines2 -> matches line = true -> In line lines1) ->
  latestOf matches lines2 zeroTime <= latestOf matches lines1 zeroTime.
Proof.
  intros Hsub.
  destruct (latestOf_attained matches lines2 zeroTime) as [Heq|(line & Hin & Hm & Hp)].
  - rewrite Heq. apply latestOf_ge.
  - exact (latestOf_bounds matches lines1 zeroTime line (Hsub line Hin Hm) Hm Hp).
Qed.

Lemma fresh_not_later (cat : Category) (latest1 latest2 : Time) (z : Z) (g : Globals) :
  zeroTime <= latest2 <= latest1 ->
  fresh cat latest2 (set_lastLogSize z (handle cat latest1 g)) = false.
Proof.
  intros [H0 H12]. unfold fresh, handle, fresh, IsZero, After, zeroTime in *.
  rewrite lastHandled_set_lastLogSize.
  destruct (Z.eqb_spec latest2 0) as [Hz2|Hz2]; [reflexivity|].
  destruct (Z.eqb_spec latest1 0) as [Hz1|Hz1]; [lia|].
  cbn [negb andb].
  destruct (Z.eqb_spec (lastHandled cat g) 0) as [Hh|Hh]; cbn [orb].
  - destruct cat; cbn [lastHandled set_lastHandled lastMonitorMissingTime
                         lastEncoderFailureTime set_lastMonitorMissingTime
                         set_lastEncoderFailureTime];
      (destruct (Z.eqb_spec latest1 0); [lia|]); cbn [orb]; apply Z.ltb_ge; lia.
  - destruct (Z.ltb_spec (lastHandled cat g) latest1) as [Hl|Hl].
    + destruct cat; cbn [lastHandled set_lastHandled lastMonitorMissingTime
                           lastEncoderFailureTime set_lastMonitorMissingTime
                           set_lastEncoderFailureTime];
        (destruct (Z.eqb_spec latest1 0); [lia|]); cbn [orb]; apply Z.ltb_ge; lia.
    + destruct (Z.eqb_spec (lastHandled cat g) 0); [lia|]. cbn [orb].
      apply Z.ltb_ge. lia.
Qed.

(** C1, amended.  Dedup idempotence.  For either scan ([isMonitorSleeping]
    or [isEncoderFailed]), any log and any stored timestamps: when a scan
    returns without error and is run again with the variables it left, on
    a log that has not shrunk and holds no matching line that the log did
    not hold when the first scan left it (the unchanged log at least), the
    second scan does not report triggered.  A first scan that does report
    triggered has stored the latest timestamp parsed from the matching
    lines. *)
Theorem dedup_idempotent (cat : Category) (s s2 : State) (data1 data2 : string) :
  let r1 := fst (classify c cat s) in
  let s1 := snd (classify c cat s) in
  snd r1 = None ->
  vars s2 = vars s1 ->
  files (world s1) (SunshineLogPath c) = Some data1 ->
  files (world s2) (SunshineLogPath c) = Some data2 ->
  len data1 <= len data2 ->
  (forall line,
      In line (linesOf data2) -> matcher c cat line = true ->
      In line (linesOf data1)) ->
  fst (fst (classify c cat s2)) = false /\
  (fst r1 = true ->
   exists size f,
     scanInput c s = Ok (size, f) /\
     lastHandled cat (vars s1)
     = latestOf (matcher c cat) (fst (Scanner (1024 * 1024) f)) zeroTime).
Proof.
  intros r1 s1 Hok Hvars Hfile1 Hfile2 Hgrown Hnonew. subst r1 s1.
  pose proof (latestOf_subset (matcher c cat) _ _ Hnonew) as Hle.
  pose proof (latestOf_ge (matcher c cat) (linesOf data2) zeroTime) as Hge.
  assert (Hsecond :
            forall g,
              fresh cat (latestOf (matcher c cat) (linesOf data2) zeroTime)
                    (evaluated cat (len data2) g) = false ->
              vars s2 = g ->
              fst (fst (classify c cat s2)) = false).
  { intros g Hfresh Hg. apply classify_not_fresh with data2; [exact Hfile2|].
    intros f2 Hdel2 Hclean2.
    assert (f2 = {| delivered := data2; readErr := None |}) as ->.
    { destruct f2 as [d2 e2]; cbn in Hdel2, Hclean2; congruence. }
    fold (linesOf data2). now rewrite Hg. }
  pose proof (classify_cases c cat s) as Hc. cbv zeta in Hc.
  destruct (statAnswer _ _ _ _) as [size|e] eqn:Hstat.
  2:{ destruct Hc as (s' & Heq & _). rewrite Heq in Hok. discriminate. }
  destruct (openAnswer _ _ _ _) as [f|e] eqn:Hopen.
  2:{ destruct Hc as (s' & Heq & _). rewrite Heq in Hok. discriminate. }
  assert (Hin : scanInput c s = Ok (size, f)).
  { unfold scanInput. now rewrite Hstat, Hopen. }
  destruct (scanInput_file c s Hin) as (_ & _ & data & Hfile & Hsize & Hdel & _).
  fold (evaluated cat size (vars s)) in Hc.
  destruct (snd (Scanner (1024 * 1024) f)) as [e|] eqn:Hscan.
  - destruct (isBufferOverflow (Some e)).
    2:{ destruct Hc as (s' & Heq & _). rewrite Heq in Hok. discriminate. }
    destruct Hc as (s_h & Heq & _ & Hf & _).
    rewrite Heq in *.
    pose proof (handleCorruptedLog_spec c s_h) as Hh. cbv zeta in Hh.
    destruct (truncateAnswer _ _ _ _) as [e'|].
    { destruct Hh as (s' & Hheq & _). rewrite Hheq in Hok. discriminate. }
    destruct Hh as (s_t & Hheq & _ & _ & Hft & _). rewrite Hheq in *.
    destruct (restartSunshineSystemctlOnly_spec s_t) as (rest & Hk & _).
    destruct Hk as (_ & _ & _ & Hfk & _).
    destruct (restartSunshineSystemctlOnly s_t) as [err s']. cbn [fst snd] in *.
    split; [|discriminate].
    assert (data1 = "") as ->.
    { rewrite Hfk, Hft in Hfile1. unfold emptied in Hfile1.
      rewrite String.eqb_refl in Hfile1. congruence. }
    apply (Hsecond (vars s2)); [|reflexivity].
    unfold fresh.
    replace (latestOf (matcher c cat) (linesOf data2) zeroTime) with zeroTime
      by (change (latestOf (matcher c cat) (linesOf "") zeroTime) with zeroTime in Hle;
          unfold zeroTime in *; lia).
    reflexivity.
  - destruct Hc as (s' & Heq & Hv & Hf & _). rewrite Heq in *. cbn [fst snd] in *.
    assert (Hclean : readErr f = None) by now apply Scanner_clean with (1024 * 1024).
    specialize (Hdel Hclean).
    assert (data1 = data) as -> by (rewrite Hf in Hfile1; congruence).
    assert (Hf1 : f = {| delivered := data; readErr := None |}).
    { destruct f as [d1 e1]; cbn in Hdel, Hclean; congruence. }
    set (latest := latestOf (matcher c cat) (fst (Scanner (1024 * 1024) f)) zeroTime) in *.
    assert (Hlatest : latestOf (matcher c cat) (linesOf data) zeroTime = latest).
    { unfold linesOf, latest. now rewrite Hf1. }
    rewrite Hlatest in Hle.
    split.
    + apply (Hsecond (vars s2)); [|reflexivity]. rewrite Hvars, Hv.
      assert (Hsame : evaluated cat (len data2)
                        (handle cat latest (evaluated cat size (vars s)))
                      = set_lastLogSize (len data2)
                          (handle cat latest (evaluated cat size (vars s)))).
      { unfold evaluated at 1. destruct cat; [|reflexivity].
        f_equal. unfold rotated.
        rewrite lastLogSize_handle. unfold evaluated. cbn [lastLogSize set_lastLogSize].
        subst size. assert (Hnot : (len data2 <? len data) = false) by (apply Z.ltb_ge; lia).
        now rewrite Hnot. }
      rewrite Hsame. apply fresh_not_later. split; assumption.
    + intros Hfresh. exists size, f. split; [exact Hin|].
      rewrite Hv. unfold handle. rewrite Hfresh.
      rewrite lastHandled_set_lastHandled. now destruct cat.
Qed.

End DedupProperty.

Section ScanProperties.
Context {lib : GoLib}.
Variable c : config.

(** Without a rotation, a scan leaves a stored timestamp alone or
    replaces it by the strictly later timestamp of a matching line. *)
Lemma classify_overwrites_only_later (scan cat : Category) (s : State) :
  rotationSeen c scan s = false ->
  let g' := vars (snd (classify c scan s)) in
  lastHandled cat g' = lastHandled cat (vars s) \/
  (scan = cat /\
   fst (fst (classify c scan s)) = true /\
   lastHandled cat (vars s) < lastHandled cat g' /\
   exists size f line,
     scanInput c s = Ok (size, f) /\
     In line (fst (Scanner (1024 * 1024) f)) /\
     matcher c cat line = true /\
     parseSunshineTimestamp line = Ok (lastHandled cat g')).
Proof.
  intros Hrot g'. subst g'. unfold rotationSeen in Hrot.
  pose proof (classify_cases c scan s) as Hc. cbv zeta in Hc.
  destruct (statAnswer _ _ _ _) as [size|e] eqn:Hstat.
  2:{ destruct Hc as (s' & Heq & Hv & _). rewrite Heq. cbn [snd]. rewrite Hv. now left. }
  fold (evaluated scan size (vars s)) in Hc.
  assert (Hg0 : lastHandled cat (evaluated scan size (vars s)) = lastHandled cat (vars s)).
  { unfold evaluated. rewrite lastHandled_set_lastLogSize.
    destruct scan; [|reflexivity]. unfold rotated. now rewrite Hrot. }
  destruct (openAnswer _ _ _ _) as [f|e] eqn:Hopen.
  2:{ destruct Hc as (s' & Heq & Hv & _). rewrite Heq. cbn [snd]. rewrite Hv. now left. }
  assert (Hin : scanInput c s = Ok (size, f)).
  { unfold scanInput. now rewrite Hstat, Hopen. }
  destruct (snd (Scanner (1024 * 1024) f)) as [e|] eqn:Hscan.
  - destruct (isBufferOverflow (Some e)).
    + destruct Hc as (s_h & Heq & Hv & _). rewrite Heq.
      pose proof (handleCorruptedLog_keeps c s_h cat) as Hk.
      destruct (handleCorruptedLog c s_h) as [err s']. cbn [snd] in *.
      left. now rewrite Hk, Hv.
    + destruct Hc as (s' & Heq & Hv & _). rewrite Heq. cbn [snd]. rewrite Hv. now left.
  - destruct Hc as (s' & Heq & Hv & _). rewrite Heq. cbn [fst snd]. rewrite Hv.
    set (latest := latestOf (matcher c scan) (fst (Scanner (1024 * 1024) f)) zeroTime).
    unfold handle.
    destruct (fresh scan latest (evaluated scan size (vars s))) eqn:Hfresh; [|now left].
    rewrite lastHandled_set_lastHandled.
    assert (Hsame : scan = cat \/ scan <> cat) by (destruct scan, cat; auto; right; discriminate).
    destruct Hsame as [<-|Hdiff].
    2:{ left. rewrite <- Hg0. destruct scan, cat; try reflexivity; now contradict Hdiff. }
    right. split; [reflexivity|]. split; [reflexivity|].
    assert (Hc' : (if match scan, scan with
                      | MonitorSleep, MonitorSleep | EncoderFailure, EncoderFailure => true
                      | _, _ => false
                      end then latest else lastHandled scan (evaluated scan size (vars s)))
                  = latest) by now destruct scan.
    rewrite Hc'. clear Hc'.
    unfold fresh in Hfresh. rewrite Hg0 in Hfresh.
    apply andb_prop in Hfresh. destruct Hfresh as [Hnz Hlater].
    unfold IsZero, After in *. apply negb_true_iff, Z.eqb_neq in Hnz.
    pose proof (latestOf_ge (matcher c scan) (fst (Scanner (1024 * 1024) f)) zeroTime) as Hge.
    fold latest in Hge. unfold zeroTime in Hge.
    split.
    + apply orb_prop in Hlater. destruct Hlater as [Hz|Hl];
        [apply Z.eqb_eq in Hz; lia|apply Z.ltb_lt in Hl; exact Hl].
    + destruct (latestOf_attained (matcher c scan) (fst (Scanner (1024 * 1024) f)) zeroTime)
        as [Heq0|(line & Hline & Hm & Hp)].
      * fold latest in Heq0. unfold zeroTime in Heq0. lia.
      * exists size, f, line. auto.
Qed.

Lemma logShrunk_rotationSeen (scan : Category) (s : State) :
  logShrunk c s = false -> rotationSeen c scan s = false.
Proof.
  unfold logShrunk, rotationSeen. intros H.
  destruct scan; [|reflexivity].
  now destruct (statAnswer _ _ _ _).
Qed.

(** C3, amended.  Along every sequence of scans in which no scan is
    handed a log smaller than the size recorded before it, the stored
    timestamp of each category never decreases; and a scan that is handed
    no such log leaves a stored timestamp alone or overwrites it with the
    strictly later timestamp parsed from a matching line. *)
Theorem timestamps_nondecreasing_without_rotation
  (cat : Category) (steps : list (Category * World)) (g : Globals) :
  noShrinkSeen c steps g = true ->
  Sorted Z.le (map (lastHandled cat) (g :: scans c steps g)) /\
  (forall scan s,
      logShrunk c s = false ->
      let g' := vars (snd (classify c scan s)) in
      lastHandled cat g' = lastHandled cat (vars s) \/
      (scan = cat /\
       fst (fst (classify c scan s)) = true /\
       lastHandled cat (vars s) < lastHandled cat g' /\
       exists size f line,
         scanInput c s = Ok (size, f) /\
         In line (fst (Scanner (1024 * 1024) f)) /\
         matcher c cat line = true /\
         parseSunshineTimestamp line = Ok (lastHandled cat g'))).
Proof.
  intros Hno. split.
  2:{ intros scan s Hs. apply classify_overwrites_only_later.
      now apply logShrunk_rotationSeen. }
  revert g Hno.
  induction steps as [|[scan w] rest IH]; intros g Hno.
  - cbn. repeat constructor.
  - cbn [noShrinkSeen] in Hno. apply andb_prop in Hno. destruct Hno as [Hrot Hrest].
    apply negb_true_iff in Hrot.
    cbn [scans map]. constructor.
    + apply (IH _ Hrest).
    + constructor.
      exact (classify_monotone c scan cat {| vars := g; world := w |}
               (logShrunk_rotationSeen scan _ Hrot)).
Qed.

Lemma Contains_empty (s : string) : Contains s "" = true.
Proof. now destruct s. Qed.

Lemma latestOf_ext (m1 m2 : string -> bool) (lines : list string) :
  (forall line, m1 line = m2 line) ->
  forall t, latestOf m1 lines t = latestOf m2 lines t.
Proof.
  intros Hext. induction lines as [|line rest IH]; intros t; cbn [latestOf].
  - reflexivity.
  - rewrite Hext. destruct (m2 line); [destruct (parseSunshineTimestamp line)|]; apply IH.
Qed.

(** C10.  When [EncoderFailedLogLine2] is the empty string, every line
    matches in [isEncoderFailed]: the latest occurrence is computed over
    all lines with a parseable leading timestamp, whatever they say, and
    after a complete scan every such timestamp later than the zero time
    is at most the stored [lastEncoderFailureTime]. *)
Theorem empty_second_pattern_matches_every_line :
  EncoderFailedLogLine2 c = "" ->
  (forall line, encoderMatches c line = true) /\
  (forall lines t,
      latestOf (encoderMatches c) lines t = latestOf (fun _ => true) lines t) /\
  (forall s size f line entryTime,
      scanInput c s = Ok (size, f) ->
      snd (Scanner (1024 * 1024) f) = None ->
      In line (fst (Scanner (1024 * 1024) f)) ->
      parseSunshineTimestamp line = Ok entryTime ->
      0 < entryTime ->
      entryTime <= lastEncoderFailureTime (vars (snd (isEncoderFailed c s)))).
Proof.
  intros Hempty.
  assert (Hall : forall line, encoderMatches c line = true).
  { intros line. unfold encoderMatches. rewrite Hempty, Contains_empty.
    cbn. now rewrite andb_false_r. }
  split; [exact Hall|]. split; [intros lines t; now apply latestOf_ext|].
  intros s size f line entryTime Hin Hscan Hline Hparse Hpos.
  destruct (scanInput_file c s Hin) as (Hstat & Hopen & _).
  pose proof (classify_cases c EncoderFailure s) as Hc. cbv zeta in Hc.
  rewrite Hstat, Hopen, Hscan in Hc.
  destruct Hc as (s' & Heq & Hv & _).
  cbn [classify] in Heq. rewrite Heq. cbn [snd]. rewrite Hv.
  pose proof (latestOf_bounds (matcher c EncoderFailure) _ zeroTime _ Hline
                (Hall line) Hparse) as Hle.
  set (latest := latestOf (matcher c EncoderFailure) (fst (Scanner (1024 * 1024) f)) zeroTime) in *.
  unfold handle, fresh. cbn [lastHandled set_lastHandled lastEncoderFailureTime set_lastLogSize].
  unfold IsZero at 1. destruct (latest =? 0) eqn:Hz; [apply Z.eqb_eq in Hz; lia|].
  cbn [negb andb].
  destruct (IsZero (lastEncoderFailureTime (vars s)) || After latest (lastEncoderFailureTime (vars s))) eqn:Hfresh.
  - cbn. exact Hle.
  - cbn. apply orb_false_elim in Hfresh. destruct Hfresh as [_ Hl].
    unfold After in Hl. apply Z.ltb_ge in Hl. lia.
Qed.

(** The rotation test belongs to the monitor scan alone. *)
Lemma rotation_reset_only_in_monitor_scan (size : Z) (g : Globals) :
  size < lastLogSize g ->
  (lastMonitorMissingTime (evaluated MonitorSleep size g) = zeroTime /\
   lastEncoderFailureTime (evaluated MonitorSleep size g) = zeroTime) /\
  (lastMonitorMissingTime (evaluated EncoderFailure size g) = lastMonitorMissingTime g /\
   lastEncoderFailureTime (evaluated EncoderFailure size g) = lastEncoderFailureTime g).
Proof.
  intros H. unfold evaluated. destruct (rotated_resets g H) as (Hm & He & _).
  cbn [lastMonitorMissingTime lastEncoderFailureTime set_lastLogSize].
  now rewrite Hm, He.
Qed.

(** The encoder scan never lowers a stored timestamp, whatever size it is
    given. *)
Lemma isEncoderFailed_keeps_timestamps (cat : Category) (s : State) :
  lastHandled cat (vars s) <= lastHandled cat (vars (snd (isEncoderFailed c s))).
Proof. exact (classify_monotone c EncoderFailure cat s eq_refl). Qed.

End ScanProperties.

Section OnwardBasics.
Context {lib : GoLib}.
Variable c : config.

Lemma onward_refl (s : State) : onward s s.
Proof.
  unfold onward. split; [reflexivity|].
  split; exists []; now rewrite app_nil_r.
Qed.

Lemma onward_trans (s1 s2 s3 : State) :
  onward s1 s2 -> onward s2 s3 -> onward s1 s3.
Proof.
  intros (E1 & (c1 & T1) & (m1 & L1)) (E2 & (c2 & T2) & (m2 & L2)).
  split; [congruence|]. split.
  - exists (c1 ++ c2). now rewrite T2, T1, app_assoc.
  - exists (m1 ++ m2). now rewrite L2, L1, app_assoc.
Qed.

Lemma runsOnward_ret (A : Type) (a : A) : runsOnward (ret a).
Proof. intros s. apply onward_refl. Qed.

Lemma runsOnward_bind (A B : Type) (m : M A) (k : A -> M B) :
  runsOnward m -> (forall a, runsOnward (k a)) -> runsOnward (bind m k).
Proof.
  intros Hm Hk s. unfold bind. specialize (Hm s).
  destruct (m s) as [a s1]. cbn [snd] in *.
  exact (onward_trans Hm (Hk a s1)).
Qed.

Lemma runsOnward_syscall (A : Type) answer ev effect :
  runsOnward (@syscall A answer ev effect).
Proof.
  intros s. unfold syscall, onward. cbn.
  split; [reflexivity|]. split; [eauto|]. exists []. now rewrite app_nil_r.
Qed.

Lemma runsOnward_Println (msg : string) : runsOnward (Println msg).
Proof.
  intros s. unfold Println, onward. cbn.
  split; [reflexivity|]. split; [|eauto]. exists []. now rewrite app_nil_r.
Qed.

Lemma runsOnward_getv (A : Type) (f : Globals -> A) : runsOnward (getv f).
Proof. intros s. apply onward_refl. Qed.

Lemma runsOnward_setv (upd : Globals -> Globals) : runsOnward (setv upd).
Proof.
  intros s. unfold setv, onward. cbn.
  split; [reflexivity|]. split; exists []; now rewrite app_nil_r.
Qed.

End OnwardBasics.

Ltac onward_step :=
  first
    [ apply runsOnward_ret
    | apply runsOnward_Println
    | apply runsOnward_getv
    | apply runsOnward_setv
    | apply runsOnward_syscall
    | solve [auto]
    | apply runsOnward_bind; [|intros ?]
    | match goal with
      | |- runsOnward (match ?x with _ => _ end) => destruct x
      | |- runsOnward (if ?x then _ else _) => destruct x
      | |- runsOnward (let '(_, _) := ?x in _) => destruct x
      end ].

Ltac onward_all := repeat onward_step.

Section OnwardProgram.
Context {lib : GoLib}.
Variable c : config.

Lemma runsOnward_Sleep (d : Duration) : runsOnward (Sleep d).
Proof. unfold Sleep. onward_all. Qed.

Lemma runsOnward_Run (argv : list string) : runsOnward (Run argv).
Proof. unfold Run. onward_all. Qed.

Lemma runsOnward_pollServiceActive (serviceName : string) (n : nat) :
  runsOnward (pollServiceActive serviceName n).
Proof.
  induction n as [|n IH]; cbn [pollServiceActive]; unfold Run, Sleep; onward_all.
Qed.

Lemma runsOnward_restart : runsOnward restartSunshineSystemctlOnly.
Proof.
  unfold restartSunshineSystemctlOnly, waitForServiceActive, Run.
  pose proof runsOnward_pollServiceActive. onward_all.
Qed.

Lemma runsOnward_wakeMonitor : runsOnward (wakeMonitor c).
Proof. unfold wakeMonitor, Run. onward_all. Qed.

Lemma runsOnward_tryWakeMethods (methods : list (list string)) :
  runsOnward (tryWakeMethods methods).
Proof.
  induction methods as [|args rest IH]; cbn [tryWakeMethods]; unfold Run; onward_all.
Qed.

Lemma runsOnward_alternativeWakeMethod : runsOnward alternativeWakeMethod.
Proof.
  unfold alternativeWakeMethod. pose proof runsOnward_tryWakeMethods. onward_all.
Qed.

Lemma runsOnward_collectPIDs (entries : list DirEntry) :
  forall pids, runsOnward (collectPIDs entries pids).
Proof.
  induction entries as [|entry rest IH]; intros pids; cbn [collectPIDs];
    unfold ReadFile; onward_all; apply IH.
Qed.

Lemma runsOnward_getSunshinePIDs : runsOnward getSunshinePIDs.
Proof.
  unfold getSunshinePIDs, ReadDir. pose proof runsOnward_collectPIDs. onward_all.
Qed.

Lemma runsOnward_sendSIGTERM (pids : list Z) : runsOnward (sendSIGTERM pids).
Proof.
  induction pids as [|pid rest IH]; cbn [sendSIGTERM]; unfold killProcess, Run; onward_all.
Qed.

Lemma runsOnward_sendSIGKILL (pids : list Z) : runsOnward (sendSIGKILL pids).
Proof.
  induction pids as [|pid rest IH]; cbn [sendSIGKILL]; unfold killProcess, Run; onward_all.
Qed.

Lemma runsOnward_killAll : runsOnward killAllSunshineProcesses.
Proof.
  unfold killAllSunshineProcesses, Sleep.
  pose proof runsOnward_getSunshinePIDs.
  pose proof runsOnward_sendSIGTERM. pose proof runsOnward_sendSIGKILL.
  onward_all.
Qed.

Lemma runsOnward_systemdAvailable : runsOnward systemdAvailable.
Proof. unfold systemdAvailable, Output. onward_all. Qed.

Lemma runsOnward_stopSunshineProperly :
  runsOnward (SystemdPreferred.stopSunshineProperly c).
Proof.
  unfold SystemdPreferred.stopSunshineProperly, Run.
  pose proof runsOnward_systemdAvailable. onward_all.
Qed.

Lemma runsOnward_startSunshineProperly :
  runsOnward (SystemdPreferred.startSunshineProperly c).
Proof.
  unfold SystemdPreferred.startSunshineProperly, Run, Start.
  pose proof runsOnward_systemdAvailable. onward_all.
Qed.

Lemma runsOnward_stopAndClear : runsOnward (SystemdPreferred.stopAndClear c).
Proof.
  unfold SystemdPreferred.stopAndClear, countSunshineProcesses, forceKillAllSunshine,
    Sleep, Run, Truncate.
  pose proof runsOnward_stopSunshineProperly. pose proof runsOnward_killAll.
  pose proof runsOnward_getSunshinePIDs.
  onward_all.
Qed.

End OnwardProgram.

Section PollingAndCooldown.
Context {lib : GoLib}.
Variable c : config.

Lemma failedPolls_ext (serviceName : string) (s s0 : State) (k : nat) :
  env (world s0) = env (world s) ->
  tick (world s0) = tick (world s) ->
  forall from, failedPolls serviceName s0 from k = failedPolls serviceName s from k.
Proof.
  intros He Ht. induction k as [|k IH]; intros from; cbn [failedPolls]; [reflexivity|].
  rewrite IH. unfold pollAnswer. now rewrite He, Ht.
Qed.

(** C7.  Service activation polling.  [waitForServiceActive] makes at
    most [timeoutSeconds] [is-active] polls, each failed one followed by a
    sleep of one second; it returns [nil] at the first poll that reports
    active, and the timeout error if and only if none of the polls does. *)
Theorem waitForServiceActive_polls (serviceName : string) (timeoutSeconds : Z)
  (s : State) :
  let n := Z.to_nat timeoutSeconds in
  let r := fst (waitForServiceActive serviceName timeoutSeconds s) in
  let s' := snd (waitForServiceActive serviceName timeoutSeconds s) in
  (r = None <-> exists k, (k < n)%nat /\ pollAnswer serviceName s k = None) /\
  ((exists k,
       (k < n)%nat /\
       (forall j, (j < k)%nat -> pollAnswer serviceName s j <> None) /\
       pollAnswer serviceName s k = None /\
       r = None /\
       trace (world s')
       = trace (world s) ++ failedPolls serviceName s 0 k
                         ++ [EvRun (isActiveArgv serviceName) None])
   \/
   ((forall j, (j < n)%nat -> pollAnswer serviceName s j <> None) /\
    r = Some ("timeout waiting for " +++ serviceName) /\
    trace (world s') = trace (world s) ++ failedPolls serviceName s 0 n)).
Proof.
  intros n r s'. subst n r s'.
  unfold waitForServiceActive, bind. rewrite Println_eq.
  set (s0 := addLogs _ s).
  assert (He : env (world s0) = env (world s)) by reflexivity.
  assert (Ht : tick (world s0) = tick (world s)) by reflexivity.
  assert (Hans : forall j, pollAnswer serviceName s0 j = pollAnswer serviceName s j)
    by reflexivity.
  destruct (pollServiceActive_spec serviceName (Z.to_nat timeoutSeconds) s0)
    as [(k & s' & Hk & Hbefore & Hat & Heq & Hreach & _)|(s' & Hall & Heq & Hreach & _)];
    rewrite Heq; cbn [fst snd]; destruct Hreach as (_ & _ & _ & Htr);
    rewrite (failedPolls_ext serviceName s s0 _ He Ht) in Htr.
  - split.
    + split; [intros _; exists k; split; [exact Hk|now rewrite <- Hans]|reflexivity].
    + left. exists k. split; [exact Hk|]. split; [exact Hbefore|].
      split; [exact Hat|]. split; [reflexivity|exact Htr].
  - split.
    + split; [discriminate|]. intros (k & Hk & Hnone). exfalso.
      apply (Hall k Hk). exact Hnone.
    + right. split; [exact Hall|]. split; [reflexivity|exact Htr].
Qed.

Lemma Sub_lt (t u : Time) (d : Duration) :
  minDuration < d <= maxDuration -> (Sub t u <? d) = (t - u <? d).
Proof.
  intros [Hlo Hhi]. unfold Sub.
  destruct (t - u <? minDuration) eqn:E1; [apply Z.ltb_lt in E1|apply Z.ltb_ge in E1].
  - symmetry. apply Z.ltb_lt in Hlo. rewrite Hlo. apply Z.ltb_lt. apply Z.ltb_lt in Hlo. lia.
  - destruct (maxDuration <? t - u) eqn:E2; [apply Z.ltb_lt in E2|reflexivity].
    transitivity false; [apply Z.ltb_ge; lia|symmetry; apply Z.ltb_ge; lia].
Qed.

(** C8.  Wake cooldown.  [shouldWakeMonitor] returns true exactly when
    [lastMainLoopTime] and [lastWakeTime] are both at least the cooldown
    period before the clock readings it takes; it returns false when
    either is within the period.  It changes no variable. *)
Theorem shouldWakeMonitor_cooldown (cooldownPeriod : Duration) (s : State) :
  minDuration < cooldownPeriod <= maxDuration ->
  let w := world s in
  let now1 := wall_clock (env w) (tick w) in
  let now2 := wall_clock (env w) (S (tick w)) in
  (fst (shouldWakeMonitor cooldownPeriod s) = true <->
   cooldownPeriod <= now1 - lastMainLoopTime (vars s) /\
   cooldownPeriod <= now2 - lastWakeTime (vars s)) /\
  (now1 - lastMainLoopTime (vars s) < cooldownPeriod ->
   fst (shouldWakeMonitor cooldownPeriod s) = false) /\
  (now2 - lastWakeTime (vars s) < cooldownPeriod ->
   fst (shouldWakeMonitor cooldownPeriod s) = false) /\
  vars (snd (shouldWakeMonitor cooldownPeriod s)) = vars s.
Proof.
  intros Hrange w now1 now2. subst w now1 now2.
  unfold shouldWakeMonitor, Since. unfold_os. state_simpl.
  rewrite !(Sub_lt _ _ Hrange).
  destruct (_ - lastMainLoopTime (vars s) <? cooldownPeriod) eqn:E1;
    [apply Z.ltb_lt in E1|apply Z.ltb_ge in E1]; state_simpl.
  - repeat split; try reflexivity; try discriminate. intros [H _]. lia.
  - rewrite last_length. rewrite !(Sub_lt _ _ Hrange).
    destruct (_ - lastWakeTime (vars s) <? cooldownPeriod) eqn:E2;
      [apply Z.ltb_lt in E2|apply Z.ltb_ge in E2]; state_simpl.
    + repeat split; try reflexivity; try discriminate; try lia.
    + repeat split; try reflexivity; try lia.
Qed.

End PollingAndCooldown.

Section RestartProperty.
Context {lib : GoLib}.
Variable c : config.

Lemma failedPolls_never_enumerate (serviceName : string) (s : State) (k : nat) :
  forall from, Forall (fun ev => enumerates ev = false) (failedPolls serviceName s from k).
Proof.
  induction k as [|k IH]; intros from; cbn [failedPolls]; repeat constructor. apply IH.
Qed.

Lemma restart_never_enumerates (s : State) :
  exists calls,
    trace (world (snd (restartSunshineSystemctlOnly s))) = trace (world s) ++ calls /\
    Forall (fun ev => enumerates ev = false) calls.
Proof.
  unfold restartSunshineSystemctlOnly, waitForServiceActive.
  unfold_os. state_simpl.
  destruct (run_result (env (world s)) (Datatypes.length (trace (world s))) _) as [e|];
    state_simpl.
  - eexists. split; [reflexivity|]. repeat constructor.
  - match goal with |- context [pollServiceActive "sunshine" ?n ?s1] =>
      change n with 30%nat; set (s1' := s1) end.
    destruct (pollServiceActive_spec "sunshine" 30 s1')
      as [(k & s' & _ & _ & _ & Heq & Hreach & _)|(s' & _ & Heq & Hreach & _)];
      rewrite Heq; state_simpl; destruct Hreach as (_ & _ & _ & Ht); subst s1';
      state_simpl; rewrite Ht, <- app_assoc; eexists; (split; [reflexivity|]);
      constructor; try reflexivity.
    + apply Forall_app. split; [apply failedPolls_never_enumerate|repeat constructor].
    + apply failedPolls_never_enumerate.
Qed.

(** C5, amended.  [restartSunshineManual] returns success only straight
    after the five-second wait and an enumeration of the processes that
    found at least one.  [restartSunshineSystemctlOnly] returns success
    exactly when [systemctl restart] succeeded and one of at most 30
    [is-active] polls reported active; it never reads the process table. *)
Theorem restart_verification (s : State) :
  (fst (SystemdPreferred.restartSunshineManual c s) = None ->
   exists s_pre,
     onward s s_pre /\
     (exists calls,
         trace (world s_pre) = trace (world s) ++ calls ++ [EvSleep (5 * Second)]) /\
     fst (getSunshinePIDs s_pre) <> [] /\
     snd (SystemdPreferred.restartSunshineManual c s)
     = addLogs ["Sunshine restart complete"] (snd (getSunshinePIDs s_pre))) /\
  (fst (restartSunshineSystemctlOnly s) = None <->
   run_result (env (world s)) (tick (world s)) restartArgv = None /\
   exists k, (k < 30)%nat /\
             run_result (env (world s)) (tick (world s) + 1 + 2 * k)
               (isActiveArgv "sunshine") = None) /\
  (exists calls,
      trace (world (snd (restartSunshineSystemctlOnly s))) = trace (world s) ++ calls /\
      Forall (fun ev => enumerates ev = false) calls).
Proof.
  split; [|split].
  - unfold SystemdPreferred.restartSunshineManual, bind.
    pose proof (runsOnward_stopAndClear c s) as H1.
    destruct (SystemdPreferred.stopAndClear c s) as [u s1]. cbn [snd] in H1.
    rewrite Println_eq.
    pose proof (runsOnward_startSunshineProperly c (addLogs ["Starting sunshine..."] s1)) as H2.
    destruct (SystemdPreferred.startSunshineProperly c _) as [[e|] s2]; cbn [snd] in H2;
      [discriminate|].
    rewrite Println_eq. unfold Sleep, countSunshineProcesses, bind, syscall, ret.
    state_simpl.
    match goal with |- context [getSunshinePIDs ?st] => set (s_pre := st) end.
    destruct (getSunshinePIDs s_pre) as [pids s3] eqn:Hpids.
    destruct (Z.of_nat (Datatypes.length pids) =? 0) eqn:Hcount; [discriminate|].
    intros _. exists s_pre.
    assert (H12 : onward s s2).
    { eapply onward_trans; [exact H1|]. eapply onward_trans; [|exact H2].
      exact (runsOnward_Println "Starting sunshine..." s1). }
    split; [|split; [|split]].
    + eapply onward_trans; [exact H12|].
      unfold onward. subst s_pre. state_simpl. split; [reflexivity|]. split; eauto.
    + destruct H12 as (_ & (calls & Ht) & _). exists calls.
      subst s_pre. state_simpl. now rewrite Ht, <- app_assoc.
    + rewrite Hpids. cbn [fst]. intros ->. discriminate.
    + rewrite Hpids. rewrite Println_eq. reflexivity.
  - destruct (restartSunshineSystemctlOnly_spec s) as (rest & _ & _ & Hiff). exact Hiff.
  - apply restart_never_enumerates.
Qed.

End RestartProperty.

Section KillProperty.
Context {lib : GoLib}.
Variable c : config.

Lemma onward_logged (s s' : State) (msg : string) :
  onward s s' -> In msg (logged (world s)) -> In msg (logged (world s')).
Proof.
  intros (_ & _ & (msgs & Hl)) Hin. rewrite Hl. apply in_or_app. now left.
Qed.

Lemma sendSIGTERM_spec (pids : list Z) :
  forall s : State,
  exists terms,
    Forall2 (isSignal 15) terms pids /\
    reached s (snd (sendSIGTERM pids s)) (vars s) terms /\
    (forall pid e,
        In (EvRun (signalArgv 15 pid) (Some e)) terms ->
        In ("SIGTERM to PID " +++ Itoa pid +++ " failed: " +++ e)
           (logged (world (snd (sendSIGTERM pids s))))).
Proof.
  induction pids as [|pid rest IH]; intros s.
  - exists []. split; [constructor|]. split; [apply reached_refl|]. intros ? ? [].
  - cbn [sendSIGTERM]. unfold killProcess. unfold_os. state_simpl.
    fold (signalArgv 15 pid).
    set (r := run_result (env (world s)) (Datatypes.length (trace (world s)))
                (signalArgv 15 pid)).
    destruct r as [e0|] eqn:Hr; state_simpl;
      match goal with |- context [sendSIGTERM rest ?st] => set (s1 := st) end;
      destruct (IH s1) as (terms & Hsig & Hreach & Hlog);
      pose proof (runsOnward_sendSIGTERM rest s1) as Hon;
      destruct (sendSIGTERM rest s1) as [u s']; cbn [snd] in *;
      destruct Hreach as (Hv & Hf & He & Ht); subst s1; state_simpl.
    + exists (EvRun (signalArgv 15 pid) (Some e0) :: terms).
      split; [constructor; [eexists; reflexivity|exact Hsig]|].
      split; [unfold reached; rewrite Hv, Hf, He, Ht, <- app_assoc; auto|].
      intros pid' e [Heq|Hin]; [|now apply Hlog].
      injection Heq as Hp He'. subst e0. rewrite <- Hp.
      apply (onward_logged _ Hon). cbn. apply in_or_app. right. now left.
    + exists (EvRun (signalArgv 15 pid) None :: terms).
      split; [constructor; [eexists; reflexivity|exact Hsig]|].
      split; [unfold reached; rewrite Hv, Hf, He, Ht, <- app_assoc; auto|].
      intros pid' e [Heq|Hin]; [discriminate|now apply Hlog].
Qed.

Lemma sendSIGKILL_spec (pids : list Z) :
  forall s : State,
  exists kills,
    Forall2 (isSignal 9) kills pids /\
    reached s (snd (sendSIGKILL pids s)) (vars s) kills /\
    (forall pid e,
        In (EvRun (signalArgv 9 pid) (Some e)) kills ->
        In ("SIGKILL to PID " +++ Itoa pid +++ " failed: " +++ e)
           (logged (world (snd (sendSIGKILL pids s))))).
Proof.
  induction pids as [|pid rest IH]; intros s.
  - exists []. split; [constructor|]. split; [apply reached_refl|]. intros ? ? [].
  - cbn [sendSIGKILL]. unfold killProcess. unfold_os. state_simpl.
    fold (signalArgv 9 pid).
    set (r := run_result (env (world s)) (Datatypes.length (trace (world s)))
                (signalArgv 9 pid)).
    destruct r as [e0|] eqn:Hr; state_simpl;
      match goal with |- context [sendSIGKILL rest ?st] => set (s1 := st) end;
      destruct (IH s1) as (kills & Hsig & Hreach & Hlog);
      pose proof (runsOnward_sendSIGKILL rest s1) as Hon;
      destruct (sendSIGKILL rest s1) as [u s']; cbn [snd] in *;
      destruct Hreach as (Hv & Hf & He & Ht); subst s1; state_simpl.
    + exists (EvRun (signalArgv 9 pid) (Some e0) :: kills).
      split; [constructor; [eexists; reflexivity|exact Hsig]|].
      split; [unfold reached; rewrite Hv, Hf, He, Ht, <- app_assoc; auto|].
      intros pid' e [Heq|Hin]; [|now apply Hlog].
      injection Heq as Hp He'. subst e0. rewrite <- Hp.
      apply (onward_logged _ Hon). cbn. apply in_or_app. right. now left.
    + exists (EvRun (signalArgv 9 pid) None :: kills).
      split; [constructor; [eexists; reflexivity|exact Hsig]|].
      split; [unfold reached; rewrite Hv, Hf, He, Ht, <- app_assoc; auto|].
      intros pid' e [Heq|Hin]; [discriminate|now apply Hlog].
Qed.

(** C6, amended.  [killAllSunshineProcesses] always returns [nil].  When
    its enumeration of the process table finds nothing, it makes no
    further call.  Otherwise it sends signal 15 to each process found, in
    order, sleeps two seconds, enumerates again, and sends signal 9 to
    exactly the processes the second enumeration found; every signal that
    fails is logged and the sequence carries on. *)
Theorem graduated_kill (s : State) :
  let s0 := addLogs ["Killing all sunshine processes..."] s in
  let pids := fst (getSunshinePIDs s0) in
  let s1 := snd (getSunshinePIDs s0) in
  let s' := snd (killAllSunshineProcesses s) in
  fst (killAllSunshineProcesses s) = None /\
  match pids with
  | [] => trace (world s') = trace (world s1)
  | _ :: _ =>
      exists terms s2 kills,
        Forall2 (isSignal 15) terms pids /\
        onward s1 s2 /\
        trace (world s2) = trace (world s1) ++ terms ++ [EvSleep (2 * Second)] /\
        Forall2 (isSignal 9) kills (fst (getSunshinePIDs s2)) /\
        trace (world s') = trace (world (snd (getSunshinePIDs s2))) ++ kills /\
        (forall pid e,
            In (EvRun (signalArgv 15 pid) (Some e)) terms ->
            In ("SIGTERM to PID " +++ Itoa pid +++ " failed: " +++ e)
               (logged (world s'))) /\
        (forall pid e,
            In (EvRun (signalArgv 9 pid) (Some e)) kills ->
            In ("SIGKILL to PID " +++ Itoa pid +++ " failed: " +++ e)
               (logged (world s')))
  end.
Proof.
  intros s0 pids s1 s'. subst pids s1 s'.
  unfold killAllSunshineProcesses, bind. rewrite Println_eq. fold s0.
  destruct (getSunshinePIDs s0) as [pids s1]. cbn [fst snd].
  destruct pids as [|pid rest].
  - rewrite Println_eq. cbn. auto.
  - rewrite Println_eq.
    set (s1' := addLogs _ s1).
    destruct (sendSIGTERM_spec (pid :: rest) s1') as (terms & Hterm & Hreach & Hlog1).
    pose proof (runsOnward_sendSIGTERM (pid :: rest) s1') as Hon1.
    destruct (sendSIGTERM (pid :: rest) s1') as [u sa]. cbn [snd] in *.
    unfold Sleep, syscall, bind, ret. state_simpl.
    match goal with |- context [getSunshinePIDs ?st] => set (s2 := st) end.
    pose proof (runsOnward_getSunshinePIDs s2) as Hon2.
    destruct (getSunshinePIDs s2) as [remaining s3] eqn:Hrem. cbn [snd] in Hon2.
    assert (Hs2 : onward sa s2).
    { unfold onward. subst s2. state_simpl. split; [reflexivity|]. split; [eauto|].
      exists []. now rewrite app_nil_r. }
    assert (Hs1 : onward s1 s1') by exact (runsOnward_Println _ s1).
    destruct Hreach as (_ & _ & _ & Hta).
    assert (Htr2 : trace (world s2)
                   = trace (world s1) ++ terms ++ [EvSleep (2 * Second)]).
    { subst s2. state_simpl. rewrite Hta. subst s1'. state_simpl.
      now rewrite <- app_assoc. }
    destruct remaining as [|pid' rest'].
    + cbn [fst snd]. split; [reflexivity|].
      exists terms, s2, []. rewrite Hrem. cbn [fst snd].
      split; [exact Hterm|]. split; [eauto using onward_trans|].
      split; [exact Htr2|]. split; [constructor|].
      split; [now rewrite app_nil_r|]. split; [|intros ? ? []].
      intros p e Hin. apply (onward_logged _ Hon2). apply (onward_logged _ Hs2).
      now apply Hlog1.
    + rewrite Println_eq.
      set (s3' := addLogs _ s3).
      destruct (sendSIGKILL_spec (pid' :: rest') s3') as (kills & Hkill & Hreach3 & Hlog3).
      pose proof (runsOnward_sendSIGKILL (pid' :: rest') s3') as Hon3.
      destruct (sendSIGKILL (pid' :: rest') s3') as [u' sb]. cbn [fst snd] in *.
      split; [reflexivity|].
      exists terms, s2, kills. rewrite Hrem. cbn [fst snd].
      split; [exact Hterm|]. split; [eauto using onward_trans|].
      split; [exact Htr2|]. split; [exact Hkill|].
      destruct Hreach3 as (_ & _ & _ & Htb).
      split; [rewrite Htb; subst s3'; reflexivity|]. split; [|exact Hlog3].
      intros p e Hin. apply (onward_logged _ Hon3).
      apply (onward_logged _ (runsOnward_Println _ s3)).
      apply (onward_logged _ Hon2). apply (onward_logged _ Hs2).
      now apply Hlog1.
Qed.

End KillProperty.

Section AccessErrors.
Context {lib : GoLib}.
Variable c : config.

Lemma Original_isMonitorSleeping_error (s : State) (e : error) :
  scanInput c s = Err e ->
  exists s', Original.isMonitorSleeping c s = ((false, Some e), s').
Proof.
  unfold scanInput, Original.isMonitorSleeping, resetMonitorTracking, tick. unfold_os. state_simpl.
  destruct (statAnswer _ _ _ _) as [size|e0]; state_simpl.
  - destruct (size <? lastLogSize (vars s)); state_simpl; rewrite last_length;
      (destruct (openAnswer _ _ _ _) as [f|e1]; [discriminate|]);
      intros H; injection H as ->; eexists; reflexivity.
  - intros H; injection H as ->; eexists; reflexivity.
Qed.

Lemma periodicCheck_never_exits (s : State) :
  fst (periodicCheck c s) = NextIteration.
Proof.
  unfold periodicCheck, bind, ret.
  destruct (RestartOnEncoderFailure c); [|reflexivity].
  destruct (isEncoderFailed c s) as [[failed [e|]] s1].
  - reflexivity.
  - destruct failed; [|reflexivity].
    destruct (Println _ s1) as [u s2].
    destruct (restartSunshineSystemctlOnly s2) as [[e|] s3]; reflexivity.
Qed.

Lemma wakeOnConnectStep_never_exits (s : State) :
  fst (wakeOnConnectStep c s) = NextIteration.
Proof.
  unfold wakeOnConnectStep, bind, ret.
  destruct (detectSunshineRunning s) as [running s1].
  destruct running; cbn [negb].
  - destruct (shouldWakeMonitor _ s1) as [wake s2].
    assert (exists s3, (if wake then wakeCycle c 15 else fun s0 => (tt, s0)) s2 = (tt, s3))
      as (s3 & ->).
    { destruct wake; [destruct (wakeCycle c 15 s2) as [[] s3]|]; eexists; reflexivity. }
    destruct (getv inWakeCycle s3) as [inCycle s4].
    destruct inCycle.
    + destruct (detectSunshineRunning s4) as [alive s5].
      destruct alive; cbn [negb].
      * destruct (checkForLogActivity c s5) as [activity s6].
        destruct activity; [destruct (Sleep _ s6)|destruct (Sleep _ s6)]; reflexivity.
      * destruct (Println _ s5) as [u s6].
        destruct (restartSunshineSystemctlOnly s6) as [r s7].
        destruct (checkForLogActivity c s7) as [activity s8].
        destruct activity; [destruct (Sleep _ s8)|destruct (Sleep _ s8)]; reflexivity.
    + destruct (checkForLogActivity c s4) as [activity s5].
      destruct activity; [destruct (Sleep _ s5)|destruct (Sleep _ s5)]; reflexivity.
  - destruct (Println _ s1) as [u s2].
    destruct (restartSunshineSystemctlOnly s2) as [r s3].
    destruct (Sleep _ s3) as [u' s4]. reflexivity.
Qed.

Lemma checkForMainLoop_unreadable (s : State) (e : error) :
  openAnswer (SunshineLogPath c) (env (world s)) (files (world s)) (tick (world s)) = Err e ->
  fst (checkForMainLoop c s) = false /\
  vars (snd (checkForMainLoop c s)) = vars s /\
  trace (world (snd (checkForMainLoop c s)))
  = trace (world s) ++ [EvOpen (SunshineLogPath c) (Some e)] /\
  logged (world (snd (checkForMainLoop c s)))
  = logged (world s) ++ ["Error opening log file: " +++ e].
Proof.
  intros H. unfold checkForMainLoop. unfold_os. state_simpl. rewrite H. state_simpl.
  auto.
Qed.

(** In a wake cycle, a log that cannot be opened when the liveness marker
    is looked for is answered by a restart. *)
Lemma wakeCycle_restarts_when_unreadable (waitSeconds : Z) (s : State) :
  exists s_chk,
    onward s s_chk /\
    forall e,
      openAnswer (SunshineLogPath c) (env (world s_chk)) (files (world s_chk))
        (tick (world s_chk)) = Err e ->
      let s' := snd (wakeCycle c waitSeconds s) in
      (exists r rest,
          trace (world s')
          = trace (world s_chk)
            ++ EvOpen (SunshineLogPath c) (Some e) :: EvRun restartArgv r :: rest) /\
      In "Sunshine not ready - restarting..." (logged (world s')) /\
      inWakeCycle (vars s') = false.
Proof.
  cbv zeta.
  remember (wakeCycle c waitSeconds s) as result eqn:Hend.
  unfold wakeCycle, bind in Hend. rewrite Println_eq in Hend.
  unfold setv at 1 in Hend. cbn [fst snd] in Hend.
  match type of Hend with context [wakeMonitor c ?st] => set (s1 := st) in Hend end.
  assert (H01 : onward s s1).
  { unfold onward. subst s1. state_simpl. split; [reflexivity|]. split; eauto.
    exists []. now rewrite app_nil_r. }
  pose proof (runsOnward_wakeMonitor c s1) as H12.
  destruct (wakeMonitor c s1) as [err s2]. cbn [snd] in H12.
  assert (exists s3,
             onward s2 s3 /\
             (match err with
              | Some e =>
                  Println ("Primary wake failed: " +++ e) ;;
                  err0 <- alternativeWakeMethod ;;
                  match err0 with
                  | Some e0 => Println ("Alternative wake also failed: " +++ e0)
                  | None => ret tt
                  end
              | None => ret tt
              end) s2 = (tt, s3)) as (s3 & H23 & Heq).
  { destruct err as [e|].
    - unfold bind. rewrite Println_eq.
      pose proof (runsOnward_alternativeWakeMethod (addLogs ["Primary wake failed: " +++ e] s2)) as Ha.
      destruct (alternativeWakeMethod _) as [[e0|] sa]; cbn [snd] in Ha.
      + rewrite Println_eq.
        exists (addLogs ["Alternative wake also failed: " +++ e0] sa).
        split; [|reflexivity].
        eapply onward_trans; [apply (runsOnward_Println ("Primary wake failed: " +++ e) s2)|].
        eapply onward_trans; [exact Ha|].
        apply (runsOnward_Println ("Alternative wake also failed: " +++ e0) sa).
      + exists sa. split; [|reflexivity].
        eapply onward_trans;
          [apply (runsOnward_Println ("Primary wake failed: " +++ e) s2)|exact Ha].
    - exists s2. split; [apply onward_refl|reflexivity]. }
  unfold bind in Heq. rewrite Heq in Hend. clear Heq.
  unfold Now, Sleep, syscall, setv, bind, ret, unchanged in Hend.
  rewrite !Println_eq in Hend.
  cbn [fst snd vars world env files trace logged addLogs] in Hend.
  match type of Hend with context [checkForMainLoop c ?st] => set (s_chk := st) in Hend end.
  exists s_chk. split.
  { eapply onward_trans; [exact H01|]. eapply onward_trans; [exact H12|].
    eapply onward_trans; [exact H23|].
    unfold onward. subst s_chk. cbn [vars world env trace logged]. split; [reflexivity|].
    rewrite <- app_assoc. split; eauto. }
  intros e Hopen.
  destruct (checkForMainLoop_unreadable s_chk Hopen) as (Hr & Hv & Ht & Hl).
  destruct (checkForMainLoop c s_chk) as [ready s4]. cbn [fst snd] in Hr, Hv, Ht, Hl.
  subst ready. cbn [fst snd] in Hend. rewrite Println_eq in Hend.
  destruct (restartSunshineSystemctlOnly_spec
              (addLogs ["Sunshine not ready - restarting..."] s4)) as (rest & _ & Htr & _).
  pose proof (runsOnward_restart (addLogs ["Sunshine not ready - restarting..."] s4)) as Hon.
  destruct (restartSunshineSystemctlOnly _) as [r s5]. cbn [fst snd] in Htr, Hon.
  cbn [fst snd vars world] in Hend. subst result. cbn [fst snd vars world].
  split; [|split].
  - eexists. exists rest. rewrite Htr. cbn [addLogs world trace].
    rewrite Ht, <- app_assoc. reflexivity.
  - apply (onward_logged _ Hon). cbn. apply in_or_app. right. now left.
  - reflexivity.
Qed.

(** C9, amended.  When the log cannot be read: the periodic loop of
    [main.go] logs the error and goes on to its next tick (it never leaves
    the process); the periodic loop of the original program logs the error
    and leaves the process; in the wake loop [checkForMainLoop] logs the
    error and answers not ready, the wake cycle answers that with a
    restart, and the loop goes on to its next iteration. *)
Theorem log_access_error_disposition (s sw : State) (e e' : error) :
  scanInput c s = Err e ->
  openAnswer (SunshineLogPath c) (env (world sw)) (files (world sw)) (tick (world sw))
  = Err e' ->
  (RestartOnEncoderFailure c = true ->
   fst (periodicCheck c s) = NextIteration /\
   snd (periodicCheck c s)
   = addLogs ["Error checking encoder failures: " +++ e] (snd (isEncoderFailed c s))) /\
  (forall st, fst (periodicCheck c st) = NextIteration) /\
  (fst (Original.periodicCheck c s) = Exit /\
   snd (Original.periodicCheck c s)
   = addLogs ["Unable to read log file:" +++ e] (snd (Original.isMonitorSleeping c s))) /\
  (fst (checkForMainLoop c sw) = false /\
   vars (snd (checkForMainLoop c sw)) = vars sw /\
   logged (world (snd (checkForMainLoop c sw)))
   = logged (world sw) ++ ["Error opening log file: " +++ e']) /\
  (forall waitSeconds st,
      exists s_chk,
        onward st s_chk /\
        forall e0,
          openAnswer (SunshineLogPath c) (env (world s_chk)) (files (world s_chk))
            (tick (world s_chk)) = Err e0 ->
          let s' := snd (wakeCycle c waitSeconds st) in
          (exists r rest,
              trace (world s')
              = trace (world s_chk)
                ++ EvOpen (SunshineLogPath c) (Some e0) :: EvRun restartArgv r :: rest) /\
          In "Sunshine not ready - restarting..." (logged (world s')) /\
          inWakeCycle (vars s') = false) /\
  (forall st, fst (wakeOnConnectStep c st) = NextIteration).
Proof.
  intros Hscan Hopen.
  split; [|split; [|split; [|split; [|split]]]].
  - intros Hflag. unfold periodicCheck. rewrite Hflag. unfold bind.
    pose proof (scanInput_error c s Hscan EncoderFailure) as Herr. cbn [classify] in Herr.
    destruct (isEncoderFailed c s) as [r s1]. cbn [fst snd] in *. subst r.
    rewrite Println_eq. split; reflexivity.
  - apply periodicCheck_never_exits.
  - unfold Original.periodicCheck, bind.
    destruct (Original_isMonitorSleeping_error s Hscan) as (s1 & ->).
    rewrite Println_eq. split; reflexivity.
  - destruct (checkForMainLoop_unreadable sw Hopen) as (Hr & Hv & _ & Hl). auto.
  - apply wakeCycle_restarts_when_unreadable.
  - apply wakeOnConnectStep_never_exits.
Qed.

End AccessErrors.

(** ** Further properties of the code *)

Section TimestampsOfLines.
Context {lib : GoLib}.
Variable c : config.

Lemma Index_ge (s substr : string) : -1 <= Index s substr.
Proof.
  induction s as [|a s IH]; cbn [Index].
  - destruct (HasPrefix "" substr); lia.
  - destruct (HasPrefix (String a s) substr); [lia|].
    destruct (Index s substr =? -1) eqn:E; [lia|]. apply Z.eqb_neq in E. lia.
Qed.

Lemma HasPrefix_nil (s : string) : HasPrefix s "" = true.
Proof. now destruct s. Qed.

Lemma HasPrefix_char (a p : ascii) (s : string) :
  HasPrefix (String a s) (String p "") = Ascii.eqb a p.
Proof. cbn [HasPrefix]. now rewrite HasPrefix_nil, andb_true_r. Qed.

Lemma len_String (a : ascii) (s : string) : len (String a s) = len s + 1.
Proof. unfold len. cbn [String.length]. lia. Qed.

Lemma len_nonneg (s : string) : 0 <= len s.
Proof. unfold len. lia. Qed.

(** The first closing bracket of [stamp ++ "]" ++ rest], when [stamp]
    holds none, is the one written. *)
Lemma Index_bracket (stamp rest : string) :
  Index stamp "]" = -1 -> Index (stamp +++ String "]" rest) "]" = len stamp.
Proof.
  induction stamp as [|a st IH]; intros H.
  - change ("" +++ String "]" rest) with (String "]" rest).
    cbn [Index]. now rewrite HasPrefix_char.
  - change ((String a st) +++ String "]" rest) with (String a (st +++ String "]" rest)).
    cbn [Index] in *. rewrite HasPrefix_char in *.
    destruct (Ascii.eqb a "]"); [discriminate|].
    pose proof (Index_ge st "]") as Hge.
    destruct (Index st "]" =? -1) eqn:E; [apply Z.eqb_eq in E|apply Z.eqb_neq in E; lia].
    rewrite (IH E), len_String.
    pose proof (len_nonneg st).
    destruct (len st =? -1) eqn:E'; [apply Z.eqb_eq in E'; lia|reflexivity].
Qed.

Lemma Index_found (body : string) :
  Index body "]" <> -1 ->
  exists stamp rest,
    body = stamp +++ String "]" rest /\ Index stamp "]" = -1 /\
    Index body "]" = len stamp.
Proof.
  induction body as [|a b IH]; intros H.
  - now contradict H.
  - cbn [Index] in *. rewrite HasPrefix_char in *.
    destruct (Ascii.eqb_spec a "]") as [->|Hne].
    + exists "", b. auto.
    + destruct (Index b "]" =? -1) eqn:E; [now contradict H|apply Z.eqb_neq in E].
      destruct (IH E) as (stamp & rest & -> & Hnone & Hlen).
      exists (String a stamp), rest. split; [reflexivity|]. split.
      * cbn [Index]. rewrite HasPrefix_char.
        destruct (Ascii.eqb_spec a "]"); [contradiction|]. now rewrite Hnone.
      * rewrite Hlen, len_String. reflexivity.
Qed.

Lemma substring_prefix (stamp rest : string) :
  String.substring 0 (String.length stamp) (stamp +++ rest) = stamp.
Proof.
  induction stamp as [|a st IH].
  - cbn. now destruct rest.
  - change ((String a st) +++ rest) with (String a (st +++ rest)).
    cbn [String.length String.substring]. now rewrite IH.
Qed.

Lemma parse_between_brackets (stamp rest : string) :
  Index stamp "]" = -1 ->
  parseSunshineTimestamp (String "[" (stamp +++ String "]" rest))
  = ParseInLocation layoutSunshine stamp.
Proof.
  intros H. unfold parseSunshineTimestamp.
  assert (Hidx : Index (String "[" (stamp +++ String "]" rest)) "]" = len stamp + 1).
  { cbn [Index]. rewrite HasPrefix_char. cbn [Ascii.eqb Bool.eqb].
    rewrite (@Index_bracket stamp rest H). pose proof (len_nonneg stamp).
    destruct (len stamp =? -1) eqn:E; [apply Z.eqb_eq in E; lia|reflexivity]. }
  rewrite Hidx. rewrite HasPrefix_char. cbn [Ascii.eqb Bool.eqb negb orb].
  pose proof (len_nonneg stamp).
  destruct (len stamp + 1 =? -1) eqn:E; [apply Z.eqb_eq in E; lia|].
  unfold slice. replace (len stamp + 1 - 1) with (len stamp) by lia.
  unfold len. rewrite Nat2Z.id. change (Z.to_nat 1) with 1%nat.
  cbn [String.substring]. now rewrite substring_prefix.
Qed.

(** X1.  [parseSunshineTimestamp] hands to the time parser exactly the text
    between the opening bracket that starts the line and the first closing
    bracket; what follows that bracket is not looked at.  A timestamp is
    only ever returned for a line of that shape, and a line that does not
    start with an opening bracket, or holds no closing one, gets the
    bracket error without the parser being asked. *)
Theorem parseSunshineTimestamp_reads_between_brackets :
  (forall stamp rest,
      Index stamp "]" = -1 ->
      parseSunshineTimestamp ("[" +++ stamp +++ "]" +++ rest)
      = ParseInLocation layoutSunshine stamp) /\
  (forall line t,
      parseSunshineTimestamp line = Ok t ->
      exists stamp rest,
        line = "[" +++ stamp +++ "]" +++ rest /\
        Index stamp "]" = -1 /\
        ParseInLocation layoutSunshine stamp = Ok t) /\
  (forall line,
      HasPrefix line "[" = false \/ Index line "]" = -1 ->
      parseSunshineTimestamp line
      = Err "sunshine log line missing timestamp brackets").
Proof.
  split; [|split].
  - intros stamp rest H. apply parse_between_brackets. exact H.
  - intros line t H.
    assert (Hshape : HasPrefix line "[" = true /\ Index line "]" <> -1).
    { unfold parseSunshineTimestamp in H.
      destruct (HasPrefix line "["); [|discriminate]. split; [reflexivity|].
      cbn [negb orb] in H. destruct (Index line "]" =? -1) eqn:E; [discriminate|].
      now apply Z.eqb_neq. }
    destruct Hshape as [Hpre Hidx].
    destruct line as [|a body]; [discriminate|].
    rewrite HasPrefix_char in Hpre.
    apply Ascii.eqb_eq in Hpre. subst a.
    assert (Hbody : Index body "]" <> -1).
    { cbn [Index] in Hidx. rewrite HasPrefix_char in Hidx. cbn [Ascii.eqb Bool.eqb] in Hidx.
      destruct (Index body "]" =? -1) eqn:E; [now contradict Hidx|now apply Z.eqb_neq]. }
    destruct (@Index_found body Hbody) as (stamp & rest & -> & Hnone & _).
    exists stamp, rest. split; [reflexivity|]. split; [exact Hnone|].
    now rewrite <- (@parse_between_brackets stamp rest Hnone).
  - intros line H. unfold parseSunshineTimestamp.
    destruct H as [-> | ->]; [reflexivity|]. now rewrite orb_true_r.
Qed.

(** X2.  The scan loop returns the latest timestamp among the matching
    lines that parse, or the value it starts from when none is later: it is
    no smaller than either, it is one of them, and the order of the lines
    does not change it. *)
Theorem latestMatching_is_the_maximum (matches : string -> bool)
  (lines : list string) (t : Time) (s : State) :
  let latest := fst (latestMatching matches lines t s) in
  t <= latest /\
  (forall line entryTime,
      In line lines -> matches line = true ->
      parseSunshineTimestamp line = Ok entryTime -> entryTime <= latest) /\
  (latest = t \/
   exists line,
     In line lines /\ matches line = true /\
     parseSunshineTimestamp line = Ok latest) /\
  (forall lines' s',
      Permutation lines lines' ->
      fst (latestMatching matches lines' t s') = latest).
Proof.
  intros latest. subst latest. rewrite latestMatching_eq. cbn [fst].
  split; [apply latestOf_ge|]. split; [intros; eapply latestOf_bounds; eauto|].
  split; [apply latestOf_attained|].
  intros lines' s' Hperm. rewrite latestMatching_eq. cbn [fst].
  assert (Hle : forall l1 l2, Permutation l1 l2 ->
                              latestOf matches l1 t <= latestOf matches l2 t).
  { intros l1 l2 Hp.
    destruct (latestOf_attained matches l1 t) as [->|(line & Hin & Hm & Hparse)].
    - apply latestOf_ge.
    - apply latestOf_bounds with line; auto.
      now apply (Permutation_in _ Hp). }
  apply Z.le_antisymm; apply Hle; [now apply Permutation_sym|exact Hperm].
Qed.

End TimestampsOfLines.

Section Footprints.
Variable P : Event -> Prop.
Variable Q : string -> Prop.

Lemma emits_ret (A : Type) (a : A) : emits P Q (ret a).
Proof. intros s. exists [], []. cbn. now rewrite !app_nil_r. Qed.

Lemma emits_bind (A B : Type) (m : M A) (k : A -> M B) :
  emits P Q m -> (forall a, emits P Q (k a)) -> emits P Q (bind m k).
Proof.
  intros Hm Hk s. unfold bind. specialize (Hm s).
  destruct (m s) as [a s1]. cbn [snd] in *.
  destruct Hm as (c1 & m1 & T1 & L1 & P1 & Q1).
  destruct (Hk a s1) as (c2 & m2 & T2 & L2 & P2 & Q2).
  exists (c1 ++ c2), (m1 ++ m2).
  rewrite T2, T1, L2, L1, !app_assoc.
  repeat split; try reflexivity; apply Forall_app; auto.
Qed.

Lemma emits_syscall (A : Type) answer ev effect :
  (forall a, P (ev a)) -> emits P Q (@syscall A answer ev effect).
Proof.
  intros H s. unfold syscall. cbn. eexists. exists [].
  split; [reflexivity|]. split; [now rewrite app_nil_r|]. auto.
Qed.

Lemma emits_Println (msg : string) : Q msg -> emits P Q (Println msg).
Proof.
  intros H s. unfold Println. cbn. exists []. eexists.
  split; [now rewrite app_nil_r|]. split; [reflexivity|]. auto.
Qed.

Lemma emits_getv (A : Type) (f : Globals -> A) : emits P Q (getv f).
Proof. intros s. exists [], []. cbn. now rewrite !app_nil_r. Qed.

Lemma emits_setv (upd : Globals -> Globals) : emits P Q (setv upd).
Proof. intros s. exists [], []. cbn. now rewrite !app_nil_r. Qed.

End Footprints.

Section Keeping.
Variables (B : Type) (f : Globals -> B).

Lemma keeps_ret (A : Type) (a : A) : keeps f (ret a).
Proof. intros s. reflexivity. Qed.

Lemma keeps_bind (A A' : Type) (m : M A) (k : A -> M A') :
  keeps f m -> (forall a, keeps f (k a)) -> keeps f (bind m k).
Proof.
  intros Hm Hk s. unfold bind. specialize (Hm s).
  destruct (m s) as [a s1]. cbn [snd] in *. now rewrite Hk.
Qed.

Lemma keeps_syscall (A : Type) answer ev effect :
  keeps f (@syscall A answer ev effect).
Proof. intros s. reflexivity. Qed.

Lemma keeps_Println (msg : string) : keeps f (Println msg).
Proof. intros s. reflexivity. Qed.

Lemma keeps_getv (A : Type) (h : Globals -> A) : keeps f (getv h).
Proof. intros s. reflexivity. Qed.

Lemma keeps_setv (upd : Globals -> Globals) :
  (forall g, f (upd g) = f g) -> keeps f (setv upd).
Proof. intros H s. cbn. apply H. Qed.

End Keeping.

Ltac emits_step side :=
  first
    [ apply emits_ret
    | apply emits_getv
    | apply emits_setv
    | apply emits_Println; solve [side]
    | apply emits_syscall; solve [side]
    | solve [auto]
    | apply emits_bind; [|intros ?]
    | match goal with
      | |- emits _ _ (match ?x with _ => _ end) => destruct x
      | |- emits _ _ (if ?x then _ else _) => destruct x
      | |- emits _ _ (let '(_, _) := ?x in _) => destruct x
      end ].

Ltac keeps_step :=
  first
    [ apply keeps_ret
    | apply keeps_Println
    | apply keeps_getv
    | apply keeps_syscall
    | apply keeps_setv; solve [auto | intros; reflexivity]
    | solve [auto]
    | apply keeps_bind; [|intros ?]
    | match goal with
      | |- keeps _ (match ?x with _ => _ end) => destruct x
      | |- keeps _ (if ?x then _ else _) => destruct x
      | |- keeps _ (let '(_, _) := ?x in _) => destruct x
      end ].

Ltac keeps_all := repeat keeps_step.

Section Untouching.
Context {lib : GoLib}.
Variable c : config.

(** *** What each function leaves alone *)

Section Untouched.
Variables (B : Type) (f : Globals -> B).
Hypothesis f_position : forall v g, f (set_lastLogPosition v g) = f g.
Hypothesis f_mainLoop : forall v g, f (set_lastMainLoopTime v g) = f g.

Lemma keeps_Run (argv : list string) : keeps f (Run argv).
Proof. unfold Run. keeps_all. Qed.

Lemma keeps_Sleep (d : Duration) : keeps f (Sleep d).
Proof. unfold Sleep. keeps_all. Qed.

Lemma keeps_pollServiceActive (serviceName : string) (n : nat) :
  keeps f (pollServiceActive serviceName n).
Proof.
  induction n as [|n IH]; cbn [pollServiceActive]; unfold Run, Sleep; keeps_all.
Qed.

Lemma keeps_restart : keeps f restartSunshineSystemctlOnly.
Proof.
  unfold restartSunshineSystemctlOnly, waitForServiceActive, Run.
  pose proof keeps_pollServiceActive. keeps_all.
Qed.

Lemma keeps_detectSunshineRunning : keeps f detectSunshineRunning.
Proof. unfold detectSunshineRunning, Run. keeps_all. Qed.

Lemma keeps_shouldWakeMonitor (d : Duration) : keeps f (shouldWakeMonitor d).
Proof. unfold shouldWakeMonitor, Since, Now. keeps_all. Qed.

Lemma keeps_checkForLogActivity : keeps f (checkForLogActivity c).
Proof. unfold checkForLogActivity, Stat. keeps_all. Qed.

Lemma keeps_findMainLoop (lines : list string) : keeps f (findMainLoop lines).
Proof.
  induction lines as [|line rest IH]; cbn [findMainLoop]; unfold Now; keeps_all.
Qed.

Lemma keeps_checkForMainLoop : keeps f (checkForMainLoop c).
Proof.
  unfold checkForMainLoop, Open. pose proof keeps_findMainLoop. keeps_all.
Qed.

Lemma keeps_wakeMonitor : keeps f (wakeMonitor c).
Proof. unfold wakeMonitor, Run. keeps_all. Qed.

Lemma keeps_tryWakeMethods (methods : list (list string)) :
  keeps f (tryWakeMethods methods).
Proof.
  induction methods as [|args rest IH]; cbn [tryWakeMethods]; unfold Run; keeps_all.
Qed.

Lemma keeps_alternativeWakeMethod : keeps f alternativeWakeMethod.
Proof. unfold alternativeWakeMethod. pose proof keeps_tryWakeMethods. keeps_all. Qed.

Lemma keeps_latestMatching (matches : string -> bool) (lines : list string) :
  forall t, keeps f (latestMatching matches lines t).
Proof.
  induction lines as [|line rest IH]; intros t; cbn [latestMatching]; keeps_all.
Qed.

Lemma keeps_handleCorruptedLog : keeps f (handleCorruptedLog c).
Proof. unfold handleCorruptedLog, Truncate. pose proof keeps_restart. keeps_all. Qed.

End Untouched.

(** The variables a tick of the periodic loop may write are [lastLogSize],
    [lastEncoderFailureTime], [lastLogPosition] and [lastMainLoopTime]. *)
Lemma keeps_periodicCheck (B : Type) (f : Globals -> B) :
  (forall v g, f (set_lastLogSize v g) = f g) ->
  (forall v g, f (set_lastEncoderFailureTime v g) = f g) ->
  (forall v g, f (set_lastLogPosition v g) = f g) ->
  (forall v g, f (set_lastMainLoopTime v g) = f g) ->
  keeps f (periodicCheck c).
Proof.
  intros Hs He Hp Hm.
  unfold periodicCheck, isEncoderFailed, Stat, Open.
  pose proof (keeps_restart f Hp Hm).
  pose proof (keeps_latestMatching f).
  pose proof (keeps_handleCorruptedLog f Hp Hm).
  keeps_all.
Qed.

(** Those an iteration of the wake loop may write are [lastMainLoopTime],
    [lastWakeTime], [lastLogPosition] and [inWakeCycle]. *)
Lemma keeps_wakeOnConnectStep (B : Type) (f : Globals -> B) :
  (forall v g, f (set_lastMainLoopTime v g) = f g) ->
  (forall v g, f (set_lastWakeTime v g) = f g) ->
  (forall v g, f (set_lastLogPosition v g) = f g) ->
  (forall v g, f (set_inWakeCycle v g) = f g) ->
  keeps f (wakeOnConnectStep c).
Proof.
  intros Hm Hw Hp Hf.
  unfold wakeOnConnectStep, wakeCycle, Now.
  pose proof (keeps_restart f Hp Hm).
  pose proof (keeps_detectSunshineRunning f).
  pose proof (keeps_shouldWakeMonitor f).
  pose proof (keeps_checkForLogActivity f Hp).
  pose proof (keeps_checkForMainLoop f Hm).
  pose proof (keeps_wakeMonitor f).
  pose proof (keeps_alternativeWakeMethod f).
  pose proof (keeps_Sleep f).
  keeps_all.
Qed.

End Untouching.

Lemma HasPrefix_append (p e : string) : HasPrefix (p +++ e) p = true.
Proof.
  induction p as [|a p IH].
  - apply HasPrefix_nil.
  - change (String a p +++ e) with (String a (p +++ e)).
    cbn [HasPrefix]. now rewrite Ascii.eqb_refl, IH.
Qed.

(** A line that starts with [p] is not a line that does not. *)
Lemma differs_by_prefix (p e m : string) : HasPrefix m p = false -> p +++ e <> m.
Proof. intros H <-. now rewrite HasPrefix_append in H. Qed.

Section LoopVariables.
Context {lib : GoLib}.
Variable c : config.

(** X3.  What each loop of [main.go] leaves alone.  A tick of the periodic
    loop leaves [lastMonitorMissingTime], [lastWakeTime] and [inWakeCycle]
    as they were; an iteration of the wake loop leaves [lastLogSize],
    [lastMonitorMissingTime] and [lastEncoderFailureTime] as they were.
    Nothing is said of [lastLogPosition] and [lastMainLoopTime]: the restart
    through systemctl resets them, and both loops restart. *)
Theorem loops_leave_variables_untouched (s : State) :
  let p := vars (snd (periodicCheck c s)) in
  let w := vars (snd (wakeOnConnectStep c s)) in
  (lastMonitorMissingTime p = lastMonitorMissingTime (vars s) /\
   lastWakeTime p = lastWakeTime (vars s) /\
   inWakeCycle p = inWakeCycle (vars s)) /\
  (lastLogSize w = lastLogSize (vars s) /\
   lastMonitorMissingTime w = lastMonitorMissingTime (vars s) /\
   lastEncoderFailureTime w = lastEncoderFailureTime (vars s)).
Proof.
  cbv zeta. split.
  - set (f := fun g => (lastMonitorMissingTime g, lastWakeTime g, inWakeCycle g)).
    assert (H : keeps f (periodicCheck c)) by (apply keeps_periodicCheck; reflexivity).
    specialize (H s). unfold f in H. injection H as H1 H2 H3. auto.
  - set (f := fun g => (lastLogSize g, lastMonitorMissingTime g, lastEncoderFailureTime g)).
    assert (H : keeps f (wakeOnConnectStep c)) by (apply keeps_wakeOnConnectStep; reflexivity).
    specialize (H s). unfold f in H. injection H as H1 H2 H3. auto.
Qed.

End LoopVariables.

Section WakeFlag.
Context {lib : GoLib}.
Variable c : config.

Section CrashCheck.


Ltac quiet_side :=
  first [ intros; exact I
        | unfold quiet, crashMessage; discriminate
        | unfold quiet, crashMessage; apply differs_by_prefix; reflexivity ].

Ltac quiet_all := repeat emits_step quiet_side.

Lemma quiet_Sleep (d : Duration) : emits anyCall quiet (Sleep d).
Proof. unfold Sleep. quiet_all. Qed.

Lemma quiet_pollServiceActive (n : nat) :
  emits anyCall quiet (pollServiceActive "sunshine" n).
Proof.
  induction n as [|n IH]; cbn [pollServiceActive]; unfold Run, Sleep; quiet_all.
Qed.

Lemma quiet_restart : emits anyCall quiet restartSunshineSystemctlOnly.
Proof.
  unfold restartSunshineSystemctlOnly, waitForServiceActive, Run.
  pose proof quiet_pollServiceActive. quiet_all.
Qed.

Lemma quiet_detectSunshineRunning : emits anyCall quiet detectSunshineRunning.
Proof. unfold detectSunshineRunning, Run. quiet_all. Qed.

Lemma quiet_shouldWakeMonitor (d : Duration) :
  emits anyCall quiet (shouldWakeMonitor d).
Proof. unfold shouldWakeMonitor, Since, Now. quiet_all. Qed.

Lemma quiet_checkForLogActivity : emits anyCall quiet (checkForLogActivity c).
Proof. unfold checkForLogActivity, Stat. quiet_all. Qed.

Lemma quiet_findMainLoop (lines : list string) :
  emits anyCall quiet (findMainLoop lines).
Proof.
  induction lines as [|line rest IH]; cbn [findMainLoop]; unfold Now; quiet_all.
Qed.

Lemma quiet_tryWakeMethods (methods : list (list string)) :
  emits anyCall quiet (tryWakeMethods methods).
Proof.
  induction methods as [|args rest IH]; cbn [tryWakeMethods]; unfold Run; quiet_all.
Qed.

Lemma quiet_wakeCycle (waitSeconds : Z) :
  emits anyCall quiet (wakeCycle c waitSeconds).
Proof.
  unfold wakeCycle, wakeMonitor, alternativeWakeMethod, checkForMainLoop,
    Run, Now, Open.
  pose proof quiet_restart. pose proof quiet_findMainLoop.
  pose proof quiet_tryWakeMethods. pose proof quiet_Sleep.
  quiet_all.
Qed.

(** A wake cycle ends with the flag cleared. *)
Lemma wakeCycle_clears_flag (waitSeconds : Z) (s : State) :
  inWakeCycle (vars (snd (wakeCycle c waitSeconds s))) = false.
Proof.
  unfold wakeCycle.
  repeat match goal with
         | |- context [bind ?m ?k ?s] =>
             unfold bind at 1; destruct (m s) as [? ?]
         end.
  reflexivity.
Qed.

Lemma good_quiet (s0 s s' : State) :
  (exists more, logged (world s') = logged (world s) ++ more /\ Forall quiet more) ->
  inWakeCycle (vars s') = false ->
  flagDownAndQuiet s0 s -> flagDownAndQuiet s0 s'.
Proof.
  intros (more & Hl' & Hq) Hflag (_ & msgs & Hl & Hno).
  split; [exact Hflag|].
  exists (msgs ++ more). rewrite Hl', Hl, app_assoc. split; [reflexivity|].
  intros Hin. apply in_app_or in Hin. destruct Hin as [Hin|Hin]; [auto|].
  rewrite Forall_forall in Hq. exact (Hq _ Hin eq_refl).
Qed.

Lemma good_step (A : Type) (m : M A) (s0 s : State) :
  emits anyCall quiet m -> keeps inWakeCycle m ->
  flagDownAndQuiet s0 s -> flagDownAndQuiet s0 (snd (m s)).
Proof.
  intros Hm Hk Hg. apply good_quiet with s; [| |exact Hg].
  - destruct (Hm s) as (_ & more & _ & Hl & _ & Hq). eauto.
  - rewrite Hk. exact (proj1 Hg).
Qed.

(** X4.  The crash check of the wake loop never fires.  An iteration of
    [runWakeOnConnect] that starts with [inWakeCycle] false ends with it
    false (the flag is set and cleared inside the wake branch, before the
    check reads it) and never prints the crash message; the periodic loop
    never writes the flag. *)
Theorem crash_check_never_fires (s : State) :
  inWakeCycle (vars s) = false ->
  let s' := snd (wakeOnConnectStep c s) in
  (inWakeCycle (vars s') = false /\
   exists msgs,
     logged (world s') = logged (world s) ++ msgs /\
     ~ In crashMessage msgs) /\
  inWakeCycle (vars (snd (periodicCheck c s))) = false.
Proof.
  intros Hflag. cbv zeta.
  assert (Hp : forall v g, inWakeCycle (set_lastLogPosition v g) = inWakeCycle g)
    by reflexivity.
  assert (Hm : forall v g, inWakeCycle (set_lastMainLoopTime v g) = inWakeCycle g)
    by reflexivity.
  split.
  2:{ rewrite (@keeps_periodicCheck lib c _ inWakeCycle); auto. }
  fold (flagDownAndQuiet s (snd (wakeOnConnectStep c s))).
  assert (G0 : flagDownAndQuiet s s).
  { split; [exact Hflag|]. exists []. now rewrite app_nil_r. }
  unfold wakeOnConnectStep, bind.
  pose proof (good_step quiet_detectSunshineRunning
                (keeps_detectSunshineRunning inWakeCycle) G0) as G1.
  destruct (detectSunshineRunning s) as [running s1]; cbn [snd] in G1.
  destruct running; cbn [negb].
  - pose proof (good_step (quiet_shouldWakeMonitor (2 * Minute))
                  (keeps_shouldWakeMonitor inWakeCycle (2 * Minute)) G1) as G2.
    destruct (shouldWakeMonitor (2 * Minute) s1) as [wake s2]; cbn [snd] in G2.
    assert (exists s3, (if wake then wakeCycle c 15 else ret tt) s2 = (tt, s3)
                       /\ flagDownAndQuiet s s3) as (s3 & -> & G3).
    { destruct wake.
      - pose proof (wakeCycle_clears_flag 15 s2) as Hclear.
        destruct (quiet_wakeCycle 15 s2) as (_ & more & _ & Hl & _ & Hq).
        destruct (wakeCycle c 15 s2) as [[] s3]; cbn [snd] in *.
        exists s3. split; [reflexivity|].
        apply good_quiet with s2; eauto.
      - exists s2. split; [reflexivity|exact G2]. }
    unfold getv, ret. cbn beta iota. rewrite (proj1 G3). cbn beta iota.
    pose proof (good_step quiet_checkForLogActivity
                  (keeps_checkForLogActivity c inWakeCycle Hp) G3) as G4.
    destruct (checkForLogActivity c s3) as [activity s4]; cbn [snd] in G4.
    destruct activity.
    + pose proof (good_step (quiet_Sleep (500 * Millisecond))
                    (keeps_Sleep inWakeCycle (500 * Millisecond)) G4) as G5.
      destruct (Sleep (500 * Millisecond) s4) as [u s5]. exact G5.
    + pose proof (good_step (quiet_Sleep (int64 (SunriseCheckSeconds c * Second)))
                    (keeps_Sleep inWakeCycle _) G4) as G5.
      destruct (Sleep _ s4) as [u s5]. exact G5.
  - assert (G2 : flagDownAndQuiet s (snd (Println "Sunshine not running - restarting..." s1))).
    { apply good_step; [|apply keeps_Println|exact G1].
      apply emits_Println. unfold quiet, crashMessage. discriminate. }
    destruct (Println _ s1) as [u s2]; cbn [snd] in G2.
    pose proof (good_step quiet_restart (keeps_restart inWakeCycle Hp Hm) G2) as G3.
    destruct (restartSunshineSystemctlOnly s2) as [r s3]; cbn [snd] in G3.
    pose proof (good_step (quiet_Sleep (10 * Second))
                  (keeps_Sleep inWakeCycle (10 * Second)) G3) as G4.
    destruct (Sleep (10 * Second) s3) as [u' s4]. exact G4.
Qed.

End CrashCheck.
End WakeFlag.

Section WakeLoopParts.
Context {lib : GoLib}.
Variable c : config.

Lemma statAnswer_file (path : string) (e : Env) (fs : string -> option string)
  (t : nat) (size : Z) :
  statAnswer path e fs t = Ok size ->
  exists data, fs path = Some data /\ size = len data.
Proof.
  unfold statAnswer. destruct (stat_fault e t path); [discriminate|].
  destruct (fs path) as [data|]; [|discriminate].
  intros H. injection H as <-. eauto.
Qed.

Lemma statAnswer_same_file (path : string) (e e2 : Env)
  (fs fs2 : string -> option string) (t t2 : nat) (size size2 : Z) :
  statAnswer path e fs t = Ok size ->
  fs2 path = fs path ->
  statAnswer path e2 fs2 t2 = Ok size2 ->
  size2 = size.
Proof.
  intros H1 Hsame H2.
  destruct (statAnswer_file _ _ _ _ H1) as (d1 & F1 & ->).
  destruct (statAnswer_file _ _ _ _ H2) as (d2 & F2 & ->).
  congruence.
Qed.

Lemma checkForLogActivity_eq (st : State) :
  checkForLogActivity c st
  = match statAnswer (SunshineLogPath c) (env (world st)) (files (world st))
            (tick (world st)) with
    | Err e =>
        (false,
         {| vars := vars st;
            world := {| files := files (world st); env := env (world st);
                        trace := trace (world st)
                                 ++ [EvStat (SunshineLogPath c) (Err e)];
                        logged := logged (world st) |} |})
    | Ok size =>
        let w1 := {| files := files (world st); env := env (world st);
                     trace := trace (world st)
                              ++ [EvStat (SunshineLogPath c) (Ok size)];
                     logged := logged (world st) |} in
        if lastLogPosition (vars st) <? size
        then (true, {| vars := set_lastLogPosition size (vars st); world := w1 |})
        else (false, {| vars := vars st; world := w1 |})
    end.
Proof.
  unfold checkForLogActivity. unfold_os. state_simpl.
  destruct (statAnswer _ _ _ _) as [size|e]; state_simpl; [|reflexivity].
  destruct (lastLogPosition (vars st) <? size); reflexivity.
Qed.

(** X5.  [checkForLogActivity] reports activity exactly when [os.Stat]
    succeeds with a size above [lastLogPosition], and then moves
    [lastLogPosition] up to that size; otherwise it changes nothing.
    [lastLogPosition] never goes down, the log itself is left alone, and
    asking again about a log that has not changed reports no activity. *)
Theorem checkForLogActivity_reports_growth (s : State) :
  let w := world s in
  let path := SunshineLogPath c in
  let r := fst (checkForLogActivity c s) in
  let s' := snd (checkForLogActivity c s) in
  (r = true <->
   exists size,
     statAnswer path (env w) (files w) (tick w) = Ok size /\
     lastLogPosition (vars s) < size) /\
  (r = true ->
   statAnswer path (env w) (files w) (tick w) = Ok (lastLogPosition (vars s')) /\
   vars s' = set_lastLogPosition (lastLogPosition (vars s')) (vars s)) /\
  (r = false -> vars s' = vars s) /\
  lastLogPosition (vars s) <= lastLogPosition (vars s') /\
  files (world s') = files w /\
  (forall s2 size,
      statAnswer path (env w) (files w) (tick w) = Ok size ->
      vars s2 = vars s' ->
      files (world s2) path = files w path ->
      fst (checkForLogActivity c s2) = false).
Proof.
  cbv zeta.
  pose proof checkForLogActivity_eq as Hcall.
  rewrite Hcall.
  destruct (statAnswer (SunshineLogPath c) (env (world s)) (files (world s))
              (tick (world s))) as [size|e] eqn:Hstat.
  - cbv zeta. destruct (lastLogPosition (vars s) <? size) eqn:Hgrow; cbn [fst snd vars world files].
    + apply Z.ltb_lt in Hgrow.
      split; [split; [intros _; exists size; auto|reflexivity]|].
      split; [intros _; split; reflexivity|]. split; [discriminate|].
      split; [cbn; lia|]. split; [reflexivity|].
      intros s2 size0 H0 Hv Hf. injection H0 as <-.
      rewrite Hcall.
      destruct (statAnswer _ (env (world s2)) _ _) as [size2|e2] eqn:Hstat2; [|reflexivity].
      rewrite (statAnswer_same_file _ _ _ _ _ _ _ Hstat Hf Hstat2).
      cbv zeta. rewrite Hv. cbn. now rewrite Z.ltb_irrefl.
    + apply Z.ltb_ge in Hgrow.
      split; [split; [discriminate|]|].
      { intros (size0 & H0 & Hlt). injection H0 as <-. lia. }
      split; [discriminate|]. split; [reflexivity|]. split; [lia|].
      split; [reflexivity|].
      intros s2 size0 H0 Hv Hf. injection H0 as <-.
      rewrite Hcall.
      destruct (statAnswer _ (env (world s2)) _ _) as [size2|e2] eqn:Hstat2; [|reflexivity].
      rewrite (statAnswer_same_file _ _ _ _ _ _ _ Hstat Hf Hstat2).
      cbv zeta. rewrite Hv. cbn [vars].
      destruct (lastLogPosition (vars s) <? size) eqn:E; [apply Z.ltb_lt in E; lia|reflexivity].
  - cbn [fst snd vars world files].
    split; [split; [discriminate|intros (size0 & H0 & _); discriminate]|].
    split; [discriminate|]. split; [reflexivity|]. split; [lia|].
    split; [reflexivity|]. intros s2 size0 H0. discriminate.
Qed.

(** The scan loop of [checkForMainLoop] stops at the first line that holds
    the marker. *)
Lemma findMainLoop_first (lines : list string) (s : State) :
  match find (fun line => Contains line "Starting main loop") lines with
  | None => findMainLoop lines s = (false, s)
  | Some line =>
      match parseSunshineTimestamp line with
      | Ok entryTime =>
          findMainLoop lines s
          = (true, {| vars := set_lastMainLoopTime entryTime (vars s);
                      world := world s |})
      | Err _ =>
          let now := wall_clock (env (world s)) (tick (world s)) in
          findMainLoop lines s
          = (true, {| vars := set_lastMainLoopTime now (vars s);
                      world := {| files := files (world s); env := env (world s);
                                  trace := trace (world s) ++ [EvNow now];
                                  logged := logged (world s) |} |})
      end
  end.
Proof.
  induction lines as [|line rest IH]; cbn [find findMainLoop].
  - reflexivity.
  - destruct (Contains line "Starting main loop"); [|exact IH].
    destruct (parseSunshineTimestamp line); reflexivity.
Qed.

(** X6.  When the log opens, [checkForMainLoop] answers whether some line
    read holds "Starting main loop".  It stops at the first such line:
    [lastMainLoopTime] becomes the timestamp of that line, or the clock
    reading when the line has no timestamp that parses; later marker lines
    are not looked at.  Whatever error ends the reading (a line too long
    included) is ignored: nothing is printed, the log is left as it is and
    no command is run. *)
Theorem checkForMainLoop_takes_first_marker (s : State) (f : File) :
  let w := world s in
  let path := SunshineLogPath c in
  openAnswer path (env w) (files w) (tick w) = Ok f ->
  let r := fst (checkForMainLoop c s) in
  let s' := snd (checkForMainLoop c s) in
  files (world s') = files w /\
  logged (world s') = logged w /\
  match find (fun line => Contains line "Starting main loop")
             (fst (Scanner (1024 * 1024) f)) with
  | None =>
      r = false /\ vars s' = vars s /\
      trace (world s') = trace w ++ [EvOpen path None]
  | Some line =>
      r = true /\
      match parseSunshineTimestamp line with
      | Ok entryTime =>
          vars s' = set_lastMainLoopTime entryTime (vars s) /\
          trace (world s') = trace w ++ [EvOpen path None]
      | Err _ =>
          let now := wall_clock (env w) (S (tick w)) in
          vars s' = set_lastMainLoopTime now (vars s) /\
          trace (world s') = trace w ++ [EvOpen path None; EvNow now]
      end
  end.
Proof.
  cbv zeta. intros Hopen. unfold checkForMainLoop. unfold_os. state_simpl.
  rewrite Hopen. state_simpl.
  match goal with |- context [findMainLoop ?l ?st] =>
    pose proof (findMainLoop_first l st) as H end.
  destruct (find _ _) as [line|].
  - destruct (parseSunshineTimestamp line) as [entryTime|e].
    + rewrite H. state_simpl. auto.
    + cbv zeta in H. rewrite H. state_simpl.
      unfold tick. state_simpl. rewrite last_length, <- app_assoc. auto.
  - rewrite H. state_simpl. auto.
Qed.

(** X7.  [alternativeWakeMethod] tries the pointer move first and the key
    press only when the pointer move failed; it returns [nil] as soon as
    one of them succeeds.  When both fail the errors of the commands are
    dropped for a fixed one.  It writes no variable. *)
Theorem alternativeWakeMethod_tries_in_order (s : State) :
  let w := world s in
  let move := ["ydotool"; "mousemove"; "--absolute"; "100"; "100"] in
  let key := ["ydotool"; "key"; "65"] in
  let r2 := run_result (env w) (S (tick w)) key in
  let r := fst (alternativeWakeMethod s) in
  let s' := snd (alternativeWakeMethod s) in
  vars s' = vars s /\
  files (world s') = files w /\
  match run_result (env w) (tick w) move with
  | None =>
      r = None /\ trace (world s') = trace w ++ [EvRun move None]
  | Some e1 =>
      trace (world s') = trace w ++ [EvRun move (Some e1); EvRun key r2] /\
      r = match r2 with
          | None => None
          | Some _ => Some "all alternative wake methods failed"
          end
  end.
Proof.
  cbv zeta. unfold alternativeWakeMethod. cbn [tryWakeMethods]. unfold_os. state_simpl.
  destruct (run_result (env (world s)) (Datatypes.length (trace (world s))) _) as [e1|];
    state_simpl; [|auto].
  rewrite last_length.
  destruct (run_result (env (world s)) (S (Datatypes.length (trace (world s)))) _) as [e2|];
    state_simpl; rewrite <- app_assoc; auto.
Qed.

End WakeLoopParts.

Section RestartAndCooldown.
Context {lib : GoLib}.
Variable c : config.

Lemma runsOnward_detectSunshineRunning : runsOnward detectSunshineRunning.
Proof. unfold detectSunshineRunning, Run. onward_all. Qed.

Lemma runsOnward_shouldWakeMonitor (d : Duration) : runsOnward (shouldWakeMonitor d).
Proof. unfold shouldWakeMonitor, Since, Now. onward_all. Qed.

Lemma runsOnward_checkForLogActivity : runsOnward (checkForLogActivity c).
Proof. unfold checkForLogActivity, Stat. onward_all. Qed.

Lemma runsOnward_findMainLoop (lines : list string) : runsOnward (findMainLoop lines).
Proof.
  induction lines as [|line rest IH]; cbn [findMainLoop]; unfold Now; onward_all.
Qed.

Lemma runsOnward_checkForMainLoop : runsOnward (checkForMainLoop c).
Proof.
  unfold checkForMainLoop, Open. pose proof runsOnward_findMainLoop. onward_all.
Qed.

Lemma runsOnward_wakeCycle (waitSeconds : Z) : runsOnward (wakeCycle c waitSeconds).
Proof.
  unfold wakeCycle, Now.
  pose proof (runsOnward_wakeMonitor c). pose proof runsOnward_alternativeWakeMethod.
  pose proof runsOnward_checkForMainLoop. pose proof runsOnward_restart.
  pose proof runsOnward_Sleep.
  onward_all.
Qed.

(** The outcome of a restart on the variables and the files. *)
Lemma restart_outcome (s : State) :
  files (world (snd (restartSunshineSystemctlOnly s))) = files (world s) /\
  vars (snd (restartSunshineSystemctlOnly s))
  = match fst (restartSunshineSystemctlOnly s) with
    | None => set_lastMainLoopTime zeroTime (set_lastLogPosition 0 (vars s))
    | Some _ => vars s
    end.
Proof.
  unfold restartSunshineSystemctlOnly, waitForServiceActive.
  unfold_os. state_simpl.
  destruct (run_result (env (world s)) (Datatypes.length (trace (world s))) _) as [e|];
    state_simpl; [auto|].
  match goal with |- context [pollServiceActive "sunshine" ?n ?s1] =>
    change n with 30%nat; set (s1' := s1) end.
  destruct (pollServiceActive_spec "sunshine" 30 s1')
    as [(k & s' & _ & _ & _ & Heq & Hreach & _)|(s' & _ & Heq & Hreach & _)];
    rewrite Heq; state_simpl; destruct Hreach as (Hv & Hf & _); subst s1';
    state_simpl; rewrite Hv, Hf; auto.
Qed.

(** X8.  A restart through systemctl that succeeds sets [lastLogPosition]
    to 0 and [lastMainLoopTime] to the zero time and writes no other
    variable; one that fails writes none.  It never touches the log.  So
    after a successful restart [checkForLogActivity] reports activity as
    soon as the log it is shown is not empty. *)
Theorem restart_resets_wake_tracking (s : State) :
  let r := fst (restartSunshineSystemctlOnly s) in
  let s' := snd (restartSunshineSystemctlOnly s) in
  files (world s') = files (world s) /\
  (r = None ->
   vars s' = set_lastMainLoopTime zeroTime (set_lastLogPosition 0 (vars s))) /\
  (r <> None -> vars s' = vars s) /\
  (r = None ->
   forall s2 size,
     vars s2 = vars s' ->
     statAnswer (SunshineLogPath c) (env (world s2)) (files (world s2)) (tick (world s2))
     = Ok size ->
     (fst (checkForLogActivity c s2) = true <-> 0 < size)).
Proof.
  cbv zeta. destruct (restart_outcome s) as [Hf Hv].
  split; [exact Hf|].
  destruct (fst (restartSunshineSystemctlOnly s)) as [e|].
  - split; [discriminate|]. split; [auto|discriminate].
  - split; [auto|]. split; [intros H; now contradict H|].
    intros _ s2 size Hv2 Hstat. rewrite checkForLogActivity_eq, Hstat. cbv zeta.
    rewrite Hv2, Hv. cbn [lastLogPosition set_lastMainLoopTime set_lastLogPosition].
    destruct (0 <? size) eqn:E; cbn [fst];
      [apply Z.ltb_lt in E|apply Z.ltb_ge in E]; split; auto; try lia; discriminate.
Qed.

Lemma shouldWakeMonitor_cooling (d : Duration) (s : State) :
  minDuration < d <= maxDuration ->
  wall_clock (env (world s)) (S (tick (world s))) - lastWakeTime (vars s) < d ->
  fst (shouldWakeMonitor d s) = false.
Proof.
  intros Hrange Hcool. unfold shouldWakeMonitor, Since. unfold_os. state_simpl.
  destruct (Sub _ (lastMainLoopTime (vars s)) <? d); state_simpl; [reflexivity|].
  rewrite last_length. rewrite (Sub_lt _ _ Hrange).
  apply Z.ltb_lt in Hcool. rewrite Hcool. reflexivity.
Qed.

(** X9.  Every wake cycle starts the cooldown, whether or not a wake
    command succeeded: after the wake attempts it reads the clock, stores
    the reading in [lastWakeTime], and sleeps for [waitSeconds]; the
    liveness check and the restart that may follow leave [lastWakeTime]
    alone.  From the variables it leaves, [shouldWakeMonitor] refuses to
    wake for as long as the clock is within the cooldown of that reading. *)
Theorem wake_cycle_starts_cooldown (waitSeconds : Z) (s : State) :
  let s' := snd (wakeCycle c waitSeconds s) in
  exists before woke after,
    trace (world s')
    = trace (world s) ++ before
      ++ EvNow woke :: EvSleep (int64 (waitSeconds * Second)) :: after /\
    lastWakeTime (vars s') = woke /\
    (forall cooldownPeriod s2,
        minDuration < cooldownPeriod <= maxDuration ->
        vars s2 = vars s' ->
        wall_clock (env (world s2)) (S (tick (world s2))) - woke < cooldownPeriod ->
        fst (shouldWakeMonitor cooldownPeriod s2) = false).
Proof.
  cbv zeta.
  remember (wakeCycle c waitSeconds s) as result eqn:Hend.
  unfold wakeCycle, bind in Hend. rewrite Println_eq in Hend.
  unfold setv at 1 in Hend. cbn [fst snd] in Hend.
  match type of Hend with context [wakeMonitor c ?st] => set (s1 := st) in Hend end.
  assert (H01 : onward s s1).
  { unfold onward. subst s1. state_simpl. split; [reflexivity|]. split; eauto.
    exists []. now rewrite app_nil_r. }
  pose proof (runsOnward_wakeMonitor c s1) as H12.
  destruct (wakeMonitor c s1) as [err s2]. cbn [snd] in H12.
  assert (exists s3,
             onward s2 s3 /\
             (match err with
              | Some e =>
                  Println ("Primary wake failed: " +++ e) ;;
                  err0 <- alternativeWakeMethod ;;
                  match err0 with
                  | Some e0 => Println ("Alternative wake also failed: " +++ e0)
                  | None => ret tt
                  end
              | None => ret tt
              end) s2 = (tt, s3)) as (s3 & H23 & Heq).
  { destruct err as [e|].
    - unfold bind. rewrite Println_eq.
      pose proof (runsOnward_alternativeWakeMethod (addLogs ["Primary wake failed: " +++ e] s2)) as Ha.
      destruct (alternativeWakeMethod _) as [[e0|] sa]; cbn [snd] in Ha.
      + rewrite Println_eq.
        exists (addLogs ["Alternative wake also failed: " +++ e0] sa).
        split; [|reflexivity].
        eapply onward_trans; [apply (runsOnward_Println ("Primary wake failed: " +++ e) s2)|].
        eapply onward_trans; [exact Ha|].
        apply (runsOnward_Println ("Alternative wake also failed: " +++ e0) sa).
      + exists sa. split; [|reflexivity].
        eapply onward_trans;
          [apply (runsOnward_Println ("Primary wake failed: " +++ e) s2)|exact Ha].
    - exists s2. split; [apply onward_refl|reflexivity]. }
  unfold bind in Heq. rewrite Heq in Hend. clear Heq.
  assert (H03 : onward s s3) by eauto using onward_trans.
  destruct H03 as (_ & (before & Hbefore) & _).
  unfold Now, Sleep, syscall, setv, bind, ret, unchanged in Hend.
  rewrite !Println_eq in Hend.
  cbn [fst snd vars world env files trace logged addLogs] in Hend.
  match type of Hend with context [checkForMainLoop c ?st] => set (s_chk := st) in Hend end.
  set (woke := wall_clock (env (world s3)) (tick (world s3))) in *.
  assert (Hw : lastWakeTime (vars s_chk) = woke) by reflexivity.
  assert (Ht : trace (world s_chk)
               = trace (world s) ++ before
                 ++ [EvNow woke; EvSleep (int64 (waitSeconds * Second))]).
  { subst s_chk. cbn [world trace]. rewrite Hbefore, <- !app_assoc. reflexivity. }
  pose proof (runsOnward_checkForMainLoop s_chk) as H45.
  pose proof (keeps_checkForMainLoop c lastWakeTime (fun _ _ => eq_refl) s_chk) as K45.
  destruct (checkForMainLoop c s_chk) as [ready s4]. cbn [snd] in H45, K45.
  assert (exists s5,
             (if ready
              then Println "Sunshine is ready - connection successful!"
              else fun s0 =>
                     let '(_, s') := Println "Sunshine not ready - restarting..." s0 in
                     let '(_, s'0) := restartSunshineSystemctlOnly s' in (tt, s'0)) s4
             = (tt, s5)
             /\ onward s4 s5 /\ lastWakeTime (vars s5) = lastWakeTime (vars s4))
    as (s5 & Heq & H56 & K56).
  { destruct ready.
    - rewrite Println_eq. eexists. split; [reflexivity|].
      split; [apply (runsOnward_Println "Sunshine is ready - connection successful!" s4)
             |reflexivity].
    - rewrite Println_eq.
      pose proof (runsOnward_restart (addLogs ["Sunshine not ready - restarting..."] s4)) as Hr.
      pose proof (keeps_restart lastWakeTime (fun _ _ => eq_refl) (fun _ _ => eq_refl)
                    (addLogs ["Sunshine not ready - restarting..."] s4)) as Kr.
      destruct (restartSunshineSystemctlOnly _) as [r s5]. cbn [snd] in Hr, Kr.
      exists s5. split; [reflexivity|]. split; [|exact Kr].
      eapply onward_trans;
        [apply (runsOnward_Println "Sunshine not ready - restarting..." s4)|exact Hr]. }
  cbn [fst snd] in Hend. rewrite Heq in Hend. subst result. cbn [snd vars world].
  assert (H46 : onward s_chk s5) by eauto using onward_trans.
  destruct H46 as (_ & (after & Hafter) & _).
  exists before, woke, after.
  split; [rewrite Hafter, Ht, <- !app_assoc; reflexivity|].
  assert (Hfinal : lastWakeTime (vars s5) = woke) by congruence.
  split; [exact Hfinal|].
  intros d st Hrange Hv Hcool. apply shouldWakeMonitor_cooling; [exact Hrange|].
  rewrite Hv. cbn [lastWakeTime set_inWakeCycle]. now rewrite Hfinal.
Qed.

End RestartAndCooldown.

Section Pacing.
Context {lib : GoLib}.
Variable c : config.

Lemma detectSunshineRunning_eq (s : State) :
  let r := run_result (env (world s)) (tick (world s)) (isActiveArgv "sunshine") in
  detectSunshineRunning s
  = (match r with None => true | Some _ => false end,
     {| vars := vars s;
        world := {| files := files (world s); env := env (world s);
                    trace := trace (world s) ++ [EvRun (isActiveArgv "sunshine") r];
                    logged := logged (world s) |} |}).
Proof.
  cbv zeta. unfold detectSunshineRunning, isActiveArgv. unfold_os. state_simpl.
  now destruct (run_result _ _ _).
Qed.

Section Pause.

Lemma pauses_bind (A B : Type) (m : M A) (k : A -> M B) :
  runsOnward m -> (forall a, pauses (SunriseCheckSeconds c) (k a)) ->
  pauses (SunriseCheckSeconds c) (bind m k).
Proof.
  intros Hm Hk s. unfold bind. specialize (Hm s).
  destruct (m s) as [a s1]. cbn [snd] in Hm.
  destruct Hm as (_ & (first & Hfirst) & _).
  destruct (Hk a s1) as (calls & d & Ht & Hd).
  exists (first ++ calls), d. rewrite Ht, Hfirst, <- !app_assoc. auto.
Qed.

Lemma pauses_Sleep (A : Type) (d : Duration) (a : A) :
  d = 500 * Millisecond \/ d = int64 (SunriseCheckSeconds c * Second) ->
  pauses (SunriseCheckSeconds c) (Sleep d ;; ret a).
Proof.
  intros Hd s. unfold Sleep, syscall, bind, ret. cbn [fst snd world trace].
  exists [], d. auto.
Qed.

Ltac pause_side := intros; exact I.

Lemma commands_pollServiceActive (n : nat) :
  emits runOrSleep anyLine (pollServiceActive "sunshine" n).
Proof.
  induction n as [|n IH]; cbn [pollServiceActive]; unfold Run, Sleep;
    repeat emits_step pause_side.
Qed.

Lemma commands_restart : emits runOrSleep anyLine restartSunshineSystemctlOnly.
Proof.
  unfold restartSunshineSystemctlOnly, waitForServiceActive, Run.
  pose proof commands_pollServiceActive. repeat emits_step pause_side.
Qed.

(** X10.  Every iteration of the wake loop ends with a sleep.  It starts
    with the [is-active] probe.  When the probe fails, the iteration is a
    restart through systemctl followed by a sleep of ten seconds: it runs
    commands and sleeps, reads neither the clock nor the log, and leaves
    [lastWakeTime] alone.  When the probe succeeds, the sleep that ends the
    iteration is the half second taken after new log activity or the
    configured [SunriseCheckSeconds]. *)
Theorem wake_loop_always_pauses (s : State) :
  let w := world s in
  let s' := snd (wakeOnConnectStep c s) in
  let probe := run_result (env w) (tick w) (isActiveArgv "sunshine") in
  exists calls d,
    trace (world s')
    = trace w ++ EvRun (isActiveArgv "sunshine") probe :: calls ++ [EvSleep d] /\
    match probe with
    | Some _ =>
        d = 10 * Second /\
        (exists r rest, calls = EvRun restartArgv r :: rest) /\
        Forall runOrSleep calls /\
        lastWakeTime (vars s') = lastWakeTime (vars s)
    | None =>
        d = 500 * Millisecond \/ d = int64 (SunriseCheckSeconds c * Second)
    end.
Proof.
  cbv zeta. destruct (wakeOnConnectStep c s) as [flow s'] eqn:Hstep. cbn [snd].
  unfold wakeOnConnectStep in Hstep. unfold bind at 1 in Hstep.
  rewrite detectSunshineRunning_eq in Hstep. cbv zeta in Hstep.
  destruct (run_result (env (world s)) (tick (world s)) (isActiveArgv "sunshine"))
    as [e|]; cbn [negb] in Hstep.
  - unfold bind in Hstep. rewrite Println_eq in Hstep.
    match type of Hstep with context [restartSunshineSystemctlOnly ?st] =>
      set (s1 := st) in Hstep end.
    destruct (restartSunshineSystemctlOnly_spec s1) as (rest & _ & Htr & _).
    destruct (commands_restart s1) as (calls & _ & Hcalls & _ & Hall & _).
    pose proof (keeps_restart lastWakeTime (fun _ _ => eq_refl) (fun _ _ => eq_refl) s1) as Hk.
    destruct (restartSunshineSystemctlOnly s1) as [r s2]. cbn [fst snd] in *.
    unfold Sleep, syscall, bind, ret in Hstep. cbn [fst snd vars world] in Hstep.
    injection Hstep as _ <-. cbn [vars world trace].
    exists calls, (10 * Second).
    split; [rewrite Hcalls; subst s1; cbn [addLogs world trace]; now rewrite <- !app_assoc|].
    split; [reflexivity|]. split; [|split; [exact Hall|exact Hk]].
    rewrite Hcalls in Htr. apply app_inv_head in Htr. eauto.
  - match type of Hstep with ?prog ?st = _ =>
      assert (Hp : pauses (SunriseCheckSeconds c) prog);
      [|destruct (Hp st) as (calls & d & Ht & Hd)]
    end.
    { pose proof (runsOnward_restart). pose proof (runsOnward_detectSunshineRunning).
      repeat first
        [ apply pauses_Sleep; auto
        | match goal with
          | |- pauses _ (bind (if ?b then Sleep _ else Sleep _) _) => destruct b
          end
        | apply pauses_bind;
          [ first [ apply runsOnward_shouldWakeMonitor
                  | apply runsOnward_checkForLogActivity
                  | apply runsOnward_getv
                  | match goal with
                    | |- runsOnward (if ?b then wakeCycle _ _ else _) =>
                        destruct b; [apply runsOnward_wakeCycle|apply runsOnward_ret]
                    end
                  | onward_all ]
          | intros ? ] ]. }
    rewrite Hstep in Ht. cbn [snd] in Ht.
    exists calls, d. split; [|exact Hd].
    rewrite Ht. cbn [world trace]. now rewrite <- app_assoc.
Qed.

End Pause.
End Pacing.

Section ScanOutcomes.
Context {lib : GoLib}.
Variable c : config.

Lemma runsOnward_handleCorruptedLog : runsOnward (handleCorruptedLog c).
Proof.
  unfold handleCorruptedLog, Truncate. pose proof runsOnward_restart. onward_all.
Qed.

(** X11.  A scan that reads the log to its end without error reports
    triggered exactly when the latest timestamp parsed from the matching
    lines is not the zero time and either nothing is stored for the
    category or what is stored is earlier.  It then stores that latest
    timestamp; when it does not trigger, the variables stay as the scan
    evaluated them.  So a matching line with a timestamp later than the
    stored one always triggers.  The scan makes two calls, [os.Stat] and
    [os.Open], and leaves the log alone. *)
Theorem scan_triggers_on_new_occurrence (cat : Category) (s : State)
  (size : Z) (f : File) :
  scanInput c s = Ok (size, f) ->
  snd (Scanner (1024 * 1024) f) = None ->
  let path := SunshineLogPath c in
  let lines := fst (Scanner (1024 * 1024) f) in
  let latest := latestOf (matcher c cat) lines zeroTime in
  let stored := lastHandled cat (evaluated cat size (vars s)) in
  let r := fst (classify c cat s) in
  let s' := snd (classify c cat s) in
  snd r = None /\
  (fst r = true <->
   latest <> zeroTime /\ (stored = zeroTime \/ stored < latest)) /\
  (fst r = true ->
   vars s' = set_lastHandled cat latest (evaluated cat size (vars s))) /\
  (fst r = false -> vars s' = evaluated cat size (vars s)) /\
  (forall line t,
      In line lines -> matcher c cat line = true ->
      parseSunshineTimestamp line = Ok t ->
      zeroTime < t -> stored < t ->
      fst r = true) /\
  files (world s') = files (world s) /\
  trace (world s')
  = trace (world s) ++ [EvStat path (Ok size); EvOpen path None].
Proof.
  intros Hin Hclean. cbv zeta.
  destruct (scanInput_file c s Hin) as (Hstat & Hopen & _).
  pose proof (classify_cases c cat s) as Hc. cbv zeta in Hc.
  rewrite Hstat, Hopen, Hclean in Hc.
  fold (evaluated cat size (vars s)) in Hc.
  destruct Hc as (s' & Heq & Hv & Hf & _ & Ht). rewrite Heq. cbn [fst snd].
  set (latest := latestOf (matcher c cat) (fst (Scanner (1024 * 1024) f)) zeroTime) in *.
  set (g0 := evaluated cat size (vars s)) in *.
  assert (Hfresh : fresh cat latest g0 = true <->
                   latest <> zeroTime /\
                   (lastHandled cat g0 = zeroTime \/ lastHandled cat g0 < latest)).
  { unfold fresh, IsZero, After, zeroTime.
    rewrite andb_true_iff, negb_true_iff, orb_true_iff, Z.eqb_neq, Z.eqb_eq, Z.ltb_lt.
    reflexivity. }
  split; [reflexivity|]. split; [exact Hfresh|].
  split; [intros H; rewrite Hv; unfold handle; now rewrite H|].
  split; [intros H; rewrite Hv; unfold handle; now rewrite H|].
  split; [|split; [exact Hf|exact Ht]].
  intros line t Hline Hm Hp Hpos Hlater. apply Hfresh.
  pose proof (latestOf_bounds (matcher c cat) (fst (Scanner (1024 * 1024) f))
                zeroTime line Hline Hm Hp) as Hle.
  fold latest in Hle. unfold zeroTime in *. split; [lia|right; lia].
Qed.

Ltac holds_complaints :=
  rewrite <- ?app_assoc; eexists; split; [reflexivity|];
  let m := fresh "m" in
  let Hm := fresh "Hm" in
  intros m Hm; cbn [app];
  repeat first [ exact Hm | apply in_or_app; left; exact Hm | right ].

(** What a scan prints holds the complaints of its loop. *)
Lemma classify_prints_complaints (cat : Category) (s : State) (size : Z) (f : File) :
  scanInput c s = Ok (size, f) ->
  exists msgs,
    logged (world (snd (classify c cat s))) = logged (world s) ++ msgs /\
    incl (complaints (matcher c cat) (fst (Scanner (1024 * 1024) f))) msgs.
Proof.
  intros Hin. destruct (scanInput_file c s Hin) as (Hstat & Hopen & _).
  unfold tick in Hstat, Hopen.
  destruct cat; unfold classify, matcher, isMonitorSleeping, isEncoderFailed,
                  resetMonitorTracking.
  - unfold_os; state_simpl. rewrite Hstat. state_simpl.
    destruct (size <? lastLogSize (vars s)); state_simpl; rewrite last_length, Hopen;
      state_simpl;
      (destruct (Scanner (1024 * 1024) f) as [lines [e|]] eqn:Hscan; cbn [fst snd];
       rewrite latestMatching_eq; state_simpl;
       [ destruct (isBufferOverflow (Some e)); state_simpl;
         [ match goal with |- context [handleCorruptedLog c ?st] =>
             pose proof (runsOnward_handleCorruptedLog st) as Hon;
             destruct (handleCorruptedLog c st) as [err s']
           end;
           cbn [snd] in *; destruct Hon as (_ & _ & (msgs & Hl));
           rewrite Hl; state_simpl; holds_complaints
         | holds_complaints ]
       | destruct (IsZero (latestOf _ _ _)); state_simpl;
         [ holds_complaints |
           match goal with |- context [IsZero ?h || After ?l ?h] =>
             destruct (IsZero h || After l h) end; state_simpl;
           holds_complaints ] ]).
  - unfold_os; state_simpl. rewrite Hstat. state_simpl.
    rewrite last_length, Hopen. state_simpl.
    destruct (Scanner (1024 * 1024) f) as [lines [e|]] eqn:Hscan; cbn [fst snd];
      rewrite latestMatching_eq; state_simpl.
    + destruct (isBufferOverflow (Some e)); state_simpl.
      * match goal with |- context [handleCorruptedLog c ?st] =>
          pose proof (runsOnward_handleCorruptedLog st) as Hon;
          destruct (handleCorruptedLog c st) as [err s']
        end.
        cbn [snd] in *. destruct Hon as (_ & _ & (msgs & Hl)).
        rewrite Hl. state_simpl. holds_complaints.
      * holds_complaints.
    + destruct (IsZero (latestOf _ _ _)); state_simpl.
      * holds_complaints.
      * match goal with |- context [IsZero ?h || After ?l ?h] =>
          destruct (IsZero h || After l h) end; state_simpl;
          holds_complaints.
Qed.

Lemma complaints_hold (matches : string -> bool) (lines : list string)
  (line : string) (e : error) :
  In line lines -> matches line = true -> parseSunshineTimestamp line = Err e ->
  In ("Unable to parse timestamp: " +++ e) (complaints matches lines).
Proof.
  induction lines as [|l rest IH]; intros Hin Hm Hp; [destruct Hin|].
  cbn [complaints]. destruct Hin as [->|Hin].
  - rewrite Hm, Hp. now left.
  - destruct (matches l); [destruct (parseSunshineTimestamp l)|]; auto.
    right. auto.
Qed.

Lemma latestOf_unparseable (matches : string -> bool) (lines : list string) (t : Time) :
  (forall line, In line lines -> matches line = true ->
                exists e, parseSunshineTimestamp line = Err e) ->
  latestOf matches lines t = t.
Proof.
  intros H. destruct (latestOf_attained matches lines t) as [Heq|(line & Hin & Hm & Hp)];
    [exact Heq|].
  destruct (H line Hin Hm) as (e & He). congruence.
Qed.

(** X12.  A matching line whose timestamp cannot be parsed is skipped: the
    scan prints "Unable to parse timestamp" with the parser's error for
    it and goes on.  A log that is read to its end and in which no
    matching line has a timestamp that parses never triggers, and leaves
    the stored timestamps as the scan evaluated them. *)
Theorem unparseable_match_is_logged_and_skipped (cat : Category) (s : State)
  (size : Z) (f : File) :
  scanInput c s = Ok (size, f) ->
  let lines := fst (Scanner (1024 * 1024) f) in
  let s' := snd (classify c cat s) in
  (exists msgs,
      logged (world s') = logged (world s) ++ msgs /\
      forall line e,
        In line lines -> matcher c cat line = true ->
        parseSunshineTimestamp line = Err e ->
        In ("Unable to parse timestamp: " +++ e) msgs) /\
  (snd (Scanner (1024 * 1024) f) = None ->
   (forall line,
       In line lines -> matcher c cat line = true ->
       exists e, parseSunshineTimestamp line = Err e) ->
   fst (classify c cat s) = (false, None) /\
   vars s' = evaluated cat size (vars s)).
Proof.
  intros Hin. cbv zeta. split.
  - destruct (classify_prints_complaints cat s Hin) as (msgs & Hl & Hincl).
    exists msgs. split; [exact Hl|].
    intros line e Hline Hm Hp. apply Hincl.
    now apply complaints_hold with line.
  - intros Hclean Hnone.
    destruct (scanInput_file c s Hin) as (Hstat & Hopen & _).
    pose proof (classify_cases c cat s) as Hc. cbv zeta in Hc.
    rewrite Hstat, Hopen, Hclean in Hc.
    fold (evaluated cat size (vars s)) in Hc.
    rewrite (latestOf_unparseable _ _ _ Hnone) in Hc.
    destruct Hc as (s' & Heq & Hv & _). rewrite Heq. cbn [fst snd].
    split; [reflexivity|]. exact Hv.
Qed.

(** X13.  Whatever happens after it, a scan whose [os.Stat] succeeds has
    recorded the size reported in [lastLogSize]: also when the log then
    fails to open or to read, and when it is found corrupted.  A scan
    whose [os.Stat] fails returns that error and writes no variable. *)
Theorem scan_records_the_size_it_is_given (cat : Category) (s : State) :
  let w := world s in
  let s' := snd (classify c cat s) in
  match statAnswer (SunshineLogPath c) (env w) (files w) (tick w) with
  | Ok size => lastLogSize (vars s') = size
  | Err e =>
      fst (classify c cat s) = (false, Some e) /\ vars s' = vars s /\
      files (world s') = files w
  end.
Proof.
  cbv zeta. pose proof (classify_cases c cat s) as Hc. cbv zeta in Hc.
  destruct (statAnswer _ _ _ _) as [size|e].
  2:{ destruct Hc as (s' & -> & Hv & Hf & _). auto. }
  fold (evaluated cat size (vars s)) in Hc.
  assert (Hsize : lastLogSize (evaluated cat size (vars s)) = size) by reflexivity.
  destruct (openAnswer _ _ _ _) as [f|e].
  2:{ destruct Hc as (s' & -> & Hv & _). cbn [snd]. now rewrite Hv. }
  destruct (snd (Scanner (1024 * 1024) f)) as [e|].
  - destruct (isBufferOverflow (Some e)).
    + destruct Hc as (s_h & -> & Hv & _).
      pose proof (keeps_handleCorruptedLog c lastLogSize (fun _ _ => eq_refl)
                    (fun _ _ => eq_refl) s_h) as Hk.
      destruct (handleCorruptedLog c s_h) as [err s']. cbn [snd] in *.
      now rewrite Hk, Hv.
    + destruct Hc as (s' & -> & Hv & _). cbn [snd]. now rewrite Hv.
  - destruct Hc as (s' & -> & Hv & _). cbn [snd]. rewrite Hv.
    now rewrite lastLogSize_handle.
Qed.

(** X14.  Unless the reading of the log ends with "token too long", a scan
    only looks: its calls are [os.Stat] and [os.Open], the log is left as
    it is, no command is run, the variables of the wake loop are not
    written, and an error that ends the reading is handed back as it is. *)
Theorem scan_only_looks_unless_corrupted (cat : Category) (s : State) :
  (forall size f,
      scanInput c s = Ok (size, f) ->
      isBufferOverflow (snd (Scanner (1024 * 1024) f)) = false) ->
  let s' := snd (classify c cat s) in
  files (world s') = files (world s) /\
  (exists calls,
      trace (world s') = trace (world s) ++ calls /\ Forall statOrOpen calls) /\
  wakeState (vars s') = wakeState (vars s) /\
  (forall size f e,
      scanInput c s = Ok (size, f) ->
      snd (Scanner (1024 * 1024) f) = Some e ->
      fst (classify c cat s) = (false, Some e)).
Proof.
  intros Hno. cbv zeta.
  assert (Hw : forall size, wakeState (evaluated cat size (vars s)) = wakeState (vars s)).
  { intros size. unfold evaluated, rotated.
    destruct cat; [destruct (size <? lastLogSize (vars s))|]; reflexivity. }
  assert (Hh : forall latest size,
             wakeState (handle cat latest (evaluated cat size (vars s)))
             = wakeState (vars s)).
  { intros latest size. unfold handle.
    destruct (fresh cat latest _); [|apply Hw].
    rewrite <- (Hw size). now destruct cat. }
  pose proof (classify_cases c cat s) as Hc. cbv zeta in Hc.
  unfold scanInput in *.
  destruct (statAnswer _ _ _ _) as [size|e].
  2:{ destruct Hc as (s' & -> & Hv & Hf & _ & Ht). cbn [snd].
      split; [exact Hf|]. split; [eexists; split; [exact Ht|repeat constructor]|].
      split; [now rewrite Hv|]. intros; discriminate. }
  fold (evaluated cat size (vars s)) in Hc.
  destruct (openAnswer _ _ _ _) as [f|e].
  2:{ destruct Hc as (s' & -> & Hv & Hf & _ & Ht). cbn [snd].
      split; [exact Hf|]. split; [eexists; split; [exact Ht|repeat constructor]|].
      split; [rewrite Hv; apply Hw|]. intros; discriminate. }
  specialize (Hno size f eq_refl).
  destruct (snd (Scanner (1024 * 1024) f)) as [e|] eqn:Hscan.
  - rewrite Hno in Hc. destruct Hc as (s' & -> & Hv & Hf & _ & Ht). cbn [fst snd].
    split; [exact Hf|]. split; [eexists; split; [exact Ht|repeat constructor]|].
    split; [rewrite Hv; apply Hw|].
    intros size0 f0 e0 H1 H2. injection H1 as <- <-. rewrite Hscan in H2.
    now injection H2 as <-.
  - destruct Hc as (s' & -> & Hv & Hf & _ & Ht). cbn [fst snd].
    split; [exact Hf|]. split; [eexists; split; [exact Ht|repeat constructor]|].
    split; [rewrite Hv; apply Hh|].
    intros size0 f0 e0 H1 H2. injection H1 as <- <-. rewrite Hscan in H2. discriminate.
Qed.

End ScanOutcomes.

Section ProcessTable.
Context {lib : GoLib}.
Variable c : config.

(** The loop of [getSunshinePIDs]: what it appends to [pids]. *)
Lemma collectPIDs_sound (entries : list DirEntry) :
  forall (pids : list Z) (s : State),
  exists found reads,
    fst (collectPIDs entries pids s) = pids ++ found /\
    (Datatypes.length found <= Datatypes.length entries)%nat /\
    vars (snd (collectPIDs entries pids s)) = vars s /\
    files (world (snd (collectPIDs entries pids s))) = files (world s) /\
    logged (world (snd (collectPIDs entries pids s))) = logged (world s) /\
    trace (world (snd (collectPIDs entries pids s))) = trace (world s) ++ reads /\
    Forall readsFile reads /\
    (forall pid,
        In pid found ->
        exists entry data,
          In entry entries /\ IsDir entry = true /\
          Atoi (Name entry) = Some pid /\
          In (EvReadFile (commPath pid) (Ok data)) reads /\
          TrimSpace data = "sunshine") /\
    (forall path data,
        In (EvReadFile path (Ok data)) reads ->
        TrimSpace data = "sunshine" ->
        exists pid, In pid found /\ path = commPath pid).
Proof.
  induction entries as [|entry rest IH]; intros pids s.
  - exists [], []. cbn. rewrite !app_nil_r.
    repeat split; auto; intros; contradiction.
  - cbn [collectPIDs].
    assert (Hskip :
              (exists found reads,
                  fst (collectPIDs rest pids s) = pids ++ found /\
                  (Datatypes.length found <= Datatypes.length rest)%nat /\
                  vars (snd (collectPIDs rest pids s)) = vars s /\
                  files (world (snd (collectPIDs rest pids s))) = files (world s) /\
                  logged (world (snd (collectPIDs rest pids s))) = logged (world s) /\
                  trace (world (snd (collectPIDs rest pids s))) = trace (world s) ++ reads /\
                  Forall readsFile reads /\
                  (forall pid,
                      In pid found ->
                      exists entry0 data,
                        In entry0 (entry :: rest) /\ IsDir entry0 = true /\
                        Atoi (Name entry0) = Some pid /\
                        In (EvReadFile (commPath pid) (Ok data)) reads /\
                        TrimSpace data = "sunshine") /\
                  (forall path data,
                      In (EvReadFile path (Ok data)) reads ->
                      TrimSpace data = "sunshine" ->
                      exists pid, In pid found /\ path = commPath pid))).
    { destruct (IH pids s) as (found & reads & H1 & H2 & H3 & H4 & H5 & H6 & H7 & H8 & H9).
      exists found, reads. repeat split; auto.
      intros pid Hin. destruct (H8 pid Hin) as (e0 & d & Hin0 & Hrest).
      exists e0, d. split; [now right|exact Hrest]. }
    destruct (IsDir entry) eqn:Hdir; cbn [negb]; [|destruct Hskip as (fd & rd & H); exists fd, rd;
      repeat split; try apply H; cbn [Datatypes.length]; destruct H as (_ & H & _); lia].
    destruct (Atoi (Name entry)) as [pid|] eqn:Hatoi; [|destruct Hskip as (fd & rd & H); exists fd, rd;
      repeat split; try apply H; cbn [Datatypes.length]; destruct H as (_ & H & _); lia].
    clear Hskip. unfold ReadFile, syscall, bind, unchanged. state_simpl.
    fold (commPath pid).
    set (r := read_file (env (world s)) (tick (world s)) (commPath pid)).
    match goal with |- context [{| vars := vars s; world := ?w |}] =>
      set (s1 := {| vars := vars s; world := w |}) end.
    assert (Hkeep : forall pids',
               exists found reads,
                 fst (collectPIDs rest pids' s1) = pids' ++ found /\
                 (Datatypes.length found <= Datatypes.length rest)%nat /\
                 vars (snd (collectPIDs rest pids' s1)) = vars s /\
                 files (world (snd (collectPIDs rest pids' s1))) = files (world s) /\
                 logged (world (snd (collectPIDs rest pids' s1))) = logged (world s) /\
                 trace (world (snd (collectPIDs rest pids' s1)))
                 = trace (world s) ++ EvReadFile (commPath pid) r :: reads /\
                 Forall readsFile reads /\
                 (forall pid0,
                     In pid0 found ->
                     exists entry0 data,
                       In entry0 rest /\ IsDir entry0 = true /\
                       Atoi (Name entry0) = Some pid0 /\
                       In (EvReadFile (commPath pid0) (Ok data)) reads /\
                       TrimSpace data = "sunshine") /\
                 (forall path data,
                     In (EvReadFile path (Ok data)) reads ->
                     TrimSpace data = "sunshine" ->
                     exists pid0, In pid0 found /\ path = commPath pid0)).
    { intros pids'.
      destruct (IH pids' s1) as (found & reads & H1 & H2 & H3 & H4 & H5 & H6 & H7 & H8 & H9).
      exists found, reads. subst s1. state_simpl.
      rewrite H6, <- app_assoc. repeat split; auto. }
    destruct r as [data|e] eqn:Hr.
    + destruct (String.eqb (TrimSpace data) "sunshine") eqn:Hname.
      * apply String.eqb_eq in Hname.
        destruct (Hkeep (pids ++ [pid]))
          as (found & reads & H1 & H2 & H3 & H4 & H5 & H6 & H7 & H8 & H9).
        exists (pid :: found), (EvReadFile (commPath pid) (Ok data) :: reads).
        split; [rewrite H1, <- app_assoc; reflexivity|].
        split; [cbn [Datatypes.length]; lia|].
        repeat split; auto.
        -- constructor; [exact I|exact H7].
        -- intros pid0 [<-|Hin].
           ++ exists entry, data. repeat split; auto; now left.
           ++ destruct (H8 pid0 Hin) as (e0 & d & Hin0 & Hd & Ha & Hread & Ht).
              exists e0, d. repeat split; auto; now right.
        -- intros path d [Heq|Hin] Ht.
           ++ injection Heq as <- <-. exists pid. split; [now left|reflexivity].
           ++ destruct (H9 path d Hin Ht) as (pid0 & Hin0 & Hp).
              exists pid0. split; [now right|exact Hp].
      * apply String.eqb_neq in Hname.
        destruct (Hkeep pids)
          as (found & reads & H1 & H2 & H3 & H4 & H5 & H6 & H7 & H8 & H9).
        exists found, (EvReadFile (commPath pid) (Ok data) :: reads).
        split; [exact H1|]. split; [cbn [Datatypes.length]; lia|].
        repeat split; auto.
        -- constructor; [exact I|exact H7].
        -- intros pid0 Hin.
           destruct (H8 pid0 Hin) as (e0 & d & Hin0 & Hd & Ha & Hread & Ht).
           exists e0, d. repeat split; auto; now right.
        -- intros path d [Heq|Hin] Ht.
           ++ injection Heq as <- <-. contradiction.
           ++ exact (H9 path d Hin Ht).
    + destruct (Hkeep pids)
        as (found & reads & H1 & H2 & H3 & H4 & H5 & H6 & H7 & H8 & H9).
      exists found, (EvReadFile (commPath pid) (Err e) :: reads).
      split; [exact H1|]. split; [cbn [Datatypes.length]; lia|].
      repeat split; auto.
      * constructor; [exact I|exact H7].
      * intros pid0 Hin.
        destruct (H8 pid0 Hin) as (e0 & d & Hin0 & Hd & Ha & Hread & Ht).
        exists e0, d. repeat split; auto; now right.
      * intros path d [Heq|Hin] Ht; [discriminate|exact (H9 path d Hin Ht)].
Qed.

(** X15.  [getSunshinePIDs] reads [/proc] afresh at every call.  Every
    identifier it returns is the number that names a directory of the
    listing whose [comm] file was read and holds, white space trimmed,
    "sunshine"; and every [comm] file read that holds that name has its
    identifier returned.  When [/proc] cannot be read it prints the error
    and returns no identifier.  It writes no variable and no file. *)
Theorem getSunshinePIDs_lists_only_sunshine (s : State) :
  let w := world s in
  let pids := fst (getSunshinePIDs s) in
  let s' := snd (getSunshinePIDs s) in
  vars s' = vars s /\
  files (world s') = files w /\
  match read_dir (env w) (tick w) "/proc" with
  | Err e =>
      pids = [] /\
      trace (world s') = trace w ++ [EvReadDir "/proc" (Err e)] /\
      logged (world s') = logged w ++ ["Could not read /proc: " +++ e]
  | Ok entries =>
      exists reads,
        trace (world s') = trace w ++ EvReadDir "/proc" (Ok entries) :: reads /\
        Forall readsFile reads /\
        logged (world s') = logged w /\
        (Datatypes.length pids <= Datatypes.length entries)%nat /\
        (forall pid,
            In pid pids ->
            exists entry data,
              In entry entries /\ IsDir entry = true /\
              Atoi (Name entry) = Some pid /\
              In (EvReadFile (commPath pid) (Ok data)) reads /\
              TrimSpace data = "sunshine") /\
        (forall path data,
            In (EvReadFile path (Ok data)) reads ->
            TrimSpace data = "sunshine" ->
            exists pid, In pid pids /\ path = commPath pid)
  end.
Proof.
  cbv zeta. unfold getSunshinePIDs, ReadDir, syscall, bind, unchanged. state_simpl.
  destruct (read_dir (env (world s)) (tick (world s)) "/proc") as [entries|e].
  - match goal with |- context [collectPIDs entries [] ?st] => set (s1 := st) end.
    destruct (collectPIDs_sound entries [] s1)
      as (found & reads & H1 & H2 & H3 & H4 & H5 & H6 & H7 & H8 & H9).
    cbn [app] in H1. rewrite H1, H3, H4, H5, H6. subst s1. state_simpl.
    split; [reflexivity|]. split; [reflexivity|].
    exists reads. rewrite <- app_assoc. repeat split; auto.
  - rewrite Println_eq. cbn. auto.
Qed.

End ProcessTable.

Section EarlierPrograms.
Context {lib : GoLib}.
Variable c : config.

Lemma systemdAvailable_eq (s : State) :
  let out := run_stdout (env (world s)) (tick (world s)) systemdProbe in
  systemdAvailable s
  = (systemdUp out,
     {| vars := vars s;
        world := {| files := files (world s); env := env (world s);
                    trace := trace (world s) ++ [EvOutput systemdProbe out];
                    logged := logged (world s) |} |}).
Proof. reflexivity. Qed.

Ltac prefers_systemd :=
  match goal with |- prefersSystemd _ _ _ _ _ ?m ?s =>
    unfold prefersSystemd; cbv zeta;
    let r := fresh "r" in
    let s' := fresh "s'" in
    let Hrun := fresh "Hrun" in
    destruct (m s) as [r s'] eqn:Hrun; cbn [fst snd];
    unfold stopSunshineProperly, startSunshineProperly,
      SystemdPreferred.stopSunshineProperly, SystemdPreferred.startSunshineProperly in Hrun;
    unfold bind at 1 in Hrun; rewrite systemdAvailable_eq in Hrun; cbv zeta in Hrun;
    destruct (systemdUp _);
    [ unfold_os; state_simpl; rewrite last_length in Hrun;
      match type of Hrun with context [run_result ?ev ?t ?argv] =>
        destruct (run_result ev t argv) as [?err|]
      end; state_simpl;
      [ match type of Hrun with context [Fields ?cmd] =>
          destruct (Fields cmd) as [|?part ?parts]
        end; state_simpl; injection Hrun as <- <-; state_simpl;
        rewrite ?last_length, <- ?app_assoc; auto
      | injection Hrun as <- <-; state_simpl; rewrite <- ?app_assoc; auto ]
    | unfold_os; state_simpl;
      match type of Hrun with context [Fields ?cmd] =>
        destruct (Fields cmd) as [|?part ?parts]
      end; state_simpl; injection Hrun as <- <-; state_simpl;
      rewrite ?last_length, <- ?app_assoc; auto ]
  end.

(** X16.  [stopSunshineProperly] and [startSunshineProperly], in [main.go]
    as in the systemd-preferred program, ask systemd first.  When the user
    session reports running or degraded and [systemctl --user stop
    sunshine] (or [start]) succeeds, they return [nil] and the configured
    command is never run.  Otherwise they fall back on the configured
    command: the result is the result of running it (of launching it, for
    the start), or the error that no command is configured, with nothing
    run, when the configured text has no field. *)
Theorem stop_and_start_prefer_systemd (s : State) :
  prefersSystemd "stop" (StopSunshineCommand c) "no stop command configured"
    run_result EvRun (stopSunshineProperly c) s /\
  prefersSystemd "stop" (StopSunshineCommand c) "no stop command configured"
    run_result EvRun (SystemdPreferred.stopSunshineProperly c) s /\
  prefersSystemd "start" (StartSunshineCommand c) "no start command configured"
    start_result EvStart (startSunshineProperly c) s /\
  prefersSystemd "start" (StartSunshineCommand c) "no start command configured"
    start_result EvStart (SystemdPreferred.startSunshineProperly c) s.
Proof.
  split; [|split; [|split]]; prefers_systemd.
Qed.

(** X17.  The restart of the original program never lets the stop command
    stand in the way: whatever the stop command returns, the start command
    is launched next, and the result of the restart is the result of that
    launch alone.  After a stop command that failed, [stopSunshine] prints
    that the error is ignored and then, all the same, that the command
    completed without errors. *)
Theorem Original_restart_ignores_stop_failure (s : State) :
  let w := world s in
  let stop := Split (StopSunshineCommand c) " " in
  let start := Split (StartSunshineCommand c) " " in
  let r1 := run_result (env w) (tick w) stop in
  let r2 := start_result (env w) (S (tick w)) start in
  let s' := snd (Original.restartSunshine c s) in
  fst (Original.restartSunshine c s) = r2 /\
  trace (world s') = trace w ++ [EvRun stop r1; EvStart start r2] /\
  vars s' = vars s /\
  files (world s') = files w /\
  exists msgs,
    logged (world s') = logged w ++ msgs /\
    In "stopSunshine command completed without errors" msgs /\
    (forall e,
        r1 = Some e ->
        In ("stopSunshine encountered an error - ignoring: " +++ e) msgs).
Proof.
  cbv zeta. unfold Original.restartSunshine, Original.stopSunshine,
    Original.startSunshine, CmdString.
  unfold_os. state_simpl.
  destruct (run_result (env (world s)) (Datatypes.length (trace (world s))) _) as [e1|];
    state_simpl; rewrite last_length;
    destruct (start_result (env (world s)) (S (Datatypes.length (trace (world s)))) _)
      as [e2|]; state_simpl; rewrite <- ?app_assoc;
    (split; [reflexivity|]); (split; [reflexivity|]); (split; [reflexivity|]);
    (split; [reflexivity|]);
    eexists; (split; [reflexivity|]); cbn [app In]; split; auto 10;
    intros e He; try discriminate; injection He as <-; auto 10.
Qed.

(** The monitor scan of the original program reports sleeping only with
    no error. *)
Lemma Original_isMonitorSleeping_true (s : State) :
  fst (fst (Original.isMonitorSleeping c s)) = true ->
  snd (fst (Original.isMonitorSleeping c s)) = None.
Proof.
  unfold Original.isMonitorSleeping, resetMonitorTracking. unfold_os. state_simpl.
  destruct (statAnswer _ _ _ _) as [size|e]; state_simpl; [|discriminate].
  destruct (size <? lastLogSize (vars s)); state_simpl;
    (destruct (openAnswer _ _ _ _) as [f|e]; state_simpl; [|discriminate]);
    (destruct (Scanner MaxScanTokenSize f) as [lines [e|]]; cbn [fst snd];
     rewrite latestMatching_eq; state_simpl; [discriminate|]);
    (destruct (IsZero (latestOf _ _ _)); state_simpl; [discriminate|]);
    match goal with |- context [IsZero ?h || After ?l ?h] =>
      destruct (IsZero h || After l h) end; state_simpl; auto.
Qed.

(** X18.  A tick of the original program that finds the monitor asleep
    only wakes it: it runs the wake command, sleeps for
    [WakeMonitorSleepSeconds] and goes to the next tick, whether or not the
    wake command succeeded.  It does not scan for encoder failures and
    neither stops nor starts sunshine. *)
Theorem Original_monitor_sleep_only_wakes (s : State) :
  fst (fst (Original.isMonitorSleeping c s)) = true ->
  let s1 := snd (Original.isMonitorSleeping c s) in
  let wake := Split (WakeMonitorCommand c) " " in
  let r := run_result (env (world s1)) (tick (world s1)) wake in
  let s' := snd (Original.periodicCheck c s) in
  fst (Original.periodicCheck c s) = NextIteration /\
  trace (world s')
  = trace (world s1)
    ++ [EvRun wake r; EvSleep (int64 (WakeMonitorSleepSeconds c * Second))] /\
  vars s' = vars s1 /\
  files (world s') = files (world s1).
Proof.
  intros Htrue. cbv zeta. pose proof (Original_isMonitorSleeping_true s Htrue) as Hnone.
  destruct (Original.periodicCheck c s) as [flow s'] eqn:Hrun. cbn [fst snd].
  unfold Original.periodicCheck in Hrun. unfold bind at 1 in Hrun.
  destruct (Original.isMonitorSleeping c s) as [[sleeping err] s1].
  cbn [fst snd] in *. subst sleeping err.
  unfold Original.wakeMonitor, Original.waitForMonitor, CmdString in Hrun.
  unfold_os. state_simpl.
  destruct (run_result (env (world s1)) (Datatypes.length (trace (world s1))) _) as [e|];
    state_simpl; injection Hrun as <- <-; state_simpl; rewrite <- ?app_assoc; auto.
Qed.

End EarlierPrograms.

Section SystemdRestart.
Context {lib : GoLib}.
Variable c : config.

Lemma failedPolls_runOrSleep (serviceName : string) (s : State) (k : nat) :
  forall from, Forall runOrSleep (failedPolls serviceName s from k).
Proof.
  induction k as [|k IH]; intros from; cbn [failedPolls]; repeat constructor. apply IH.
Qed.

(** X19.  The restart of the systemd-preferred program asks systemd at
    every call.  When the user session is not reported running or
    degraded, or [systemctl --user restart sunshine] fails, the restart is
    the manual one, started from there.  When that command succeeds, the
    restart succeeds exactly when one of at most 30 [is-active] polls
    reports active; it then truncates the log, and a truncation that fails
    does not fail the restart.  When no poll reports active, the timeout
    is returned, wrapped, with no manual restart and the log left as it
    is. *)
Theorem restartSunshine_prefers_systemd (s : State) :
  let w := world s in
  let path := SunshineLogPath c in
  let out := run_stdout (env w) (tick w) systemdProbe in
  let probe := EvOutput systemdProbe out in
  let restarted := run_result (env w) (S (tick w)) restartArgv in
  let r := fst (SystemdPreferred.restartSunshine c s) in
  let s' := snd (SystemdPreferred.restartSunshine c s) in
  let manualFrom (before : list Event) :=
    exists s_m,
      SystemdPreferred.restartSunshine c s = SystemdPreferred.restartSunshineManual c s_m /\
      vars s_m = vars s /\
      files (world s_m) = files w /\
      env (world s_m) = env w /\
      trace (world s_m) = trace w ++ before in
  if systemdUp out
  then match restarted with
       | Some e => manualFrom [probe; EvRun restartArgv (Some e)]
       | None =>
           vars s' = vars s /\
           (r = None <->
            exists k,
              (k < 30)%nat /\
              run_result (env w) (tick w + 2 + 2 * k) (isActiveArgv "sunshine") = None) /\
           (r = None ->
            exists polls t,
              Forall runOrSleep polls /\
              trace (world s')
              = trace w ++ [probe; EvRun restartArgv None] ++ polls
                ++ [EvTruncate path 0 t] /\
              files (world s') = emptied path t (files w)) /\
           (r <> None ->
            r = Some ("sunshine service did not become active: "
                      +++ "timeout waiting for " +++ "sunshine") /\
            files (world s') = files w /\
            exists polls,
              Forall runOrSleep polls /\
              trace (world s') = trace w ++ [probe; EvRun restartArgv None] ++ polls)
       end
  else manualFrom [probe].
Proof.
  cbv zeta.
  destruct (SystemdPreferred.restartSunshine c s) as [r s'] eqn:Hrun. cbn [fst snd].
  unfold SystemdPreferred.restartSunshine in Hrun. unfold bind at 1 in Hrun.
  rewrite Println_eq in Hrun. unfold bind at 1 in Hrun.
  rewrite systemdAvailable_eq in Hrun. cbv zeta in Hrun.
  change (tick (world (addLogs ["=== Starting Sunshine restart sequence ==="] s)))
    with (tick (world s)) in Hrun.
  unfold tick in *.
  change (env (world (addLogs ["=== Starting Sunshine restart sequence ==="] s)))
    with (env (world s)) in Hrun.
  destruct (systemdUp _).
  2:{ eexists. split; [symmetry; exact Hrun|]. cbn. auto. }
  unfold bind at 1 in Hrun. rewrite Println_eq in Hrun.
  unfold bind at 1 in Hrun. unfold Run at 1, syscall at 1 in Hrun.
  unfold tick in *.
  cbn [fst snd vars world env files trace logged addLogs unchanged] in Hrun.
  rewrite last_length in Hrun. fold restartArgv in Hrun.
  destruct (run_result (env (world s)) (S (Datatypes.length (trace (world s)))) restartArgv)
    as [e|].
  - unfold bind in Hrun. rewrite Println_eq in Hrun.
    eexists. split; [symmetry; exact Hrun|]. cbn. rewrite <- app_assoc. auto.
  - unfold bind at 1 in Hrun. rewrite Println_eq in Hrun.
    unfold bind at 1 in Hrun. unfold SystemdPreferred.waitForServiceActive in Hrun.
    unfold bind at 1 in Hrun. rewrite Println_eq in Hrun.
    match type of Hrun with context [pollServiceActive "sunshine" ?n ?s1] =>
      change n with 30%nat in Hrun; set (s1' := s1) in Hrun end.
    assert (Hans : forall j, pollAnswer "sunshine" s1' j
                             = run_result (env (world s))
                                 (Datatypes.length (trace (world s)) + 2 + 2 * j)
                                 (isActiveArgv "sunshine")).
    { intros j. unfold pollAnswer, tick. subst s1'. cbn [world env trace addLogs].
      rewrite !last_length. unfold isActiveArgv. f_equal. lia. }
    assert (Ht1 : trace (world s1')
                  = trace (world s)
                    ++ [EvOutput systemdProbe
                          (run_stdout (env (world s)) (Datatypes.length (trace (world s)))
                             systemdProbe);
                        EvRun restartArgv None]).
    { subst s1'. cbn [world trace addLogs]. now rewrite <- app_assoc. }
    assert (Hv1 : vars s1' = vars s) by reflexivity.
    assert (Hf1 : files (world s1') = files (world s)) by reflexivity.
    destruct (pollServiceActive_spec "sunshine" 30 s1')
      as [(k & s2 & Hk & Hbefore & Hat & Heq & Hreach & _)|(s2 & Hall & Heq & Hreach & _)];
      rewrite Heq in Hrun; destruct Hreach as (Hv & Hf & He & Ht); clearbody s1'.
    + unfold bind in Hrun. rewrite Println_eq in Hrun.
      unfold Truncate, syscall, tick in Hrun.
      cbn [fst snd vars world env files trace logged addLogs] in Hrun.
      set (t := truncateAnswer (SunshineLogPath c) (env (world s2)) (files (world s2))
                  (Datatypes.length (trace (world s2)))) in *.
      assert (Hs' : vars s' = vars s /\ r = None /\
                    trace (world s') = trace (world s2) ++ [EvTruncate (SunshineLogPath c) 0 t] /\
                    files (world s') = emptied (SunshineLogPath c) t (files (world s2))).
      { destruct t as [e|]; [rewrite Println_eq in Hrun|]; unfold ret in Hrun;
          injection Hrun as <- <-; cbn [vars world trace files addLogs];
          rewrite Hv, Hv1; auto. }
      destruct Hs' as (Hvs & -> & Hts & Hfs).
      split; [exact Hvs|]. split.
      { split; [intros _; exists k; split; [exact Hk|now rewrite <- Hans]|reflexivity]. }
      split; [|intros H; now contradict H].
      intros _.
      exists (failedPolls "sunshine" s1' 0 k
              ++ [EvRun ["systemctl"; "--user"; "is-active"; "sunshine"] None]), t.
      split; [|split; [rewrite Hts, Ht, Ht1, <- !app_assoc; reflexivity
                      |rewrite Hfs, Hf, Hf1; reflexivity]].
      apply Forall_app. split; [apply failedPolls_runOrSleep|repeat constructor].
    + unfold ret in Hrun. injection Hrun as <- <-.
      split; [now rewrite Hv, Hv1|]. split.
      { split; [discriminate|]. intros (k & Hk & Hnone). exfalso.
        apply (Hall k Hk). now rewrite Hans. }
      split; [discriminate|]. intros _.
      split; [reflexivity|]. split; [now rewrite Hf, Hf1|].
      exists (failedPolls "sunshine" s1' 0 30).
      split; [|rewrite Ht, Ht1, <- !app_assoc; reflexivity].
      apply failedPolls_runOrSleep.
Qed.

End SystemdRestart.

Section ManualRestartOrder.
Context {lib : GoLib}.
Variable c : config.

(** *** The order of the manual restart *)

Ltac auto_side := first [ intros; exact I | intros; reflexivity ].

Lemma clearsLast_bind (A B : Type) (path : string) (P : Event -> Prop)
  (m : M A) (k : A -> M B) :
  emits P anyLine m -> (forall a, clearsLast path P (k a)) ->
  clearsLast path P (bind m k).
Proof.
  intros Hm Hk s. unfold bind. specialize (Hm s).
  destruct (m s) as [a s1]. cbn [snd] in Hm.
  destruct Hm as (first & _ & Hfirst & _ & Hall & _).
  destruct (Hk a s1) as (before & t & Ht & Hb).
  exists (first ++ before), t. rewrite Ht, Hfirst, <- !app_assoc.
  split; [reflexivity|]. apply Forall_app. auto.
Qed.

Lemma clearsLast_Truncate (path : string) (P : Event -> Prop)
  (warn : error -> string) :
  clearsLast path P
    (err <- Truncate path ;;
     match err with
     | Some e => Println (warn e)
     | None => ret tt
     end).
Proof.
  intros s. unfold Truncate, syscall, bind. cbn [fst snd world trace].
  exists [], (truncateAnswer path (env (world s)) (files (world s)) (tick (world s))).
  split; [|constructor].
  destruct (truncateAnswer _ _ _ _); reflexivity.
Qed.

Lemma stops_collectPIDs (entries : list DirEntry) :
  forall pids, emits stopsOrKills anyLine (collectPIDs entries pids).
Proof.
  induction entries as [|entry rest IH]; intros pids; cbn [collectPIDs];
    unfold ReadFile; repeat emits_step auto_side; apply IH.
Qed.

Lemma stops_getSunshinePIDs : emits stopsOrKills anyLine getSunshinePIDs.
Proof.
  unfold getSunshinePIDs, ReadDir. pose proof stops_collectPIDs.
  repeat emits_step auto_side.
Qed.

Lemma stops_sendSIGTERM (pids : list Z) : emits stopsOrKills anyLine (sendSIGTERM pids).
Proof.
  induction pids as [|pid rest IH]; cbn [sendSIGTERM]; unfold killProcess, Run;
    repeat emits_step auto_side.
Qed.

Lemma stops_sendSIGKILL (pids : list Z) : emits stopsOrKills anyLine (sendSIGKILL pids).
Proof.
  induction pids as [|pid rest IH]; cbn [sendSIGKILL]; unfold killProcess, Run;
    repeat emits_step auto_side.
Qed.

Lemma stops_killAll : emits stopsOrKills anyLine killAllSunshineProcesses.
Proof.
  unfold killAllSunshineProcesses, Sleep.
  pose proof stops_getSunshinePIDs. pose proof stops_sendSIGTERM.
  pose proof stops_sendSIGKILL.
  repeat emits_step auto_side.
Qed.

Lemma stops_stopSunshineProperly :
  emits stopsOrKills anyLine (SystemdPreferred.stopSunshineProperly c).
Proof.
  unfold SystemdPreferred.stopSunshineProperly, systemdAvailable, Output, Run.
  repeat emits_step auto_side.
Qed.

Lemma stopAndClear_clearsLast :
  clearsLast (SunshineLogPath c) stopsOrKills (SystemdPreferred.stopAndClear c).
Proof.
  unfold SystemdPreferred.stopAndClear, countSunshineProcesses, forceKillAllSunshine.
  pose proof stops_stopSunshineProperly. pose proof stops_killAll.
  pose proof stops_getSunshinePIDs.
  repeat first
    [ apply (clearsLast_Truncate
               (SunshineLogPath c) stopsOrKills
               (fun e => "Warning: could not truncate log: " +++ e))
    | apply clearsLast_bind;
      [ unfold Sleep, Run; repeat emits_step auto_side | intros ? ] ].
Qed.

Lemma starts_collectPIDs (entries : list DirEntry) :
  forall pids, emits startsOrCounts anyLine (collectPIDs entries pids).
Proof.
  induction entries as [|entry rest IH]; intros pids; cbn [collectPIDs];
    unfold ReadFile; repeat emits_step auto_side; apply IH.
Qed.

Lemma starts_afterClear :
  emits startsOrCounts anyLine
    (Println "Starting sunshine..." ;;
     err <- SystemdPreferred.startSunshineProperly c ;;
     match err with
     | Some e => ret (Some ("failed to start sunshine: " +++ e))
     | None =>
         Println "Waiting 5 seconds for sunshine to initialize..." ;;
         Sleep (5 * Second) ;;
         count <- countSunshineProcesses ;;
         if count =? 0
         then ret (Some "sunshine failed to start")
         else Println "Sunshine restart complete" ;; ret None
     end).
Proof.
  unfold SystemdPreferred.startSunshineProperly, systemdAvailable, Output, Run, Start,
    Sleep, countSunshineProcesses, getSunshinePIDs, ReadDir.
  pose proof starts_collectPIDs.
  repeat emits_step auto_side.
Qed.

(** X20.  In the manual restart the log is cleared between the kill and
    the start.  Whatever the stop command, the signals and the truncation
    itself return, [restartSunshineManual] truncates the log exactly once
    and goes on to start sunshine: nothing is launched before the
    truncation, and after it come only the probe of systemd, the start,
    the five-second wait and the count of the processes, with no further
    signal. *)
Theorem manual_restart_clears_log_before_start (s : State) :
  let s' := snd (SystemdPreferred.restartSunshineManual c s) in
  exists before t out after,
    trace (world s')
    = trace (world s) ++ before
      ++ EvTruncate (SunshineLogPath c) 0 t :: EvOutput systemdProbe out :: after /\
    Forall stopsOrKills before /\
    Forall startsOrCounts after.
Proof.
  cbv zeta. unfold SystemdPreferred.restartSunshineManual. unfold bind at 1.
  destruct (stopAndClear_clearsLast s) as (before & t & Ht & Hb).
  destruct (SystemdPreferred.stopAndClear c s) as [u s1]. cbn [snd] in Ht.
  destruct (starts_afterClear s1) as (calls & _ & Hcalls & _ & Hall & _).
  assert (Hfirst : exists out after, calls = EvOutput systemdProbe out :: after).
  { revert Hcalls. unfold bind at 1. rewrite Println_eq. unfold bind at 1.
    assert (Hstart : exists err sB out rest,
               SystemdPreferred.startSunshineProperly c
                 (addLogs ["Starting sunshine..."] s1) = (err, sB) /\
               trace (world sB) = trace (world s1) ++ EvOutput systemdProbe out :: rest).
    { unfold SystemdPreferred.startSunshineProperly. unfold bind at 1.
      rewrite systemdAvailable_eq. cbv zeta.
      match goal with |- context [bind ?m ?k ?st] =>
        assert (Hon : runsOnward (bind m k)); [|specialize (Hon st)]
      end.
      { unfold Run, Start. onward_all. }
      match goal with |- context [bind ?m ?k ?st] =>
        destruct (bind m k st) as [err sB]
      end.
      cbn [snd] in *. destruct Hon as (_ & (rest & Hrest) & _).
      cbn [world trace addLogs] in Hrest. rewrite <- app_assoc in Hrest.
      exists err, sB. eexists. exists rest. split; [reflexivity|exact Hrest]. }
    destruct Hstart as (err & sB & out & rest & -> & HtB).
    match goal with |- context [?k sB] =>
      assert (Hon : runsOnward k); [|specialize (Hon sB)]
    end.
    { pose proof runsOnward_getSunshinePIDs. unfold countSunshineProcesses.
      pose proof runsOnward_Sleep. destruct err; onward_all. }
    destruct Hon as (_ & (more & Hmore) & _). rewrite Hmore, HtB, <- app_assoc.
    intros H. apply app_inv_head in H. subst calls. cbn [app]. eauto. }
  destruct Hfirst as (out & after & ->).
  exists before, t, out, after.
  split; [etransitivity; [exact Hcalls|]; rewrite Ht, <- !app_assoc; reflexivity|].
  split; [exact Hb|]. now inversion Hall.
Qed.

End ManualRestartOrder.

Section WakeAlternatives.
Context {lib : GoLib}.
Variable c : config.

Lemma prints_Println (msg : string) : prints msg (Println msg).
Proof. intros s. exists [msg]. split; [reflexivity|now left]. Qed.

Lemma prints_first (A B : Type) (msg : string) (m : M A) (k : A -> M B) :
  prints msg m -> (forall a, runsOnward (k a)) -> prints msg (bind m k).
Proof.
  intros Hm Hk s. unfold bind. specialize (Hm s).
  destruct (m s) as [a s1]. cbn [snd] in Hm.
  destruct Hm as (msgs & Hl & Hin).
  destruct (Hk a s1) as (_ & _ & (more & Hmore)).
  exists (msgs ++ more). rewrite Hmore, Hl, app_assoc. split; [reflexivity|].
  apply in_or_app. now left.
Qed.

Lemma prints_later (A B : Type) (msg : string) (m : M A) (k : A -> M B) :
  runsOnward m -> (forall a, prints msg (k a)) -> prints msg (bind m k).
Proof.
  intros Hm Hk s. unfold bind. specialize (Hm s).
  destruct (m s) as [a s1]. cbn [snd] in Hm.
  destruct Hm as (_ & _ & (msgs & Hl)).
  destruct (Hk a s1) as (more & Hmore & Hin).
  exists (msgs ++ more). rewrite Hmore, Hl, app_assoc. split; [reflexivity|].
  apply in_or_app. now right.
Qed.

Lemma wakeMonitor_eq (s : State) :
  wakeMonitor c s
  = match Fields (WakeMonitorCommand c) with
    | [] => (Some "no wake command configured", s)
    | parts =>
        let r := run_result (env (world s)) (tick (world s)) parts in
        (r,
         {| vars := vars s;
            world :=
              {| files := files (world s); env := env (world s);
                 trace := trace (world s) ++ [EvRun parts r];
                 logged := logged (world s)
                           ++ ["Running wake command: " +++ WakeMonitorCommand c;
                               match r with
                               | Some e => "Wake command failed: " +++ e
                               | None => "Wake command completed"
                               end] |} |})
    end.
Proof.
  unfold wakeMonitor. destruct (Fields (WakeMonitorCommand c)) as [|part parts];
    [reflexivity|].
  unfold_os. state_simpl.
  destruct (run_result _ _ _); state_simpl; now rewrite <- app_assoc.
Qed.

Ltac no_alternatives_side :=
  first [ intros; exact I
        | unfold withoutAlternatives, alternativesNote; discriminate
        | unfold withoutAlternatives, alternativesNote;
          apply differs_by_prefix; reflexivity ].

Lemma plain_pollServiceActive (n : nat) :
  emits anyCall withoutAlternatives (pollServiceActive "sunshine" n).
Proof.
  induction n as [|n IH]; cbn [pollServiceActive]; unfold Run, Sleep;
    repeat emits_step no_alternatives_side.
Qed.

Lemma plain_restart : emits anyCall withoutAlternatives restartSunshineSystemctlOnly.
Proof.
  unfold restartSunshineSystemctlOnly, waitForServiceActive, Run.
  pose proof plain_pollServiceActive. repeat emits_step no_alternatives_side.
Qed.

Lemma plain_findMainLoop (lines : list string) :
  emits anyCall withoutAlternatives (findMainLoop lines).
Proof.
  induction lines as [|line rest IH]; cbn [findMainLoop]; unfold Now;
    repeat emits_step no_alternatives_side.
Qed.

(** X21.  In a wake cycle the alternative wake methods are tried exactly
    when the primary wake failed: when the configured command returned an
    error, or when no command is configured, which [wakeMonitor] reports
    as an error without running anything.  The failure of the primary
    wake is printed. *)
Theorem wake_cycle_tries_alternatives_when_primary_fails (waitSeconds : Z)
  (s : State) :
  let w := world s in
  let primary := match Fields (WakeMonitorCommand c) with
                 | [] => Some "no wake command configured"
                 | parts => run_result (env w) (tick w) parts
                 end in
  let s' := snd (wakeCycle c waitSeconds s) in
  exists msgs,
    logged (world s') = logged w ++ msgs /\
    (In alternativesNote msgs <-> primary <> None) /\
    (forall e, primary = Some e -> In ("Primary wake failed: " +++ e) msgs).
Proof.
  cbv zeta.
  destruct (wakeCycle c waitSeconds s) as [u s'] eqn:Hrun. cbn [snd].
  unfold wakeCycle in Hrun. unfold bind at 1 in Hrun. rewrite Println_eq in Hrun.
  unfold bind at 1 in Hrun. unfold setv at 1 in Hrun. cbn [fst snd] in Hrun.
  unfold bind at 1 in Hrun. rewrite wakeMonitor_eq in Hrun.
  unfold tick in *. cbn [vars world env trace files logged addLogs] in Hrun.
  assert (Hfailed :
            forall (e : error) (s2 : State) (first : list string) prog,
              prints alternativesNote prog ->
              prints ("Primary wake failed: " +++ e) prog ->
              prog s2 = (u, s') ->
              logged (world s2) = logged (world s) ++ first ->
              exists msgs,
                logged (world s') = logged (world s) ++ msgs /\
                (In alternativesNote msgs <-> Some e <> None) /\
                (forall e0, Some e = Some e0 -> In ("Primary wake failed: " +++ e0) msgs)).
  { intros e s2 first prog Halt Hfail Hprog Hfirst.
    destruct (Halt s2) as (msgs & Hl & Hin).
    destruct (Hfail s2) as (msgs' & Hl' & Hin').
    rewrite Hprog in Hl, Hl'. cbn [snd] in Hl, Hl'.
    assert (msgs' = msgs) by (rewrite Hl in Hl'; now apply app_inv_head in Hl').
    subst msgs'.
    exists (first ++ msgs). rewrite Hl, Hfirst, app_assoc.
    split; [reflexivity|]. split.
    - split; [discriminate|]. intros _. apply in_or_app. now right.
    - intros e0 He0. injection He0 as <-. apply in_or_app. now right. }
  assert (Htail : forall e,
             prints alternativesNote
               (bind (Println ("Primary wake failed: " +++ e) ;;
                      err0 <- alternativeWakeMethod ;;
                      match err0 with
                      | Some e0 => Println ("Alternative wake also failed: " +++ e0)
                      | None => ret tt
                      end)
                     (fun _ =>
                        now <- Now ;;
                        setv (set_lastWakeTime now) ;;
                        Println ("Waiting " +++ Itoa waitSeconds
                                 +++ " seconds for monitor and Sunshine...") ;;
                        Sleep (int64 (waitSeconds * Second)) ;;
                        ready <- checkForMainLoop c ;;
                        (if ready
                         then Println "Sunshine is ready - connection successful!"
                         else Println "Sunshine not ready - restarting..." ;;
                              _ <- restartSunshineSystemctlOnly ;;
                              ret tt) ;;
                        setv (set_inWakeCycle false))) /\
             prints ("Primary wake failed: " +++ e)
               (bind (Println ("Primary wake failed: " +++ e) ;;
                      err0 <- alternativeWakeMethod ;;
                      match err0 with
                      | Some e0 => Println ("Alternative wake also failed: " +++ e0)
                      | None => ret tt
                      end)
                     (fun _ =>
                        now <- Now ;;
                        setv (set_lastWakeTime now) ;;
                        Println ("Waiting " +++ Itoa waitSeconds
                                 +++ " seconds for monitor and Sunshine...") ;;
                        Sleep (int64 (waitSeconds * Second)) ;;
                        ready <- checkForMainLoop c ;;
                        (if ready
                         then Println "Sunshine is ready - connection successful!"
                         else Println "Sunshine not ready - restarting..." ;;
                              _ <- restartSunshineSystemctlOnly ;;
                              ret tt) ;;
                        setv (set_inWakeCycle false)))).
  { intros e. split.
    - apply prints_first.
      + apply prints_later; [apply runsOnward_Println|intros _].
        apply prints_first; [|intros a0; destruct a0; onward_all].
        unfold alternativeWakeMethod. apply prints_first; [apply prints_Println|].
        intros _. apply runsOnward_tryWakeMethods.
      + intros _. unfold Now.
        pose proof runsOnward_Sleep. pose proof (runsOnward_checkForMainLoop c).
        pose proof runsOnward_restart. onward_all.
    - apply prints_first.
      + apply prints_first; [apply prints_Println|intros _].
        pose proof runsOnward_alternativeWakeMethod. onward_all.
      + intros _. unfold Now.
        pose proof runsOnward_Sleep. pose proof (runsOnward_checkForMainLoop c).
        pose proof runsOnward_restart. onward_all. }
  destruct (Fields (WakeMonitorCommand c)) as [|part parts].
  - destruct (Htail "no wake command configured") as [Halt Hfail].
    eapply Hfailed; [exact Halt|exact Hfail|exact Hrun|].
    cbn [world logged addLogs]. reflexivity.
  - cbv zeta in Hrun.
    destruct (run_result (env (world s)) (Datatypes.length (trace (world s))) (part :: parts))
      as [e|].
    + destruct (Htail e) as [Halt Hfail].
      eapply Hfailed; [exact Halt|exact Hfail|exact Hrun|].
      cbn [world logged addLogs]. rewrite <- app_assoc. reflexivity.
    + match type of Hrun with ?prog ?st = _ =>
        assert (Hplain : emits anyCall withoutAlternatives prog);
        [|destruct (Hplain st) as (_ & msgs & _ & Hl & _ & Hq)]
      end.
      { unfold checkForMainLoop, Now, Open.
        pose proof plain_restart. pose proof plain_findMainLoop.
        assert (Hs : forall d, emits anyCall withoutAlternatives (Sleep d))
          by (intros d; unfold Sleep; repeat emits_step no_alternatives_side).
        repeat emits_step no_alternatives_side. }
      rewrite Hrun in Hl. cbn [snd world logged] in Hl. rewrite <- !app_assoc in Hl.
      cbn [app] in Hl.
      eexists. split; [exact Hl|]. split; [|discriminate].
      split; [|intros H; now contradict H].
      intros Hin. exfalso. cbn [In] in Hin.
      destruct Hin as [H|[H|[H|Hin]]];
        [ discriminate
        | revert H; apply differs_by_prefix; reflexivity
        | discriminate
        | rewrite Forall_forall in Hq; exact (Hq _ Hin eq_refl) ].
Qed.

End WakeAlternatives.

Section LineLimit.
Context {lib : GoLib}.
Variable c : config.

(** X22.  The original program reads the log with the scanner's default
    limit: a log it can open that holds a line of 64 KiB or more ends the
    process.  The tick stats and opens the log and does nothing else, the
    log is left as it is, and the last line printed is the fatal one with
    the scanner's error. *)
Theorem Original_long_line_is_fatal (s : State) (size : Z) (f : File) :
  scanInput c s = Ok (size, f) ->
  (exists line, In line (rawLines (delivered f)) /\ MaxScanTokenSize <= len line) ->
  let path := SunshineLogPath c in
  let s' := snd (Original.periodicCheck c s) in
  fst (Original.periodicCheck c s) = Exit /\
  trace (world s') = trace (world s) ++ [EvStat path (Ok size); EvOpen path None] /\
  files (world s') = files (world s) /\
  exists msgs,
    logged (world s')
    = logged (world s) ++ msgs ++ ["Unable to read log file:" +++ ErrTooLong].
Proof.
  intros Hscan (line & Hin & Hlen). cbv zeta.
  assert (Herr : snd (Scanner MaxScanTokenSize f) = Some ErrTooLong)
    by (apply Scanner_too_long with line; [exact Hin|exact Hlen]).
  destruct (Original.periodicCheck c s) as [flow s'] eqn:Hrun. cbn [fst snd].
  revert Hscan Hrun.
  unfold scanInput, Original.periodicCheck, Original.isMonitorSleeping,
    resetMonitorTracking, tick.
  unfold_os. state_simpl.
  destruct (statAnswer _ _ _ _) as [size0|e0]; state_simpl; [|discriminate].
  destruct (size0 <? lastLogSize (vars s)); state_simpl; rewrite last_length;
    (destruct (openAnswer _ _ _ _) as [f0|e1]; [|discriminate]);
    intros H; injection H as -> ->;
    (destruct (Scanner MaxScanTokenSize f) as [lines err]; cbn [snd] in Herr;
     subst err; rewrite latestMatching_eq; state_simpl);
    intros Hrun; injection Hrun as <- <-; state_simpl; rewrite <- ?app_assoc;
    (split; [reflexivity|]); (split; [reflexivity|]); (split; [reflexivity|]);
    match goal with
    | |- exists msgs, _ ++ ?a ++ ?b ++ ?d ++ [?x] = _ => exists (a ++ b ++ d)
    | |- exists msgs, _ ++ ?a ++ ?b ++ [?x] = _ => exists (a ++ b)
    end; rewrite <- ?app_assoc; reflexivity.
Qed.

End LineLimit.

Section LeavingFiles.

Lemma leavesFiles_ret (A : Type) (a : A) : leavesFiles (ret a).
Proof. intros s. reflexivity. Qed.

Lemma leavesFiles_bind (A B : Type) (m : M A) (k : A -> M B) :
  leavesFiles m -> (forall a, leavesFiles (k a)) -> leavesFiles (bind m k).
Proof.
  intros Hm Hk s. unfold bind. specialize (Hm s).
  destruct (m s) as [a s1]. cbn [snd] in *. now rewrite Hk.
Qed.

Lemma leavesFiles_syscall (A : Type) answer ev :
  leavesFiles (@syscall A answer ev (@unchanged A)).
Proof. intros s. reflexivity. Qed.

Lemma leavesFiles_Println (msg : string) : leavesFiles (Println msg).
Proof. intros s. reflexivity. Qed.

Lemma leavesFiles_getv (A : Type) (f : Globals -> A) : leavesFiles (getv f).
Proof. intros s. reflexivity. Qed.

Lemma leavesFiles_setv (upd : Globals -> Globals) : leavesFiles (setv upd).
Proof. intros s. reflexivity. Qed.

End LeavingFiles.

Ltac leaves_step :=
  first
    [ apply leavesFiles_ret
    | apply leavesFiles_Println
    | apply leavesFiles_getv
    | apply leavesFiles_setv
    | apply leavesFiles_syscall
    | solve [auto]
    | apply leavesFiles_bind; [|intros ?]
    | match goal with
      | |- leavesFiles (match ?x with _ => _ end) => destruct x
      | |- leavesFiles (if ?x then _ else _) => destruct x
      end ].

Section LoopFootprints.
Context {lib : GoLib}.
Variable c : config.

Ltac footprint_side :=
  first [ intros; exact I
        | intros; reflexivity
        | intros; split; reflexivity
        | intros; cbn [checksOrRestarts wakesOrRestarts]; auto 6
        | intros; cbn [checksOrRestarts wakesOrRestarts In]; auto 10 ].

Ltac footprint_all := repeat emits_step footprint_side.

Lemma footprint_latestMatching (P : Event -> Prop) (matches : string -> bool)
  (lines : list string) :
  forall t, emits P anyLine (latestMatching matches lines t).
Proof.
  induction lines as [|line rest IH]; intros t; cbn [latestMatching];
    footprint_all.
Qed.

Lemma checks_pollServiceActive (n : nat) :
  emits (checksOrRestarts (SunshineLogPath c)) anyLine
    (pollServiceActive "sunshine" n).
Proof.
  induction n as [|n IH]; cbn [pollServiceActive]; unfold Run, Sleep;
    footprint_all.
Qed.

Lemma checks_restart :
  emits (checksOrRestarts (SunshineLogPath c)) anyLine
    restartSunshineSystemctlOnly.
Proof.
  unfold restartSunshineSystemctlOnly, waitForServiceActive, Run.
  pose proof checks_pollServiceActive. footprint_all.
Qed.

Lemma checks_isEncoderFailed :
  emits (checksOrRestarts (SunshineLogPath c)) anyLine (isEncoderFailed c).
Proof.
  unfold isEncoderFailed, handleCorruptedLog, Stat, Open, Truncate.
  pose proof checks_restart.
  pose proof (footprint_latestMatching (checksOrRestarts (SunshineLogPath c))).
  footprint_all.
Qed.

Lemma checks_periodicCheck :
  emits (checksOrRestarts (SunshineLogPath c)) anyLine (periodicCheck c).
Proof.
  unfold periodicCheck.
  pose proof checks_restart. pose proof checks_isEncoderFailed.
  footprint_all.
Qed.

Lemma wakes_Sleep (wake : list (list string)) (d : Duration) :
  emits (wakesOrRestarts (SunshineLogPath c) wake) anyLine (Sleep d).
Proof. unfold Sleep. footprint_all. Qed.

Lemma wakes_pollServiceActive (wake : list (list string)) (n : nat) :
  emits (wakesOrRestarts (SunshineLogPath c) wake) anyLine
    (pollServiceActive "sunshine" n).
Proof.
  induction n as [|n IH]; cbn [pollServiceActive]; unfold Run, Sleep;
    footprint_all.
Qed.

Lemma wakes_restart (wake : list (list string)) :
  emits (wakesOrRestarts (SunshineLogPath c) wake) anyLine
    restartSunshineSystemctlOnly.
Proof.
  unfold restartSunshineSystemctlOnly, waitForServiceActive, Run.
  pose proof (wakes_pollServiceActive wake). footprint_all.
Qed.

Lemma wakes_findMainLoop (wake : list (list string)) (lines : list string) :
  emits (wakesOrRestarts (SunshineLogPath c) wake) anyLine (findMainLoop lines).
Proof.
  induction lines as [|line rest IH]; cbn [findMainLoop]; unfold Now;
    footprint_all.
Qed.

Lemma wakes_wakeCycle (waitSeconds : Z) :
  emits (wakesOrRestarts (SunshineLogPath c) (wakeCommands c)) anyLine
    (wakeCycle c waitSeconds).
Proof.
  assert (Hcfg : In (Fields (WakeMonitorCommand c)) (wakeCommands c))
    by (now left).
  assert (Hmove : In ["ydotool"; "mousemove"; "--absolute"; "100"; "100"]
                     (wakeCommands c)) by (right; now left).
  assert (Hkey : In ["ydotool"; "key"; "65"] (wakeCommands c))
    by (right; right; now left).
  revert Hcfg Hmove Hkey. generalize (wakeCommands c) as wake.
  intros wake Hcfg Hmove Hkey.
  pose proof (wakes_restart wake). pose proof (wakes_findMainLoop wake).
  pose proof (wakes_Sleep wake).
  unfold wakeCycle, wakeMonitor, alternativeWakeMethod, checkForMainLoop.
  cbn [tryWakeMethods]. unfold Run, Now, Open.
  revert Hcfg. generalize (Fields (WakeMonitorCommand c)) as parts.
  intros parts Hcfg. footprint_all.
Qed.

Lemma wakes_wakeOnConnectStep :
  emits (wakesOrRestarts (SunshineLogPath c) (wakeCommands c)) anyLine
    (wakeOnConnectStep c).
Proof.
  unfold wakeOnConnectStep, detectSunshineRunning, shouldWakeMonitor,
    checkForLogActivity, Since, Now, Run, Stat.
  pose proof (wakes_restart (wakeCommands c)). pose proof wakes_wakeCycle.
  pose proof (wakes_Sleep (wakeCommands c)). footprint_all.
Qed.

Lemma leavesFiles_Sleep (d : Duration) : leavesFiles (Sleep d).
Proof. unfold Sleep. repeat leaves_step. Qed.

Lemma leavesFiles_pollServiceActive (serviceName : string) (n : nat) :
  leavesFiles (pollServiceActive serviceName n).
Proof.
  induction n as [|n IH]; cbn [pollServiceActive]; unfold Run, Sleep;
    repeat leaves_step.
Qed.

Lemma leavesFiles_restart : leavesFiles restartSunshineSystemctlOnly.
Proof.
  unfold restartSunshineSystemctlOnly, waitForServiceActive, Run.
  pose proof leavesFiles_pollServiceActive. repeat leaves_step.
Qed.

Lemma leavesFiles_findMainLoop (lines : list string) :
  leavesFiles (findMainLoop lines).
Proof.
  induction lines as [|line rest IH]; cbn [findMainLoop]; unfold Now;
    repeat leaves_step.
Qed.

Lemma leavesFiles_wakeCycle (waitSeconds : Z) :
  leavesFiles (wakeCycle c waitSeconds).
Proof.
  unfold wakeCycle, wakeMonitor, alternativeWakeMethod, checkForMainLoop.
  cbn [tryWakeMethods]. unfold Run, Now, Open.
  pose proof leavesFiles_restart. pose proof leavesFiles_findMainLoop.
  pose proof leavesFiles_Sleep. repeat leaves_step.
Qed.

Lemma leavesFiles_wakeOnConnectStep : leavesFiles (wakeOnConnectStep c).
Proof.
  unfold wakeOnConnectStep, detectSunshineRunning, shouldWakeMonitor,
    checkForLogActivity, Since, Now, Run, Stat.
  pose proof leavesFiles_restart. pose proof leavesFiles_wakeCycle.
  pose proof leavesFiles_Sleep. repeat leaves_step.
Qed.

(** X23.  The two loops of [main.go] act on sunshine through systemd alone.
    A periodic check looks at the log or empties it, runs
    [systemctl --user restart sunshine] and [systemctl --user is-active
    sunshine], and sleeps; it runs no other command.  A wake-on-connect
    round also reads the clock, and the only other commands it runs are the
    configured wake command and the two [ydotool] commands; it never empties
    the log and changes no file.  Neither reads the process table, asks
    whether the systemd session is up, or launches a command without waiting
    for it. *)
Theorem main_loops_act_through_systemd :
  emits (checksOrRestarts (SunshineLogPath c)) anyLine (periodicCheck c) /\
  emits (wakesOrRestarts (SunshineLogPath c) (wakeCommands c)) anyLine
    (wakeOnConnectStep c) /\
  leavesFiles (wakeOnConnectStep c).
Proof.
  split; [exact checks_periodicCheck|].
  split; [exact wakes_wakeOnConnectStep|exact leavesFiles_wakeOnConnectStep].
Qed.

End LoopFootprints.

(** ** The properties on the states of [Scenario] *)

Import Reading Scenario.

(** C1 as stated fails: [isMonitorSleeping] reports the monitor error of
    ten o'clock and stores it; run again on the log cut back to that one
    line, with no matching line added, it takes the log to have rotated,
    drops what it stored and reports the same error a second time. *)
Lemma dedup_retriggers_on_shrunk_log :
  fst (isMonitorSleeping cfg asleepAmidChatter) = (true, None) /\
  lastMonitorMissingTime (vars (snd (isMonitorSleeping cfg asleepAmidChatter)))
  = tenOClock /\
  vars asleepAfterShrink = vars (snd (isMonitorSleeping cfg asleepAmidChatter)) /\
  files (world (snd (isMonitorSleeping cfg asleepAmidChatter))) logPath
  = Some (monitorLog +++ chatterLog) /\
  files (world asleepAfterShrink) logPath = Some monitorLog /\
  len monitorLog < len (monitorLog +++ chatterLog) /\
  (forall line,
      In line (linesOf monitorLog) -> monitorMatches cfg line = true ->
      In line (linesOf (monitorLog +++ chatterLog))) /\
  fst (isMonitorSleeping cfg asleepAfterShrink) = (true, None).
Proof.
  split; [vm_compute; reflexivity|]. split; [vm_compute; reflexivity|].
  split; [reflexivity|]. split; [vm_compute; reflexivity|].
  split; [vm_compute; reflexivity|]. split; [vm_compute; reflexivity|].
  split; [|vm_compute; reflexivity].
  intros line Hin _. vm_compute in Hin. destruct Hin as [<-|[]].
  vm_compute. now left.
Qed.

(** C1, amended, where the log has grown by a line that matches no
    pattern. *)
Lemma dedup_idempotent_witness :
  snd (fst (classify cfg MonitorSleep asleep)) = None /\
  fst (fst (classify cfg MonitorSleep asleep)) = true /\
  len monitorLog <= len (monitorLog +++ chatterLog) /\
  fst (fst (classify cfg MonitorSleep asleepThenChatter)) = false.
Proof.
  split; [vm_compute; reflexivity|]. split; [vm_compute; reflexivity|].
  split; [vm_compute; discriminate|].
  apply (@dedup_idempotent lib cfg MonitorSleep asleep asleepThenChatter
            monitorLog (monitorLog +++ chatterLog)).
  - vm_compute; reflexivity.
  - reflexivity.
  - vm_compute; reflexivity.
  - vm_compute; reflexivity.
  - vm_compute; discriminate.
  - intros l Hin Hmatch. vm_compute in Hin.
    destruct Hin as [<-|[<-|[]]].
    + vm_compute. now left.
    + vm_compute in Hmatch. discriminate.
Defined.

(** C2.  The encoder scan on a log that has shrunk: [os.Stat] reports 83
    bytes where 100000 were recorded, yet [isEncoderFailed] leaves both
    timestamps as they were and reports the occurrence as handled already.
    [isMonitorSleeping] in the same state drops both timestamps, and the
    encoder scan run after it reports the occurrence. *)
Lemma encoder_scan_ignores_rotation :
  fst (Stat logPath afterRotation) = Ok 83 /\
  lastLogSize (vars afterRotation) = 100000 /\
  fst (isEncoderFailed cfg afterRotation) = (false, None) /\
  lastEncoderFailureTime (vars (snd (isEncoderFailed cfg afterRotation))) = tenOClock /\
  lastMonitorMissingTime (vars (snd (isEncoderFailed cfg afterRotation))) = tenOClock /\
  lastEncoderFailureTime (vars (snd (isMonitorSleeping cfg afterRotation))) = zeroTime /\
  fst (isEncoderFailed cfg (snd (isMonitorSleeping cfg afterRotation))) = (true, None).
Proof. vm_compute. repeat split; reflexivity. Qed.

(** C3 as stated fails: a monitor-sleep scan that finds the log shrunk
    takes [lastEncoderFailureTime] from ten o'clock back to the zero
    time. *)
Lemma timestamps_drop_on_rotation :
  ~ Sorted Z.le
      (map (lastHandled EncoderFailure)
           (handledAtTen
            :: scans cfg [(MonitorSleep, world afterRotation)] handledAtTen)).
Proof.
  intros H.
  assert (E : map (lastHandled EncoderFailure)
                (handledAtTen :: scans cfg [(MonitorSleep, world afterRotation)] handledAtTen)
              = [tenOClock; 0]) by (vm_compute; reflexivity).
  rewrite E in H. inversion H as [|a l _ Hhd]; subst.
  inversion Hhd as [|b l' Hle]; subst.
  vm_compute in Hle. now apply Hle.
Qed.

(** C3, amended, on three scans of an unchanged log. *)
Lemma timestamps_nondecreasing_witness :
  noShrinkSeen cfg
    [(EncoderFailure, world asleep); (MonitorSleep, world asleep);
     (MonitorSleep, world asleep)] initialGlobals = true /\
  Sorted Z.le
    (map (lastHandled MonitorSleep)
         (initialGlobals
          :: scans cfg
               [(EncoderFailure, world asleep); (MonitorSleep, world asleep);
                (MonitorSleep, world asleep)] initialGlobals)).
Proof.
  assert (Hno : noShrinkSeen cfg
                   [(EncoderFailure, world asleep); (MonitorSleep, world asleep);
                    (MonitorSleep, world asleep)] initialGlobals = true)
    by (vm_compute; reflexivity).
  split; [exact Hno|].
  exact (proj1 (@timestamps_nondecreasing_without_rotation lib cfg MonitorSleep _ _ Hno)).
Defined.

Lemma len_repeatByte (n : nat) (a : ascii) : len (repeatByte n a) = Z.of_nat n.
Proof.
  unfold len. f_equal. induction n as [|n IH]; cbn [repeatByte String.length]; congruence.
Qed.

Lemma rawLines_repeatByte (n : nat) (a : ascii) :
  Ascii.eqb a LF = false -> rawLines (repeatByte n a) = [repeatByte n a].
Proof.
  intros Ha. unfold rawLines.
  induction n as [|n IH]; cbn [repeatByte Split]; [reflexivity|].
  now rewrite Ha, IH.
Qed.

Lemma corrupted_input :
  scanInput cfg corrupted
  = Ok (len garbled, {| delivered := garbled; readErr := None |}).
Proof. reflexivity. Qed.

(** C4 on the log of one line of 2,000,000 bytes. *)
Lemma long_line_is_corruption_witness :
  scanInput cfg corrupted
  = Ok (len garbled, {| delivered := garbled; readErr := None |}) /\
  (exists line, In line (rawLines garbled) /\ 1024 * 1024 < len line) /\
  fst (fst (classify cfg EncoderFailure corrupted)) = false /\
  files (world (snd (classify cfg EncoderFailure corrupted))) logPath = Some "".
Proof.
  assert (Hlong : exists line, In line (rawLines garbled) /\ 1024 * 1024 < len line).
  { exists garbled. unfold garbled. split.
    - rewrite rawLines_repeatByte by reflexivity. now left.
    - rewrite len_repeatByte, Z2Nat.id by lia. reflexivity. }
  split; [exact corrupted_input|]. split; [exact Hlong|].
  pose proof (long_line_is_corruption cfg EncoderFailure corrupted corrupted_input Hlong) as H.
  cbv zeta in H. destruct H as (_ & _ & Hfalse & Hrest).
  split; [exact Hfalse|].
  change (truncateAnswer (SunshineLogPath cfg) (env (world corrupted))
            (files (world corrupted)) (tick (world corrupted) + 2))
    with (@None error) in Hrest.
  exact (proj1 Hrest).
Defined.

(** C5 as stated fails: [restartSunshineSystemctlOnly] returns success
    although no process named sunshine exists, and without having read
    the process table. *)
Lemma restart_succeeds_without_processes :
  fst (restartSunshineSystemctlOnly asleep) = None /\
  fst (getSunshinePIDs (snd (restartSunshineSystemctlOnly asleep))) = [] /\
  existsb enumerates (trace (world (snd (restartSunshineSystemctlOnly asleep)))) = false.
Proof. vm_compute. repeat split; reflexivity. Qed.

(** C5, amended, where two processes survive every signal. *)
Lemma restart_verification_witness :
  fst (SystemdPreferred.restartSunshineManual cfg stubborn) = None /\
  exists s_pre,
    fst (getSunshinePIDs s_pre) <> [] /\
    snd (SystemdPreferred.restartSunshineManual cfg stubborn)
    = addLogs ["Sunshine restart complete"] (snd (getSunshinePIDs s_pre)).
Proof.
  assert (H : fst (SystemdPreferred.restartSunshineManual cfg stubborn) = None)
    by (vm_compute; reflexivity).
  split; [exact H|].
  destruct (proj1 (restart_verification cfg stubborn) H) as (s_pre & _ & _ & Hpids & Hend).
  exists s_pre. split; [exact Hpids|exact Hend].
Defined.

(** C6 as stated fails: with no process found, [killAllSunshineProcesses]
    neither waits nor enumerates again. *)
Lemma no_process_no_delay :
  fst (getSunshinePIDs (addLogs ["Killing all sunshine processes..."] asleep)) = [] /\
  trace (world (snd (killAllSunshineProcesses asleep)))
  = [EvReadDir "/proc" (Ok [])] /\
  ~ In (EvSleep (2 * Second)) (trace (world (snd (killAllSunshineProcesses asleep)))).
Proof.
  split; [vm_compute; reflexivity|]. split; [vm_compute; reflexivity|].
  intros H.
  assert (E : trace (world (snd (killAllSunshineProcesses asleep)))
              = [EvReadDir "/proc" (Ok [])]) by (vm_compute; reflexivity).
  rewrite E in H. destruct H as [H|[]]. discriminate.
Qed.

(** C6, amended, where two processes are found. *)
Lemma graduated_kill_witness :
  fst (getSunshinePIDs (addLogs ["Killing all sunshine processes..."] stubborn))
  = [4242; 4243] /\
  fst (killAllSunshineProcesses stubborn) = None.
Proof.
  split; [vm_compute; reflexivity|].
  exact (proj1 (graduated_kill stubborn)).
Defined.

(** C7 where the third poll reports active. *)
Lemma waitForServiceActive_polls_witness :
  pollAnswer "sunshine" stubborn 2 = None /\
  fst (waitForServiceActive "sunshine" 30 stubborn) = None.
Proof.
  split; [vm_compute; reflexivity|].
  apply (proj2 (proj1 (waitForServiceActive_polls "sunshine" 30 stubborn))).
  exists 2%nat. split; [vm_compute; lia|vm_compute; reflexivity].
Defined.

(** C8 with the cooldown of [runWakeOnConnect], both timestamps unset. *)
Lemma shouldWakeMonitor_cooldown_witness :
  minDuration < 2 * Minute <= maxDuration /\
  fst (shouldWakeMonitor (2 * Minute) asleep) = true.
Proof.
  assert (Hrange : minDuration < 2 * Minute <= maxDuration)
    by (vm_compute; split; [reflexivity|discriminate]).
  split; [exact Hrange|].
  apply (proj2 (proj1 (shouldWakeMonitor_cooldown asleep Hrange))).
  vm_compute. split; discriminate.
Defined.

(** C9 as stated fails: with the log missing, the periodic loop of
    [main.go] goes on to its next tick. *)
Lemma periodic_loop_survives_missing_log :
  scanInput cfg missing = Err (ENOENT "stat" logPath) /\
  RestartOnEncoderFailure cfg = true /\
  fst (periodicCheck cfg missing) = NextIteration /\
  fst (periodicCheck cfg missing) <> Exit.
Proof.
  split; [vm_compute; reflexivity|]. split; [reflexivity|].
  assert (E : fst (periodicCheck cfg missing) = NextIteration) by (vm_compute; reflexivity).
  split; [exact E|]. rewrite E. discriminate.
Qed.

(** C9, amended, with the log missing. *)
Lemma log_access_error_disposition_witness :
  scanInput cfg missing = Err (ENOENT "stat" logPath) /\
  openAnswer (SunshineLogPath cfg) (env (world missing)) (files (world missing))
    (tick (world missing)) = Err (ENOENT "open" logPath) /\
  fst (Original.periodicCheck cfg missing) = Exit /\
  fst (checkForMainLoop cfg missing) = false.
Proof.
  assert (H1 : scanInput cfg missing = Err (ENOENT "stat" logPath))
    by (vm_compute; reflexivity).
  assert (H2 : openAnswer (SunshineLogPath cfg) (env (world missing))
                 (files (world missing)) (tick (world missing))
               = Err (ENOENT "open" logPath)) by (vm_compute; reflexivity).
  split; [exact H1|]. split; [exact H2|].
  destruct (log_access_error_disposition cfg missing missing H1 H2)
    as (_ & _ & (Hexit & _) & (Hready & _) & _).
  split; [exact Hexit|exact Hready].
Defined.

(** C10 with only the first pattern configured. *)
Lemma empty_second_pattern_witness :
  EncoderFailedLogLine2 onlyFirstPattern = "" /\
  encoderMatches onlyFirstPattern "[2025-01-01 10:00:00.000] Info: Client connected" = true /\
  fst (isEncoderFailed onlyFirstPattern chatter) = (true, None).
Proof.
  split; [reflexivity|].
  split; [|vm_compute; reflexivity].
  exact (proj1 (empty_second_pattern_matches_every_line onlyFirstPattern eq_refl) _).
Defined.

(** X4 from the state the process starts in. *)
Lemma crash_check_never_fires_witness :
  inWakeCycle (vars asleep) = false /\
  inWakeCycle (vars (snd (wakeOnConnectStep cfg asleep))) = false.
Proof.
  split; [reflexivity|].
  exact (proj1 (proj1 (@crash_check_never_fires lib cfg asleep eq_refl))).
Defined.

(** X6 on a log with two markers: the first one is taken, though the
    second is later. *)
Lemma checkForMainLoop_takes_first_marker_witness :
  openAnswer logPath (env (world ready)) (files (world ready)) (tick (world ready))
  = Ok {| delivered := readyLog; readErr := None |} /\
  fst (checkForMainLoop cfg ready) = true /\
  lastMainLoopTime (vars (snd (checkForMainLoop cfg ready))) = nineOClock.
Proof.
  assert (Hopen : openAnswer logPath (env (world ready)) (files (world ready))
                    (tick (world ready))
                  = Ok {| delivered := readyLog; readErr := None |}) by reflexivity.
  split; [exact Hopen|].
  pose proof (@checkForMainLoop_takes_first_marker lib cfg ready _ Hopen) as H.
  cbv zeta in H. destruct H as (_ & _ & H).
  match type of H with context [find ?p ?l] => set (found := find p l) in H end.
  vm_compute in found. subst found. cbv beta iota in H.
  destruct H as (Htrue & H). split; [exact Htrue|].
  match type of H with context [parseSunshineTimestamp ?l] =>
    set (stamp := parseSunshineTimestamp l) in H end.
  vm_compute in stamp. subst stamp. cbv beta iota in H.
  destruct H as (Hvars & _). rewrite Hvars. reflexivity.
Defined.

(** X11 on the log that holds one monitor error, nothing being stored. *)
Lemma scan_triggers_on_new_occurrence_witness :
  scanInput cfg asleep
  = Ok (len monitorLog, {| delivered := monitorLog; readErr := None |}) /\
  fst (fst (classify cfg MonitorSleep asleep)) = true.
Proof.
  assert (Hin : scanInput cfg asleep
                = Ok (len monitorLog, {| delivered := monitorLog; readErr := None |}))
    by reflexivity.
  split; [exact Hin|].
  assert (Hclean : snd (Scanner (1024 * 1024)
                          {| delivered := monitorLog; readErr := None |}) = None)
    by (vm_compute; reflexivity).
  destruct (@scan_triggers_on_new_occurrence lib cfg MonitorSleep asleep _ _ Hin Hclean)
    as (_ & _ & _ & _ & Hlater & _).
  apply (Hlater "[2025-01-01 10:00:00.000] Error: Couldn't find monitor" tenOClock).
  - vm_compute. now left.
  - vm_compute. reflexivity.
  - vm_compute. reflexivity.
  - reflexivity.
  - reflexivity.
Defined.

(** X12 on a log whose only matching line has no timestamp. *)
Lemma unparseable_match_is_logged_and_skipped_witness :
  scanInput cfg unstamped
  = Ok (len unstampedLog, {| delivered := unstampedLog; readErr := None |}) /\
  fst (classify cfg MonitorSleep unstamped) = (false, None) /\
  In "Unable to parse timestamp: sunshine log line missing timestamp brackets"
     (logged (world (snd (classify cfg MonitorSleep unstamped)))).
Proof.
  assert (Hin : scanInput cfg unstamped
                = Ok (len unstampedLog, {| delivered := unstampedLog; readErr := None |}))
    by reflexivity.
  split; [exact Hin|].
  destruct (@unparseable_match_is_logged_and_skipped lib cfg MonitorSleep unstamped _ _ Hin)
    as ((msgs & Hl & Hmsgs) & Hnever).
  split.
  - apply Hnever; [vm_compute; reflexivity|].
    intros l Hl' _. vm_compute in Hl'. destruct Hl' as [<-|[]].
    eexists. vm_compute. reflexivity.
  - rewrite Hl. apply in_or_app. right.
    apply (Hmsgs "Error: Couldn't find monitor").
    + vm_compute. now left.
    + vm_compute. reflexivity.
    + vm_compute. reflexivity.
Defined.

(** X14 on a log with no line too long. *)
Lemma scan_only_looks_unless_corrupted_witness :
  (forall size f,
      scanInput cfg asleep = Ok (size, f) ->
      isBufferOverflow (snd (Scanner (1024 * 1024) f)) = false) /\
  files (world (snd (classify cfg MonitorSleep asleep))) = files (world asleep) /\
  wakeState (vars (snd (classify cfg MonitorSleep asleep))) = wakeState (vars asleep).
Proof.
  assert (H : forall size f,
             scanInput cfg asleep = Ok (size, f) ->
             isBufferOverflow (snd (Scanner (1024 * 1024) f)) = false).
  { intros size f Hin.
    change (scanInput cfg asleep)
      with (Ok (len monitorLog, {| delivered := monitorLog; readErr := None |})) in Hin.
    injection Hin as _ <-. vm_compute. reflexivity. }
  split; [exact H|].
  destruct (@scan_only_looks_unless_corrupted lib cfg MonitorSleep asleep H)
    as (Hfiles & _ & Hwake & _).
  split; [exact Hfiles|exact Hwake].
Defined.

(** X18 on the log that holds one monitor error. *)
Lemma Original_monitor_sleep_only_wakes_witness :
  fst (fst (Original.isMonitorSleeping cfg asleep)) = true /\
  fst (Original.periodicCheck cfg asleep) = NextIteration.
Proof.
  assert (H : fst (fst (Original.isMonitorSleeping cfg asleep)) = true)
    by (vm_compute; reflexivity).
  split; [exact H|].
  exact (proj1 (@Original_monitor_sleep_only_wakes lib cfg asleep H)).
Defined.

(** X22 on the log of one line of 2,000,000 bytes. *)
Lemma Original_long_line_is_fatal_witness :
  scanInput cfg corrupted
  = Ok (len garbled, {| delivered := garbled; readErr := None |}) /\
  fst (Original.periodicCheck cfg corrupted) = Exit.
Proof.
  split; [exact corrupted_input|].
  refine (proj1 (@Original_long_line_is_fatal lib cfg corrupted _ _
                   corrupted_input _)).
  exists garbled. unfold garbled. split.
  - cbn [delivered]. rewrite rawLines_repeatByte by reflexivity. now left.
  - rewrite len_repeatByte, Z2Nat.id by lia. vm_compute. discriminate.
Defined.
